(** * The crawl-strategy decision engine of the e-commerce spider

    A shallow embedding of [zyte_spider_templates/spiders/ecommerce.py]:
    the link classifier, the priority arithmetic, the strategy gate, the
    product acceptance filter and the requests they emit.

    Python values are modelled as the interpreter has them: a [float] is
    an IEEE 754 binary64 number (Rocq's primitive [float], whose operations
    are specified by [SpecFloat]), a [str] is a sequence of Unicode code
    points, a [dict] with string keys is a [gmap], [None] is [None], and an
    exception is an explicit [Raise].  A generator is modelled by its run:
    the values it yields, the exception that ends it if one does, and what
    it leaves in the stats and in the log.

    The libraries the spider calls are not among the sources.  What
    [scrapy.Request] does with a URL, store it made safe or refuse it, is a
    parameter of the development, [request_url_for]; the URL pattern,
    [get_domain] and the priority of argument settings are parameters of
    the functions that use them. *)

From Stdlib Require Import ZArith Lia Floats QArith Qround Qpower Ascii String.
From stdpp Require Import base option list gmap strings.

Local Open Scope Z_scope.

(** ** Python strings *)

Module PyStr.

(** A [str] is a sequence of code points. *)
Definition str := list N.

(** A literal of the source, all of whose characters are ASCII. *)
Definition lit (s : string) : str :=
  (fun a => N_of_ascii a) <$> list_ascii_of_string s.

(** [str.isspace] on one character: the code points CPython's
    [_PyUnicode_IsWhitespace] accepts. *)
Definition isspace (c : N) : bool :=
  ((9 <=? c) && (c <=? 13) || (28 <=? c) && (c <=? 32)
   || (c =? 133) || (c =? 160) || (c =? 5760)
   || (8192 <=? c) && (c <=? 8202)
   || (c =? 8232) || (c =? 8233) || (c =? 8239) || (c =? 8287)
   || (c =? 12288))%N.

Fixpoint lstrip (s : str) : str :=
  match s with
  | c :: s' => if isspace c then lstrip s' else s
  | [] => []
  end.

Definition rstrip (s : str) : str := reverse (lstrip (reverse s)).

(** [s.strip()] *)
Definition strip (s : str) : str := rstrip (lstrip s).

(** [s.startswith(p)] *)
Fixpoint startswith (p s : str) : bool :=
  match p, s with
  | [], _ => true
  | a :: p', b :: s' => (a =? b)%N && startswith p' s'
  | _ :: _, [] => false
  end.

(** [sub in s] *)
Fixpoint contains (sub s : str) : bool :=
  startswith sub s ||
  match s with
  | [] => false
  | _ :: s' => contains sub s'
  end.

(** The left-to-right scan of [str.replace]: [skip] characters of a match
    found earlier remain to be dropped. *)
Fixpoint replace_from (old new : str) (skip : nat) (s : str) : str :=
  match s with
  | [] => []
  | c :: s' =>
      match skip with
      | S k => replace_from old new k s'
      | O =>
          if startswith old s
          then new ++ replace_from old new (pred (length old)) s'
          else c :: replace_from old new O s'
      end
  end.

(** [s.replace(old, new)] for a non-empty [old]: every occurrence met from
    left to right, never overlapping the previous one. *)
Definition replace (old new s : str) : str := replace_from old new O s.

End PyStr.
Import PyStr.

(** ** Python numbers and exceptions *)

Inductive exn := ValueError | OverflowError | IndexError.

Inductive result (A : Type) :=
| Ok (a : A)
| Raise (e : exn).
Arguments Ok {A} a.
Arguments Raise {A} e.

#[global] Instance result_ret : MRet result := fun _ a => Ok a.

#[global] Instance result_bind : MBind result := fun _ _ k r =>
  match r with
  | Ok a => k a
  | Raise e => Raise e
  end.

(** What [probability or 0] evaluates to: an [int] or a [float]. *)
Inductive number :=
| PyInt (n : Z)
| PyFloat (f : float).

(** [bool(f)] of a float: [f != 0.0]; both zeros are false, NaN is true. *)
Definition float_truthy (f : float) : bool := negb (f =? 0)%float.

(** [100 * x]: the integer product, or the binary64 product with [100.0]. *)
Definition mul100 (x : number) : number :=
  match x with
  | PyInt n => PyInt (100 * n)
  | PyFloat f => PyFloat (100 * f)%float
  end.

(** Truncation towards zero of the number [(-1)^s * m * 2^e] a float
    denotes; NaN raises [ValueError], an infinity raises [OverflowError]. *)
Definition SFtrunc (x : spec_float) : result Z :=
  match x with
  | S754_nan => Raise ValueError
  | S754_infinity _ => Raise OverflowError
  | S754_zero _ => Ok 0
  | S754_finite s m e =>
      Ok (cond_Zopp s (if 0 <=? e then Zpos m * 2 ^ e else Zpos m / 2 ^ (- e)))
  end.

(** [int(f)] of a float. *)
Definition int_of_float (f : float) : result Z := SFtrunc (Prim2SF f).

(** [int(x)] *)
Definition py_int (x : number) : result Z :=
  match x with
  | PyInt n => Ok n
  | PyFloat f => int_of_float f
  end.

(** The literal [0.1] of the source, i.e. the binary64 number nearest to
    one tenth. *)
Definition threshold : float := 0x1.999999999999ap-4%float.

(** ** The data model *)

Inductive EcommerceCrawlStrategy := full | navigation | pagination_only.

#[global] Instance EcommerceCrawlStrategy_eq_dec : EqDecision EcommerceCrawlStrategy.
Proof. solve_decision. Defined.

(** [zyte_common_items.ProbabilityMetadata] *)
Record ProbabilityMetadata := { probability : option float }.

(** [zyte_common_items.ProbabilityRequest]: a link candidate.  Every
    candidate of a [ProductNavigation] is one, and has the [metadata]
    attribute, possibly [None]. *)
Record ProbabilityRequest := {
  url : str;
  name : option str;
  metadata : option ProbabilityMetadata;
}.

(** [ProbabilityMixin.get_probability] *)
Definition get_probability (request : ProbabilityRequest) : option float :=
  md ← metadata request; probability md.

(** [zyte_common_items.ProductNavigation] *)
Record ProductNavigation := {
  nav_url : str;
  items : option (list ProbabilityRequest);
  nextPage : option ProbabilityRequest;
  subCategories : option (list ProbabilityRequest);
}.

(** [zyte_common_items.Product], as far as the spider looks at it. *)
Record Product := {
  product_url : str;
  product_metadata : option ProbabilityMetadata;
}.

Definition product_get_probability (product : Product) : option float :=
  md ← product_metadata product; probability md.

(** The callbacks a request is routed to. *)
Inductive Callback :=
| parse_navigation_callback
| parse_product_callback
| custom_callback (id : nat).

(** The [crawling_logs] entry of a request's [meta]: the start requests
    carry the page type only. *)
Inductive CrawlingLogs :=
| StartLogs (page_type : string)
| LinkLogs (link_name : option str) (link_probability : option float)
           (page_type : string).

Definition page_type_of (logs : CrawlingLogs) : string :=
  match logs with
  | StartLogs t => t
  | LinkLogs _ _ t => t
  end.

(** The [meta] dictionary of a [scrapy.Request]; a key that is not set is
    [None], which is what [meta.get] returns for it. *)
Record Meta := {
  meta_page_params : option (gmap string str);
  meta_crawling_logs : CrawlingLogs;
  meta_allow_offsite : option bool;
}.

(** [scrapy.Request] *)
Record Request := {
  request_url : str;
  request_callback : Callback;
  request_priority : Z;
  request_meta : Meta;
}.

(** [request.meta["allow_offsite"] = value] *)
Definition set_allow_offsite (value : bool) (request : Request) : Request :=
  {| request_url := request_url request;
     request_callback := request_callback request;
     request_priority := request_priority request;
     request_meta :=
       {| meta_page_params := meta_page_params (request_meta request);
          meta_crawling_logs := meta_crawling_logs (request_meta request);
          meta_allow_offsite := Some value |} |}.

(** The response handed to a callback: its [meta] is the request's. *)
Record DummyResponse := {
  response_url : str;
  response_meta : Meta;
}.

(** The spider's configuration, fixed when the crawl starts. *)
Record Spider := {
  crawl_strategy : EcommerceCrawlStrategy;
  start_urls : list str;
  allowed_domains : list str;
}.

(** What the spider writes to: the crawler's stats and the log. *)
Inductive LogRecord :=
| IgnoringNextPage (link : ProbabilityRequest) (page : str)
| IgnoringItem (page : str) (product : Product).

Record World := {
  stats : gmap string Z;
  logged : list LogRecord;
}.

(** [stats.inc_value(key)] *)
Definition inc_value (key : string) (w : World) : World :=
  {| stats := <[key := default 0 (stats w !! key) + 1]> (stats w);
     logged := logged w |}.

(** [logger.info(...)] *)
Definition info (r : LogRecord) (w : World) : World :=
  {| stats := stats w; logged := logged w ++ [r] |}.

(** Modelled from the spec: [BaseSpider._NEXT_PAGE_PRIORITY], declared in
    [spiders/base.py]; the fixed pagination bias, 100. *)
Definition NEXT_PAGE_PRIORITY : Z := 100.

(** ** Generators *)

(** A run of a generator: what it yielded, in order, the exception that
    ended it if one did, and the world it left behind. *)
Record Run (A : Type) := {
  yielded : list A;
  raised : option exn;
  world : World;
}.
Arguments yielded {A} _.
Arguments raised {A} _.
Arguments world {A} _.

Definition Generator (A : Type) := World -> Run A.

Definition pass {A} : Generator A :=
  fun w => {| yielded := []; raised := None; world := w |}.

(** [yield e], where evaluating [e] may raise. *)
Definition yield {A} (e : result A) : Generator A :=
  fun w =>
    match e with
    | Ok a => {| yielded := [a]; raised := None; world := w |}
    | Raise x => {| yielded := []; raised := Some x; world := w |}
    end.

(** A statement that yields nothing. *)
Definition exec {A} (f : World -> World) : Generator A :=
  fun w => {| yielded := []; raised := None; world := f w |}.

(** [g1; g2]: [g2] runs only if [g1] ended without an exception. *)
Definition seq {A} (g1 g2 : Generator A) : Generator A :=
  fun w =>
    let r1 := g1 w in
    match raised r1 with
    | Some _ => r1
    | None =>
        let r2 := g2 (world r1) in
        {| yielded := yielded r1 ++ yielded r2;
           raised := raised r2;
           world := world r2 |}
    end.

Infix ">>" := seq (at level 65, right associativity).

(** [for x in l: body(x)] *)
Fixpoint for_in {A B} (l : list B) (body : B -> Generator A) : Generator A :=
  match l with
  | [] => pass
  | x :: l' => body x >> for_in l' body
  end.

(** ** Scrapy's requests *)

(** A stand-in for Scrapy on the URLs of the examples: a URL with [://] is
    kept as it is, the URLs of the examples needing no escaping, and any
    other URL is refused with [ValueError]. *)
Definition example_request_url (url : str) : result str :=
  if contains (lit "://") url then Ok url else Raise ValueError.

Section Scrapy.

(** [scrapy.Request(url=url)] stores the URL made safe,
    [escape_ajax(safe_url_string(url))], and raises when it cannot build the
    request, [ValueError] for a URL without a scheme.  Scrapy is not among
    the sources at hand: what the constructor stores or raises for a URL is
    a parameter of the development. *)
Variable request_url_for : str -> result str.

(** [scrapy.Request(url=url, callback=cb, priority=prio, meta=m)] *)
Definition scrapy_Request (url : str) (cb : Callback) (prio : Z) (m : Meta)
    : result Request :=
  url ← request_url_for url;
  mret {| request_url := url; request_callback := cb;
          request_priority := prio; request_meta := m |}.

(** [ProbabilityRequest.to_scrapy(callback=, priority=, meta=)], which
    hands the candidate's URL to [scrapy.Request]. *)
Definition to_scrapy (request : ProbabilityRequest) (cb : Callback)
    (prio : Z) (m : Meta) : result Request :=
  scrapy_Request (url request) cb prio m.

(** ** The requests the spider builds *)

(** [d or {}] for an optional dictionary. *)
Definition or_empty_dict (d : option (gmap string str)) : gmap string str :=
  match d with
  | Some m => if bool_decide (m = ∅) then ∅ else m
  | None => ∅
  end.

(** [s or ""] for an optional string. *)
Definition or_empty_str (s : option str) : str :=
  match s with
  | Some (c :: t) => c :: t
  | Some [] | None => []
  end.

Definition heuristics_marker : str := lit "[heuristics]".

(** [hasattr(request, "metadata")] holds of every [ProbabilityRequest];
    a metadata object is truthy, so [not request.metadata] is
    [request.metadata is None]. *)
Definition get_parse_navigation_request_priority
    (request : ProbabilityRequest) : result Z :=
  match metadata request with
  | None => Ok 0
  | Some md =>
      match probability md with
      | None => Ok 0
      | Some p => py_int (mul100 (PyFloat p))
      end
  end.

Definition get_parse_navigation_request (request : ProbabilityRequest)
    (callback : option Callback) (page_params : option (gmap string str))
    (priority : option Z) (page_type : string) : result Request :=
  let callback := default parse_navigation_callback callback in
  prio ← match priority with
         | Some n =>
             if bool_decide (n = 0)
             then get_parse_navigation_request_priority request
             else Ok n
         | None => get_parse_navigation_request_priority request
         end;
  to_scrapy request callback prio
    {| meta_page_params := Some (or_empty_dict page_params);
       meta_crawling_logs :=
         LinkLogs (Some (or_empty_str (name request)))
                  (get_probability request) page_type;
       meta_allow_offsite := None |}.

(** [get_subcategory_request] assigns to [request.name] before it builds the
    request: the candidate is returned as the call leaves it. *)
Definition get_subcategory_request (request : ProbabilityRequest)
    (callback : option Callback) (page_params : option (gmap string str))
    (priority : option Z) : ProbabilityRequest * result Request :=
  let request_name := or_empty_str (name request) in
  if negb (contains heuristics_marker request_name)
  then
    (request,
     get_parse_navigation_request request callback None priority
       "subCategories")
  else
    let request :=
      {| url := url request;
         name := Some (strip (replace heuristics_marker [] request_name));
         metadata := metadata request |} in
    (request,
     get_parse_navigation_request request callback page_params priority
       "productNavigation-heuristics").

Definition get_nextpage_request (request : ProbabilityRequest)
    (callback : option Callback) (page_params : option (gmap string str))
    : result Request :=
  get_parse_navigation_request request callback page_params
    (Some NEXT_PAGE_PRIORITY) "nextPage".

Definition get_parse_product_request_priority
    (request : ProbabilityRequest) : result Z :=
  let probability :=
    match get_probability request with
    | Some p => if float_truthy p then PyFloat p else PyInt 0
    | None => PyInt 0
    end in
  n ← py_int (mul100 probability);
  mret (n + NEXT_PAGE_PRIORITY).

Definition get_parse_product_request (request : ProbabilityRequest)
    (callback : option Callback) : result Request :=
  let callback := default parse_product_callback callback in
  priority ← get_parse_product_request_priority request;
  let probability := get_probability request in
  scrapy_request ←
    to_scrapy request callback priority
      {| meta_page_params := None;
         meta_crawling_logs := LinkLogs (name request) probability "product";
         meta_allow_offsite := None |};
  mret (set_allow_offsite true scrapy_request).

(** ** The callbacks *)

(** [start_requests]: [page_params] is computed before the first URL is
    looked at, so an empty [allowed_domains] under [full] raises before
    anything is yielded; then one request is built and yielded per start
    URL, until Scrapy refuses one. *)
Definition start_requests (self : Spider) : Generator Request :=
  fun w =>
    match (if bool_decide (crawl_strategy self = full)
           then match allowed_domains self with
                | domain :: _ => Ok {[ "full_domain"%string := domain ]}
                | [] => Raise IndexError
                end
           else Ok ∅) with
    | Raise e => {| yielded := []; raised := Some e; world := w |}
    | Ok page_params =>
        for_in (start_urls self) (fun url =>
          yield (scrapy_Request url parse_navigation_callback 0
                   {| meta_page_params := Some page_params;
                      meta_crawling_logs := StartLogs "productNavigation";
                      meta_allow_offsite := None |})) w
    end.

Definition parse_navigation (self : Spider) (response : DummyResponse)
    (navigation : ProductNavigation) : Generator Request :=
  let page_params := meta_page_params (response_meta response) in
  let products := default [] (items navigation) in
  for_in products (fun request =>
    yield (get_parse_product_request request None)) >>
  match nextPage navigation with
  | Some next =>
      match products with
      | [] => exec (info (IgnoringNextPage next (nav_url navigation)))
      | _ :: _ => yield (get_nextpage_request next None None)
      end
  | None => pass
  end >>
  if bool_decide (crawl_strategy self ≠ pagination_only)
  then
    for_in (default [] (subCategories navigation)) (fun request =>
      yield (get_subcategory_request request None page_params None).2)
  else pass.

Definition parse_product (self : Spider) (response : DummyResponse)
    (product : Product) : Generator Product :=
  let probability := product_get_probability product in
  if match probability with
     | None => true
     | Some p => (threshold <=? p)%float
     end
  then yield (Ok product)
  else
    exec (inc_value "drop_item/product/low_probability") >>
    exec (info (IgnoringItem (response_url response) product)).

(** ** The crawl *)

(** The requests a crawl can issue: the start requests yielded, and whatever
    [parse_navigation] yields for a response to an issued request that is
    routed to it.  The response carries the [meta] of its request; the page
    content, and so the navigation extracted from it, is arbitrary. *)
Inductive crawled (self : Spider) : Request -> Prop :=
| crawled_start w request :
    request ∈ yielded (start_requests self w) ->
    crawled self request
| crawled_link parent response navigation w request :
    crawled self parent ->
    request_callback parent = parse_navigation_callback ->
    response_meta response = request_meta parent ->
    request ∈ yielded (parse_navigation self response navigation w) ->
    crawled self request.

(** ** The notions the specification speaks of *)

(** The page-type tag of a request. *)
Definition page_type (request : Request) : string :=
  page_type_of (meta_crawling_logs (request_meta request)).

(** The [PageParams] a request carries under [meta]. *)
Definition carried_params (request : Request) : option (gmap string str) :=
  meta_page_params (request_meta request).

(** A subcategory request, plain or heuristic. *)
Definition is_subcategory (request : Request) : bool :=
  bool_decide (page_type request = "subCategories"%string)
  || bool_decide (page_type request = "productNavigation-heuristics"%string).

Definition is_nextpage (request : Request) : bool :=
  bool_decide (page_type request = "nextPage"%string).

(** The data model's probabilities: floats between 0 and 1. *)
Definition is_probability (p : float) : bool :=
  ((0 <=? p)%float && (p <=? 1)%float)%bool.

(** A candidate of the data model: its probability, when it has one, is a
    probability. *)
Definition well_formed (request : ProbabilityRequest) : bool :=
  match get_probability request with
  | Some p => is_probability p
  | None => true
  end.

(** The rational a finite float denotes. *)
Definition SF2Q (x : spec_float) : option Q :=
  match x with
  | S754_zero _ => Some 0%Q
  | S754_finite s m e => Some (inject_Z (cond_Zopp s (Z.pos m)) * 2 ^ e)%Q
  | S754_infinity _ | S754_nan => None
  end.

Definition SFfloor (x : spec_float) : option Z := Qfloor <$> SF2Q x.

(** The floor of the number a float denotes. *)
Definition float_floor (f : float) : option Z := SFfloor (Prim2SF f).

(** Scrapy builds a request for the URL. *)
Definition accepted (url : str) : bool :=
  match request_url_for url with
  | Ok _ => true
  | Raise _ => false
  end.

(** A link the spider can follow: a candidate of the data model whose URL
    Scrapy accepts. *)
Definition followable (request : ProbabilityRequest) : bool :=
  well_formed request && accepted (url request).

(** The floor of [100 * p] for the number [p] a float denotes, the product
    being the exact one. *)
Definition exact_floor100 (p : float) : option Z :=
  (fun q => Qfloor (100 * q)) <$> SF2Q (Prim2SF p).

(** A request carries empty parameters, or none at all. *)
Definition no_params (r : Request) : Prop :=
  carried_params r = None \/ carried_params r = Some ∅.

(** Deleting the occurrences of [old] met from left to right, as the
    specification's "marker stripped" reads: at an occurrence the scan
    drops it and goes on behind it, elsewhere it keeps the character. *)
Inductive removed (old : str) : str -> str -> Prop :=
| removed_end : removed old [] []
| removed_occurrence s t :
    s <> [] -> startswith old s = true ->
    removed old (drop (length old) s) t ->
    removed old s t
| removed_keep c s t :
    startswith old (c :: s) = false ->
    removed old s t ->
    removed old (c :: s) (c :: t).

(** ** Auxiliary definitions: rounding in binary64 *)

(** Where a remainder [rem] of a division by [2^n] lies with respect to
    the midpoint. *)
Definition loc_of (rem n : Z) : location :=
  if rem =? 0 then loc_Exact else loc_Inexact (2 * rem ?= 2 ^ n).

(** [mrs] is [m] shifted right by [n] bits, with its round and sticky bits. *)
Record shifted (m n : Z) (mrs : shr_record) : Prop := {
  sh_nonneg : 0 <= shr_m mrs;
  sh_lo : shr_m mrs * 2 ^ n <= m;
  sh_hi : m < (shr_m mrs + 1) * 2 ^ n;
  sh_loc : loc_of_shr_record mrs = loc_of (m - shr_m mrs * 2 ^ n) n;
}.

(** [m / 2^n] rounded to the nearest integer, ties to even. *)
Definition rne (m n : Z) : Z :=
  round_nearest_even (m / 2 ^ n) (loc_of (m mod 2 ^ n) n).

(** The float of significand [k <= 2^53] and exponent [E]. *)
Definition pack (k E : Z) : spec_float :=
  if k =? 2 ^ 53 then S754_finite false 4503599627370496 (E + 1)
  else match k with
       | Z.pos q => S754_finite false q E
       | _ => S754_zero false
       end.

(** The exponent of the binary64 numbers whose magnitude has its leading
    bit at position [d]. *)
Definition fexp64 (d : Z) : Z := Z.max (d - 53) (-1074).

(** The significand of [100.0]. *)
Definition M100 : positive := 7036874417766400.

(** The exponent of the product of [100.0] and the float of significand [m]
    and exponent [e]. *)
Definition E100 (m : positive) (e : Z) : Z :=
  fexp64 (Z.pos (digits2_pos (M100 * m)) + (-46 + e)).

(** [int(100 * x)] for the float [x] of significand [m] and exponent [e]. *)
Definition scale100 (m : positive) (e : Z) : Z :=
  rne (Z.pos (M100 * m)) (E100 m e - (-46 + e)) / 2 ^ (- E100 m e).

(** ** Examples *)

(** The shop of the examples. *)
Definition shop_domain : str := lit "shop.example".
Definition shop_url : str := lit "https://shop.example/".

Definition shop (strategy : EcommerceCrawlStrategy) : Spider :=
  {| crawl_strategy := strategy;
     start_urls := [shop_url];
     allowed_domains := [shop_domain] |}.

Definition candidate (link label : string) (p : option float)
    : ProbabilityRequest :=
  {| url := lit link;
     name := Some (lit label);
     metadata := Some {| probability := p |} |}.

(** The response to the start request of [shop strategy]. *)
Definition start_response (strategy : EcommerceCrawlStrategy) : DummyResponse :=
  {| response_url := shop_url;
     response_meta :=
       {| meta_page_params :=
            Some (if bool_decide (strategy = full)
                  then {[ "full_domain"%string := shop_domain ]} else ∅);
          meta_crawling_logs := StartLogs "productNavigation";
          meta_allow_offsite := None |} |}.

Definition fresh_world : World := {| stats := ∅; logged := [] |}.

(** The probabilities [0.8], [0.05] and [0.0999] as binary64 numbers. *)
Definition prob_0_8 : float := 0x1.999999999999ap-1%float.
Definition prob_0_05 : float := 0x1.999999999999ap-5%float.
Definition prob_0_0999 : float := 0x1.9930be0ded289p-4%float.

(** The binary64 number nearest to [0.35]; it lies below [0.35]. *)
Definition prob_0_35 : float := 0x1.6666666666666p-2%float.

(** A listing page: two product links, a next-page link, a plain
    subcategory link and a heuristic one. *)
Definition listing_navigation : ProductNavigation :=
  {| nav_url := shop_url;
     items :=
       Some [candidate "https://shop.example/p/1" "Boot" (Some prob_0_8);
             candidate "https://shop.example/p/2" "Lace" (Some prob_0_05)];
     nextPage := Some (candidate "https://shop.example/?page=2" "Next" None);
     subCategories :=
       Some [candidate "https://shop.example/shoes" "Shoes" None;
             candidate "https://shop.example/hats" "[heuristics] Hats"
               (Some 0.5%float)] |}.

(** A page without product links that still has a next-page link. *)
Definition empty_listing_navigation : ProductNavigation :=
  {| nav_url := shop_url;
     items := Some [];
     nextPage := Some (candidate "https://shop.example/?page=9" "Next" None);
     subCategories := None |}.

Definition plain_navigation : ProductNavigation :=
  {| nav_url := shop_url;
     items := None;
     nextPage := None;
     subCategories :=
       Some [candidate "https://shop.example/shoes" "Shoes" None] |}.

Definition heuristic_navigation : ProductNavigation :=
  {| nav_url := shop_url;
     items := None;
     nextPage := None;
     subCategories :=
       Some [candidate "https://shop.example/shoes" "[heuristics] Shoes"
               None] |}.

(** ** The parameters

    The validators of [params.py] and of the parameter classes of the
    spiders, and [from_crawler], which turns the parameters into the
    spider's configuration. *)

Definition newline : N := 10.

(** [s.split(sep)] for a separator [sep] of one character. *)
Fixpoint str_split (sep : N) (s : str) : list str :=
  match s with
  | [] => [[]]
  | c :: s' =>
      if (c =? sep)%N then [] :: str_split sep s'
      else match str_split sep s' with
           | piece :: pieces => (c :: piece) :: pieces
           | [] => [[c]]
           end
  end.

(** [sep.join(pieces)] *)
Fixpoint str_join (sep : str) (pieces : list str) : str :=
  match pieces with
  | [] => []
  | [piece] => piece
  | piece :: rest => piece ++ sep ++ str_join sep rest
  end.

(** The number of occurrences of a character: [s.count(c)]. *)
Definition str_count (c : N) (s : str) : nat :=
  length (List.filter (fun a => (a =? c)%N) s).

(** What a validator of [urls] that runs before parsing is handed: a string
    or a list of strings. *)
Inductive UrlsValue :=
| UrlsText (text : str)
| UrlsList (lines : list str).

(** [ExperimentalEcommerceSpiderParams.split_lines] *)
Definition split_lines (value : UrlsValue) : list str :=
  match value with
  | UrlsText text => str_split newline text
  | UrlsList lines => lines
  end.

Section UrlPattern.

(** [re.search(_URL_PATTERN, v)] finds a match; the pattern is declared in
    [utils.py]. *)
Variable matches_url_pattern : str -> bool.

(** One turn of the loop of [validate_url_list], on the URLs kept and the
    warnings logged so far. *)
Definition validate_url_step (state : list str * list str) (v : str)
    : list str * list str :=
  let '(result, warnings) := state in
  let v := strip v in
  match v with
  | [] => (result, warnings)
  | _ :: _ =>
      if negb (matches_url_pattern v)
      then (result, warnings ++ [v])
      else (result ++ [v], warnings)
  end.

(** [UrlsParam.validate_url_list] and [UIFunkSpiderParams.validate_url_list]:
    what is returned or raised, and the lines warned about.  [None] is the
    value of a field that was not given. *)
Definition validate_url_list (value : option UrlsValue)
    : result (option (list str)) * list str :=
  match value with
  | None => (Ok None, [])
  | Some value =>
      let value := match value with
                   | UrlsText text => str_split newline text
                   | UrlsList lines => lines
                   end in
      match value with
      | [] => (Ok (Some []), [])
      | _ :: _ =>
          let '(result, warnings) :=
            fold_left validate_url_step value ([], []) in
          (match result with
           | [] => Raise ValueError
           | _ :: _ => Ok (Some result)
           end, warnings)
      end
  end.

End UrlPattern.

(** The input parameters of a model, as [getattr(model, field, None)] gives
    them: [None] is an attribute that is missing or [None]. *)
Record InputModel := {
  model_url : option str;
  model_urls : option (list str);
  model_urls_file : option str;
}.

Definition INPUT_GROUP_FIELDS : list string :=
  ["url"; "urls"; "urls_file"]%string.

(** [bool(getattr(model, field, None))] *)
Definition has_input (model : InputModel) (field : string) : bool :=
  if bool_decide (field = "url"%string)
  then match model_url model with Some (_ :: _) => true | _ => false end
  else if bool_decide (field = "urls"%string)
  then match model_urls model with Some (_ :: _) => true | _ => false end
  else if bool_decide (field = "urls_file"%string)
  then match model_urls_file model with Some (_ :: _) => true | _ => false end
  else false.

(** [validate_input_group]; the messages of the errors are left out. *)
Definition validate_input_group (model : InputModel) : result InputModel :=
  let input_fields : gset string :=
    list_to_set (List.filter (has_input model) INPUT_GROUP_FIELDS) in
  if bool_decide (input_fields = ∅) then Raise ValueError
  else if bool_decide (1 < size input_fields)%nat then Raise ValueError
  else Ok model.

(** [params.ExtractFrom] *)
Inductive ExtractFrom := httpResponseBody | browserHtml.

(** A value of the [ZYTE_API_PROVIDER_PARAMS] dictionary: the dictionary
    [{"extractFrom": e}], or anything else. *)
Inductive ParamValue :=
| ExtractFromOptions (e : ExtractFrom)
| OtherValue (json : string).

(** What [from_crawler] reads of [spider.args].  [args_url] is
    [getattr(spider.args, "url", None)]; [args_urls] is [spider.args.urls],
    read only when the former is missing or empty and taken to hold a list,
    as it does for [ExperimentalEcommerceSpiderParams]. *)
Record Args := {
  args_url : option str;
  args_urls : list str;
  args_crawl_strategy : EcommerceCrawlStrategy;
  args_extract_from : option ExtractFrom;
}.

(** A call [spider.settings.set(name, value, priority=priority)]. *)
Record SettingsUpdate := {
  setting_name : string;
  setting_value : gmap string ParamValue;
  setting_priority : Z;
}.

Section FromCrawler.

(** [utils.get_domain] and [base.ARG_SETTING_PRIORITY], both declared
    outside the files at hand. *)
Variable get_domain : str -> str.
Variable ARG_SETTING_PRIORITY : Z.

(** [EcommerceSpider.from_crawler]: the spider it returns and the setting it
    writes, if any.  [provider_params] is the [ZYTE_API_PROVIDER_PARAMS]
    setting as the crawler has it, [None] when it is not set. *)
Definition from_crawler (args : Args)
    (provider_params : option (gmap string ParamValue))
    : Spider * option SettingsUpdate :=
  let start_urls :=
    match args_url args with
    | Some (c :: url) => [c :: url]
    | Some [] | None => args_urls args
    end in
  let allowed_domains := get_domain <$> start_urls in
  ({| crawl_strategy := args_crawl_strategy args;
      start_urls := start_urls;
      allowed_domains := allowed_domains |},
   match args_extract_from args with
   | Some extract_from =>
       Some {| setting_name := "ZYTE_API_PROVIDER_PARAMS";
               setting_value :=
                 default ∅ provider_params
                 ∪ {[ "productOptions"%string :=
                        ExtractFromOptions extract_from;
                      "productNavigationOptions"%string :=
                        ExtractFromOptions extract_from ]};
               setting_priority := ARG_SETTING_PRIORITY |}
   | None => None
   end).

End FromCrawler.

(** ** More notions *)

(** The tag [get_subcategory_request] gives a candidate. *)
Definition subcategory_tag (request : ProbabilityRequest) : string :=
  if contains heuristics_marker (or_empty_str (name request))
  then "productNavigation-heuristics"%string
  else "subCategories"%string.

(** The links of a navigation result that [parse_navigation] follows under
    a strategy, in the order it follows them. *)
Definition followed_links (strategy : EcommerceCrawlStrategy)
    (navigation : ProductNavigation) : list ProbabilityRequest :=
  default [] (items navigation)
  ++ match nextPage navigation, default [] (items navigation) with
     | Some next, _ :: _ => [next]
     | _, _ => []
     end
  ++ (if bool_decide (strategy <> pagination_only)
      then default [] (subCategories navigation) else []).

(** The tag of the request for the link at a position of [followed_links]. *)
Definition followed_tags (strategy : EcommerceCrawlStrategy)
    (navigation : ProductNavigation) : list string :=
  ((fun _ => "product"%string) <$> default [] (items navigation))
  ++ match nextPage navigation, default [] (items navigation) with
     | Some next, _ :: _ => ["nextPage"%string]
     | _, _ => []
     end
  ++ (if bool_decide (strategy <> pagination_only)
      then subcategory_tag <$> default [] (subCategories navigation)
      else []).

(** The value of the counter of dropped products. *)
Definition dropped (w : World) : Z :=
  default 0 (stats w !! "drop_item/product/low_probability"%string).

(** The product callback run on a batch of responses, one after the other. *)
Definition parse_products (self : Spider)
    (batch : list (DummyResponse * Product)) : Generator Product :=
  for_in batch (fun '(response, product) =>
    parse_product self response product).

(** A stand-in for the URL pattern: the line starts with [http]. *)
Definition example_pattern : str -> bool := startswith (lit "http").

(** Four lines: a URL between spaces, a blank line, a line that is no URL
    and a second URL. *)
Definition example_urls : UrlsValue :=
  UrlsText (lit " https://a.example  " ++ [newline]
            ++ lit "   " ++ [newline]
            ++ lit "ftp://d.example" ++ [newline]
            ++ lit "http://b.example/c").

(** The request for the plain subcategory link of [plain_navigation], and
    the response to it. *)
Definition shoes_request : Request :=
  {| request_url := lit "https://shop.example/shoes";
     request_callback := parse_navigation_callback;
     request_priority := 0;
     request_meta :=
       {| meta_page_params := Some ∅;
          meta_crawling_logs :=
            LinkLogs (Some (lit "Shoes")) None "subCategories";
          meta_allow_offsite := None |} |}.

Definition shoes_response : DummyResponse :=
  {| response_url := lit "https://shop.example/shoes";
     response_meta := request_meta shoes_request |}.

(** A listing page whose second product link has a probability that is no
    number. *)
Definition broken_navigation : ProductNavigation :=
  {| nav_url := shop_url;
     items :=
       Some [candidate "https://shop.example/p/1" "Boot" (Some prob_0_8);
             candidate "https://shop.example/p/3" "Sock" (Some nan);
             candidate "https://shop.example/p/2" "Lace" (Some prob_0_05)];
     nextPage := Some (candidate "https://shop.example/?page=2" "Next" None);
     subCategories :=
       Some [candidate "https://shop.example/shoes" "Shoes" None] |}.

(** * Binary64: the product with [100.0] and its truncation

    [SpecFloat] rounds a product by shifting its exact significand to the
    right, bit by bit, while it records a round and a sticky bit.  The
    lemmas below turn that into arithmetic on [Z]: the shift is a division
    by a power of two, the two bits say where the remainder lies, and the
    rounded product of [100.0] and a probability is [pack] of an explicit
    significand and exponent.  Monotonicity and the absence of overflow
    follow from that form. *)

Lemma iter_pos_nat {A} (f : A -> A) p x :
  SpecFloat.iter_pos f p x = Nat.iter (Pos.to_nat p) f x.
Proof.
  revert x; induction p as [p IH|p IH|]; intros x; cbn [SpecFloat.iter_pos].
  - rewrite !IH, Pos2Nat.inj_xI.
    replace (S (2 * Pos.to_nat p))
      with (Pos.to_nat p + S (Pos.to_nat p))%nat by lia.
    rewrite Nat.iter_add. now rewrite Nat.iter_succ_r.
  - rewrite !IH, Pos2Nat.inj_xO.
    replace (2 * Pos.to_nat p)%nat
      with (Pos.to_nat p + Pos.to_nat p)%nat by lia.
    now rewrite Nat.iter_add.
  - reflexivity.
Qed.

Lemma loc_of_spec rem n :
  match loc_of rem n with
  | loc_Exact => rem = 0
  | loc_Inexact Lt => rem <> 0 /\ 2 * rem < 2 ^ n
  | loc_Inexact Eq => rem <> 0 /\ 2 * rem = 2 ^ n
  | loc_Inexact Gt => rem <> 0 /\ 2 * rem > 2 ^ n
  end.
Proof.
  unfold loc_of. destruct (Z.eqb_spec rem 0) as [|Hne]; [assumption|].
  destruct (Z.compare_spec (2 * rem) (2 ^ n)); split; lia.
Qed.

Lemma loc_of_intro rem n l :
  match l with
  | loc_Exact => rem = 0
  | loc_Inexact Lt => rem <> 0 /\ 2 * rem < 2 ^ n
  | loc_Inexact Eq => rem <> 0 /\ 2 * rem = 2 ^ n
  | loc_Inexact Gt => rem <> 0 /\ 2 * rem > 2 ^ n
  end -> l = loc_of rem n.
Proof.
  unfold loc_of. destruct l as [|[]]; intros H.
  - subst. reflexivity.
  - destruct H as [H1 H2]. destruct (Z.eqb_spec rem 0); [lia|].
    f_equal. symmetry. apply Z.compare_eq_iff. lia.
  - destruct H as [H1 H2]. destruct (Z.eqb_spec rem 0); [lia|].
    f_equal. symmetry. apply Z.compare_lt_iff. lia.
  - destruct H as [H1 H2]. destruct (Z.eqb_spec rem 0); [lia|].
    f_equal. symmetry. apply Z.compare_gt_iff. lia.
Qed.

(** [shr_1] keeps the invariant [shifted]. *)
Lemma shifted_0 m :
  0 <= m -> shifted m 0 {| shr_m := m; shr_r := false; shr_s := false |}.
Proof.
  intros Hm.
  split; cbv beta iota delta [shr_m loc_of_shr_record]; rewrite ?Z.pow_0_r;
    try lia.
  apply loc_of_intro. lia.
Qed.

Lemma shifted_step m n mrs :
  0 <= n -> shifted m n mrs -> shifted m (n + 1) (shr_1 mrs).
Proof.
  intros Hn [H0 Hlo Hhi Hloc].
  assert (HP : 0 < 2 ^ n) by (apply Z.pow_pos_nonneg; lia).
  assert (E : 2 ^ (n + 1) = 2 * 2 ^ n) by (rewrite Z.pow_add_r, Z.pow_1_r; lia).
  pose proof (loc_of_spec (m - shr_m mrs * 2 ^ n) n) as Hs.
  rewrite <- Hloc in Hs. clear Hloc.
  destruct mrs as [k r s].
  cbv beta iota delta [shr_m shr_r shr_s] in *.
  set (P := 2 ^ n) in *.
  destruct k as [|[q|q|]|]; try lia;
  destruct r, s; cbv beta iota delta [loc_of_shr_record] in Hs;
  (split;
   cbv beta iota zeta delta
     [shr_1 shr_m shr_r shr_s orb loc_of_shr_record];
   [lia | rewrite E; lia | rewrite E; lia
   | apply loc_of_intro; rewrite E; lia ]).
Qed.

Lemma shifted_iter m n :
  0 <= m ->
  shifted m (Z.of_nat n)
    (Nat.iter n shr_1 {| shr_m := m; shr_r := false; shr_s := false |}).
Proof.
  intros Hm. induction n as [|n IH].
  - now apply shifted_0.
  - rewrite Nat2Z.inj_succ, <- Z.add_1_r. cbn [Nat.iter nat_rect].
    apply shifted_step; [lia | exact IH].
Qed.

(** [shr] by [n >= 0] bits on an exact significand. *)
Lemma shr_exact m e n :
  0 <= m -> 0 <= n ->
  exists mrs,
    shr {| shr_m := m; shr_r := false; shr_s := false |} e n = (mrs, e + n)
    /\ shifted m n mrs.
Proof.
  intros Hm Hn. destruct n as [|p|p]; try lia.
  - eexists; split; [cbn [shr]; f_equal; lia | now apply shifted_0].
  - eexists; split; [reflexivity|].
    rewrite iter_pos_nat, <- (positive_nat_Z p). now apply shifted_iter.
Qed.

Lemma shr_none mrs e n : n <= 0 -> shr mrs e n = (mrs, e).
Proof. destruct n; [reflexivity | lia | reflexivity]. Qed.

Lemma shifted_div m n mrs : 0 <= n -> shifted m n mrs -> shr_m mrs = m / 2 ^ n.
Proof.
  intros Hn [H0 Hlo Hhi _].
  assert (0 < 2 ^ n) by (apply Z.pow_pos_nonneg; lia).
  apply Z.div_unique with (r := m - shr_m mrs * 2 ^ n); lia.
Qed.

(** [digits2_pos p] is the number of bits of [p]. *)
Lemma digits2_pos_bounds p :
  2 ^ (Z.pos (digits2_pos p) - 1) <= Z.pos p < 2 ^ Z.pos (digits2_pos p).
Proof.
  induction p as [p IH|p IH|]; cbn [digits2_pos];
    rewrite ?Pos2Z.inj_succ;
    rewrite ?Z.pow_succ_r by lia;
    try (replace (Z.succ (Z.pos (digits2_pos p)) - 1)
           with (Z.succ (Z.pos (digits2_pos p) - 1)) by lia;
         rewrite Z.pow_succ_r by lia);
    try lia.
Qed.

Lemma fexp64_eq d : fexp prec emax d = fexp64 d.
Proof. reflexivity. Qed.

Lemma rne_bounds m n : 0 <= m -> 0 <= n -> m / 2 ^ n <= rne m n <= m / 2 ^ n + 1.
Proof.
  intros Hm Hn. unfold rne, round_nearest_even.
  destruct (loc_of _ _) as [|[]]; try lia.
  destruct (Z.even _); lia.
Qed.

(** The rounding of an exact positive product whose significand has to be
    shifted to the right, and which does not overflow. *)
Lemma binary_round_aux_exact mx ex :
  let E := fexp64 (Z.pos (digits2_pos mx) + ex) in
  ex <= E -> E + 1 <= 971 ->
  binary_round_aux prec emax false (Z.pos mx) ex loc_Exact
  = pack (rne (Z.pos mx) (E - ex)) E.
Proof.
  intros E Hn Hmax.
  pose proof (digits2_pos_bounds mx) as Hd.
  unfold binary_round_aux, shr_fexp.
  cbn [shr_record_of_loc Zdigits2]. rewrite fexp64_eq. fold E.
  assert (HE : -1074 <= E /\ Z.pos (digits2_pos mx) + ex - 53 <= E)
    by (subst E; unfold fexp64; lia).
  clearbody E.
  set (d := Z.pos (digits2_pos mx)) in *. clearbody d.
  destruct (shr_exact (Z.pos mx) ex (E - ex)) as (mrs & -> & Hsh); [lia..|].
  replace (ex + (E - ex)) with E by lia.
  assert (Hk : shr_m mrs = Z.pos mx / 2 ^ (E - ex))
    by (apply shifted_div; [lia|exact Hsh]).
  assert (Hrne : round_nearest_even (shr_m mrs) (loc_of_shr_record mrs)
                 = rne (Z.pos mx) (E - ex)).
  { unfold rne. rewrite (sh_loc _ _ _ Hsh), Hk. do 2 f_equal.
    rewrite Z.mod_eq by (apply Z.pow_nonzero; lia). lia. }
  rewrite Hrne.
  pose proof (rne_bounds (Z.pos mx) (E - ex) ltac:(lia) ltac:(lia)) as Hb.
  assert (Hlt : Z.pos mx / 2 ^ (E - ex) < 2 ^ 53).
  { apply Z.div_lt_upper_bound; [apply Z.pow_pos_nonneg; lia|].
    rewrite <- Z.pow_add_r by lia.
    eapply Z.lt_le_trans; [apply Hd|]. apply Z.pow_le_mono_r; lia. }
  assert (H0 : 0 <= Z.pos mx / 2 ^ (E - ex))
    by (apply Z.div_pos; [lia|apply Z.pow_pos_nonneg; lia]).
  set (k := rne (Z.pos mx) (E - ex)) in *.
  unfold pack. destruct (Z.eqb_spec k (2 ^ 53)) as [Hk53|Hk53].
  - rewrite Hk53. cbn [Zdigits2].
    change (Zdigits2 (2 ^ 53)) with 54. rewrite fexp64_eq.
    replace (fexp64 (54 + E) - E) with 1 by (unfold fexp64; lia).
    cbn [shr SpecFloat.iter_pos]. change (2 ^ 53) with (Z.pos (2 ^ 53)).
    cbv beta iota zeta delta [shr_1 shr_m].
    replace (E + 1 <=? emax - prec) with true; [reflexivity|].
    symmetry. apply Z.leb_le. change (emax - prec) with 971. lia.
  - destruct k as [|q|q]; try lia.
    + cbn [Zdigits2]. rewrite fexp64_eq, shr_none by (unfold fexp64; lia).
      reflexivity.
    + pose proof (digits2_pos_bounds q) as Hq.
      assert (Z.pos (digits2_pos q) <= 53).
      { destruct (Z.le_gt_cases (Z.pos (digits2_pos q)) 53) as [|Hgt];
          [assumption|].
        exfalso.
        assert (2 ^ 53 <= 2 ^ (Z.pos (digits2_pos q) - 1))
          by (apply Z.pow_le_mono_r; lia).
        lia. }
      cbn [Zdigits2]. rewrite fexp64_eq, shr_none by (unfold fexp64; lia).
      cbn [shr_m].
      replace (E <=? emax - prec) with true; [reflexivity|].
      symmetry. apply Z.leb_le. change (emax - prec) with 971. lia.
Qed.

Lemma rne_le_pow m n d :
  0 <= m -> 0 <= n -> m < 2 ^ d -> d - 53 <= n -> rne m n <= 2 ^ 53.
Proof.
  intros Hm Hn Hd Hdn.
  pose proof (rne_bounds m n Hm Hn) as Hb.
  assert (m / 2 ^ n < 2 ^ 53); [|lia].
  apply Z.div_lt_upper_bound; [apply Z.pow_pos_nonneg; lia|].
  rewrite <- Z.pow_add_r by lia.
  destruct (Z.le_gt_cases 0 d) as [H0|H0].
  - eapply Z.lt_le_trans; [apply Hd|]. apply Z.pow_le_mono_r; lia.
  - rewrite Z.pow_neg_r in Hd by lia. lia.
Qed.

(** Rounding to nearest is monotone: [m1 / 2^n1 <= m2 / 2^n2], written
    without the divisions. *)
Lemma rne_mono m1 n1 m2 n2 :
  0 <= m1 -> 0 <= m2 -> 0 <= n1 -> 0 <= n2 ->
  m1 * 2 ^ n2 <= m2 * 2 ^ n1 -> rne m1 n1 <= rne m2 n2.
Proof.
  intros Hm1 Hm2 Hn1 Hn2 Hle.
  assert (HP1 : 0 < 2 ^ n1) by (apply Z.pow_pos_nonneg; lia).
  assert (HP2 : 0 < 2 ^ n2) by (apply Z.pow_pos_nonneg; lia).
  pose proof (rne_bounds m1 n1 Hm1 Hn1) as Hb1.
  pose proof (rne_bounds m2 n2 Hm2 Hn2) as Hb2.
  pose proof (Z.div_mod m1 (2 ^ n1) ltac:(lia)) as D1.
  pose proof (Z.div_mod m2 (2 ^ n2) ltac:(lia)) as D2.
  pose proof (Z.mod_pos_bound m1 (2 ^ n1) HP1) as R1.
  pose proof (Z.mod_pos_bound m2 (2 ^ n2) HP2) as R2.
  assert (Hq : m1 / 2 ^ n1 <= m2 / 2 ^ n2).
  { destruct (Z.le_gt_cases (m1 / 2 ^ n1) (m2 / 2 ^ n2)) as [|Hgt]; [assumption|].
    exfalso.
    assert (2 ^ n1 * (m2 / 2 ^ n2 + 1) * 2 ^ n2 <= m1 * 2 ^ n2)
      by (apply Z.mul_le_mono_nonneg_r; nia).
    assert (m2 * 2 ^ n1 < 2 ^ n2 * (m2 / 2 ^ n2 + 1) * 2 ^ n1)
      by (apply Z.mul_lt_mono_pos_r; lia).
    lia. }
  destruct (Z.eq_dec (m1 / 2 ^ n1) (m2 / 2 ^ n2)) as [Heq|Hne]; [|lia].
  unfold rne in *. rewrite <- Heq in *.
  pose proof (loc_of_spec (m1 mod 2 ^ n1) n1) as L1.
  pose proof (loc_of_spec (m2 mod 2 ^ n2) n2) as L2.
  set (q := m1 / 2 ^ n1) in *.
  set (r1 := m1 mod 2 ^ n1) in *. set (r2 := m2 mod 2 ^ n2) in *.
  set (P1 := 2 ^ n1) in *. set (P2 := 2 ^ n2) in *.
  assert (Hr : r1 * P2 <= r2 * P1) by lia.
  assert (Hup : P1 <= 2 * r1 -> P2 <= 2 * r2).
  { intros H. destruct (Z.le_gt_cases P2 (2 * r2)) as [|Hgt]; [assumption|].
    exfalso.
    assert (P1 * P2 <= 2 * r1 * P2) by (apply Z.mul_le_mono_nonneg_r; lia).
    assert (2 * r2 * P1 < P2 * P1) by (apply Z.mul_lt_mono_pos_r; lia).
    lia. }
  assert (Hup' : P1 < 2 * r1 -> P2 < 2 * r2).
  { intros H. destruct (Z.lt_ge_cases P2 (2 * r2)) as [|Hge]; [assumption|].
    exfalso.
    assert (P1 * P2 < 2 * r1 * P2) by (apply Z.mul_lt_mono_pos_r; lia).
    assert (2 * r2 * P1 <= P2 * P1) by (apply Z.mul_le_mono_nonneg_r; lia).
    lia. }
  destruct (loc_of r1 n1) as [|[]], (loc_of r2 n2) as [|[]];
    cbn [round_nearest_even]; try destruct (Z.even q); lia.
Qed.

Lemma Prim2SF_100 : Prim2SF 100 = S754_finite false M100 (-46).
Proof. reflexivity. Qed.

Lemma Prim2SF_1 : Prim2SF 1 = S754_finite false 4503599627370496 (-52).
Proof. reflexivity. Qed.

Lemma Prim2SF_0 : Prim2SF 0 = S754_zero false.
Proof. reflexivity. Qed.

Lemma SFtrunc_pack k E :
  0 <= k -> E + 1 < 0 -> SFtrunc (pack k E) = Ok (k / 2 ^ (- E)).
Proof.
  intros Hk HE. unfold pack.
  destruct (Z.eqb_spec k (2 ^ 53)) as [->|Hne]; cbn [SFtrunc cond_Zopp].
  - destruct (Z.leb_spec 0 (E + 1)); [lia|]. f_equal.
    replace (- E) with (1 + - (E + 1)) by lia.
    rewrite Z.pow_add_r, <- Z.div_div by lia. reflexivity.
  - destruct k as [|q|q]; try lia; cbn [SFtrunc cond_Zopp].
    + now rewrite Z.div_0_l by (apply Z.pow_nonzero; lia).
    + destruct (Z.leb_spec 0 E); [lia|]. reflexivity.
Qed.

Lemma digits_mul100 m :
  53 <= Z.pos (digits2_pos (M100 * m)) <= 53 + Z.pos (digits2_pos m).
Proof.
  pose proof (digits2_pos_bounds (M100 * m)) as H.
  pose proof (digits2_pos_bounds m) as Hm.
  set (d := Z.pos (digits2_pos (M100 * m))) in *.
  set (dm := Z.pos (digits2_pos m)) in *.
  assert (HM : 2 ^ 52 <= Z.pos M100 < 2 ^ 53) by (cbv; split; congruence).
  rewrite Pos2Z.inj_mul in H.
  split.
  - destruct (Z.le_gt_cases 53 d) as [|Hlt]; [assumption|]. exfalso.
    assert (2 ^ d <= 2 ^ 52) by (apply Z.pow_le_mono_r; lia). nia.
  - destruct (Z.le_gt_cases d (53 + dm)) as [|Hgt]; [assumption|]. exfalso.
    assert (2 ^ (53 + dm) <= 2 ^ (d - 1)) by (apply Z.pow_le_mono_r; lia).
    rewrite Z.pow_add_r in * by lia.
    assert (Z.pos M100 * Z.pos m < 2 ^ 53 * 2 ^ dm) by (apply Z.mul_lt_mono_nonneg; lia).
    lia.
Qed.

Lemma E100_bounds m e :
  fexp64 (Z.pos (digits2_pos m) + e) = e -> e <= -52 ->
  -46 + e <= E100 m e <= -45 /\ -1074 <= E100 m e.
Proof.
  intros Hc He. pose proof (digits_mul100 m) as Hd.
  unfold E100, fexp64 in *. lia.
Qed.

Lemma mul100_finite m e :
  fexp64 (Z.pos (digits2_pos m) + e) = e -> e <= -52 ->
  SF64mul (S754_finite false M100 (-46)) (S754_finite false m e)
  = pack (rne (Z.pos (M100 * m)) (E100 m e - (-46 + e))) (E100 m e).
Proof.
  intros Hc He. pose proof (E100_bounds m e Hc He) as HE.
  unfold SF64mul, SFmul. cbn [xorb].
  apply binary_round_aux_exact; fold (E100 m e); lia.
Qed.

Lemma rne_nonneg m n : 0 <= m -> 0 <= n -> 0 <= rne m n.
Proof.
  intros Hm Hn. pose proof (rne_bounds m n Hm Hn).
  assert (0 <= m / 2 ^ n) by (apply Z.div_pos; [lia|apply Z.pow_pos_nonneg; lia]).
  lia.
Qed.

Lemma SFtrunc_mul100 m e :
  fexp64 (Z.pos (digits2_pos m) + e) = e -> e <= -52 ->
  SFtrunc (SF64mul (S754_finite false M100 (-46)) (S754_finite false m e))
  = Ok (scale100 m e).
Proof.
  intros Hc He. pose proof (E100_bounds m e Hc He) as HE.
  rewrite mul100_finite by assumption.
  rewrite SFtrunc_pack; [reflexivity| apply rne_nonneg; lia | lia].
Qed.

Lemma scale100_mono m1 e1 m2 e2 :
  fexp64 (Z.pos (digits2_pos m1) + e1) = e1 -> e1 <= -52 ->
  fexp64 (Z.pos (digits2_pos m2) + e2) = e2 -> e2 <= -52 ->
  e1 < e2 \/ e1 = e2 /\ (m1 <= m2)%positive ->
  scale100 m1 e1 <= scale100 m2 e2.
Proof.
  intros Hc1 He1 Hc2 He2 Hle.
  pose proof (E100_bounds m1 e1 Hc1 He1) as HE1.
  pose proof (E100_bounds m2 e2 Hc2 He2) as HE2.
  pose proof (digits2_pos_bounds m1) as Hm1.
  pose proof (digits2_pos_bounds m2) as Hm2.
  pose proof (digits2_pos_bounds (M100 * m1)) as Hx1.
  pose proof (digits2_pos_bounds (M100 * m2)) as Hx2.
  unfold scale100. fold (E100 m1 e1) (E100 m2 e2).
  set (E1 := E100 m1 e1) in *. set (E2 := E100 m2 e2) in *.
  assert (Hval : Z.pos (M100 * m1) <= Z.pos (M100 * m2) * 2 ^ (e2 - e1)).
  { rewrite !Pos2Z.inj_mul, <- Z.mul_assoc.
    apply Z.mul_le_mono_nonneg_l; [lia|].
    destruct Hle as [Hlt|[-> Hle]].
    - assert (Z.pos (digits2_pos m2) = 53) by (unfold fexp64 in Hc1, Hc2; lia).
      assert (Z.pos (digits2_pos m1) <= 53) by (unfold fexp64 in Hc1; lia).
      assert (2 ^ Z.pos (digits2_pos m1) <= 2 ^ 53) by (apply Z.pow_le_mono_r; lia).
      assert (2 ^ 1 <= 2 ^ (e2 - e1)) by (apply Z.pow_le_mono_r; lia).
      replace (Z.pos (digits2_pos m2) - 1) with 52 in Hm2 by lia.
      change (2 ^ 1) with 2 in *. change (2 ^ 53) with (2 * 2 ^ 52) in *.
      nia.
    - rewrite Z.sub_diag, Z.mul_1_r. lia. }
  assert (HEle : E1 <= E2).
  { unfold E1, E2, E100, fexp64.
    set (d1 := Z.pos (digits2_pos (M100 * m1))) in *.
    set (d2 := Z.pos (digits2_pos (M100 * m2))) in *.
    assert (d1 + e1 <= d2 + e2); [|lia].
    destruct (Z.le_gt_cases (d1 + e1) (d2 + e2)) as [|Hgt]; [assumption|]. exfalso.
    assert (He12 : 0 <= e2 - e1) by lia.
    assert (2 ^ (d2 + (e2 - e1)) <= 2 ^ (d1 - 1)) by (apply Z.pow_le_mono_r; lia).
    rewrite Z.pow_add_r in * by lia.
    assert (Z.pos (M100 * m2) * 2 ^ (e2 - e1) < 2 ^ d2 * 2 ^ (e2 - e1))
      by (apply Z.mul_lt_mono_pos_r; [apply Z.pow_pos_nonneg|]; lia).
    lia. }
  destruct (Z.eq_dec E1 E2) as [Heq|Hne].
  - rewrite <- Heq. apply Z.div_le_mono; [apply Z.pow_pos_nonneg; lia|].
    apply rne_mono; try lia.
    replace (E1 - (-46 + e1)) with ((e2 - e1) + (E1 - (-46 + e2))) by lia.
    rewrite Z.pow_add_r by lia.
    assert (0 < 2 ^ (E1 - (-46 + e2))) by (apply Z.pow_pos_nonneg; lia).
    nia.
  - assert (Hk1 : rne (Z.pos (M100 * m1)) (E1 - (-46 + e1)) <= 2 ^ 53).
    { apply rne_le_pow with (d := Z.pos (digits2_pos (M100 * m1))); try lia.
      unfold E1, E100, fexp64. lia. }
    assert (Hk2 : 2 ^ 52 <= rne (Z.pos (M100 * m2)) (E2 - (-46 + e2))).
    { pose proof (rne_bounds (Z.pos (M100 * m2)) (E2 - (-46 + e2)) ltac:(lia) ltac:(lia)) as Hb.
      assert (2 ^ 52 <= Z.pos (M100 * m2) / 2 ^ (E2 - (-46 + e2))); [|lia].
      apply Z.div_le_lower_bound; [apply Z.pow_pos_nonneg; lia|].
      rewrite <- Z.pow_add_r by lia.
      eapply Z.le_trans; [|apply Hx2]. apply Z.pow_le_mono_r; [lia|].
      unfold E2, E1, E100, fexp64 in *. lia. }
    eapply Z.le_trans; [apply Z.div_le_mono; [apply Z.pow_pos_nonneg; lia|apply Hk1]|].
    eapply Z.le_trans; [|apply Z.div_le_mono; [apply Z.pow_pos_nonneg; lia|apply Hk2]].
    replace (- E1) with (- E2 + (E2 - E1)) by lia.
    rewrite Z.pow_add_r by lia.
    rewrite (Z.mul_comm (2 ^ (- E2))), <- Z.div_div
      by (try apply Z.pow_pos_nonneg; try (apply Z.pow_nonzero); lia).
    apply Z.div_le_mono; [apply Z.pow_pos_nonneg; lia|].
    apply Z.div_le_upper_bound; [apply Z.pow_pos_nonneg; lia|].
    assert (2 ^ 1 <= 2 ^ (E2 - E1)) by (apply Z.pow_le_mono_r; lia).
    change (2 ^ 1) with 2 in *. change (2 ^ 53) with (2 * 2 ^ 52). 
    assert (0 < 2 ^ 52) by reflexivity. nia.
Qed.

Lemma Qfloor_scaled a e :
  Qfloor (inject_Z a * 2 ^ e) = if 0 <=? e then a * 2 ^ e else a / 2 ^ (- e).
Proof.
  destruct (Z.leb_spec 0 e) as [He|He].
  - rewrite <- (Qfloor_Z (a * 2 ^ e)). apply Qfloor_comp.
    rewrite inject_Z_mult. apply Qmult_comp; [reflexivity|].
    symmetry. apply (Zpower_Qpower 2 e He).
  - rewrite Zdiv_Qdiv. apply Qfloor_comp. unfold Qdiv.
    apply Qmult_comp; [reflexivity|].
    replace e with (- - e) at 1 by lia. rewrite Qpower_opp.
    apply Qinv_comp. symmetry. apply (Zpower_Qpower 2 (- e)). lia.
Qed.

Lemma SFfloor_nonneg x v :
  match x with
  | S754_zero _ | S754_finite false _ _ => True
  | _ => False
  end ->
  SFtrunc x = Ok v -> SFfloor x = Some v.
Proof.
  destruct x as [s|s| |[] m e]; intros Hx Hv; try contradiction.
  - injection Hv as <-. reflexivity.
  - injection Hv as <-. unfold SFfloor, SF2Q.
    cbv beta iota delta [fmap option_fmap option_map cond_Zopp].
    now rewrite Qfloor_scaled.
Qed.

Lemma pack_nonneg k E :
  match pack k E with
  | S754_zero _ | S754_finite false _ _ => True
  | _ => False
  end.
Proof. unfold pack. destruct (k =? 2 ^ 53); [exact I|]. now destruct k. Qed.

Lemma is_probability_shape p :
  is_probability p = true ->
  (exists s, Prim2SF p = S754_zero s) \/
  (exists m e, Prim2SF p = S754_finite false m e
               /\ fexp64 (Z.pos (digits2_pos m) + e) = e /\ e <= -52).
Proof.
  unfold is_probability. rewrite andb_true_iff, !FloatAxioms.leb_spec, Prim2SF_0, Prim2SF_1.
  pose proof (Prim2SF_valid p) as Hv.
  destruct (Prim2SF p) as [s|[]| |[] m e];
    cbv beta iota delta [SFleb SFcompare]; intros [H0 H1]; try discriminate.
  - left. now exists s.
  - right. exists m, e. split; [reflexivity|].
    cbv beta iota delta [valid_binary bounded canonical_mantissa] in Hv.
    apply andb_true_iff in Hv as [Hc _]. apply Z.eqb_eq in Hc.
    rewrite fexp64_eq in Hc. split; [exact Hc|].
    destruct (Z.compare_spec e (-52)); [lia | lia | discriminate].
Qed.

Lemma scale100_nonneg m e :
  fexp64 (Z.pos (digits2_pos m) + e) = e -> e <= -52 -> 0 <= scale100 m e.
Proof.
  intros Hc He. pose proof (E100_bounds m e Hc He) as HE.
  unfold scale100, E100 in *.
  apply Z.div_pos; [|apply Z.pow_pos_nonneg; lia].
  apply rne_nonneg; lia.
Qed.

Lemma SF64mul_100_zero s :
  SF64mul (S754_finite false M100 (-46)) (S754_zero s) = S754_zero s.
Proof. now destruct s. Qed.

(** [int(100 * p)] of a probability: it is defined, it is the floor of the
    product, and it is not negative. *)
Lemma int_of_float_mul100 p :
  is_probability p = true ->
  exists n, int_of_float (100 * p) = Ok n
            /\ float_floor (100 * p) = Some n
            /\ 0 <= n
            /\ (float_truthy p = false -> n = 0).
Proof.
  intros Hp. unfold int_of_float, float_floor.
  rewrite FloatAxioms.mul_spec, Prim2SF_100.
  destruct (is_probability_shape p Hp) as [[s Hs]|(m & e & Hs & Hc & He)];
    rewrite Hs.
  - exists 0. rewrite SF64mul_100_zero.
    split; [reflexivity|]. split; [reflexivity|]. split; [lia|reflexivity].
  - exists (scale100 m e).
    pose proof (SFtrunc_mul100 m e Hc He) as Ht.
    pose proof (E100_bounds m e Hc He) as HE.
    split; [exact Ht|]. split.
    + apply SFfloor_nonneg; [|exact Ht].
      rewrite mul100_finite by assumption. apply pack_nonneg.
    + split.
      * apply scale100_nonneg; assumption.
      * unfold float_truthy. rewrite FloatAxioms.eqb_spec, Hs, Prim2SF_0. discriminate.
Qed.

(** [int(100 * p)] does not decrease when the probability grows. *)
Lemma int_of_float_mul100_mono p q n m :
  is_probability p = true -> is_probability q = true ->
  (p <=? q)%float = true ->
  int_of_float (100 * p) = Ok n -> int_of_float (100 * q) = Ok m ->
  n <= m.
Proof.
  intros Hp Hq Hle. unfold int_of_float.
  rewrite !FloatAxioms.mul_spec, Prim2SF_100. rewrite FloatAxioms.leb_spec in Hle.
  destruct (is_probability_shape p Hp) as [[s Hs]|(m1 & e1 & Hs & Hc1 & He1)];
    destruct (is_probability_shape q Hq) as [[s' Hs']|(m2 & e2 & Hs' & Hc2 & He2)];
    rewrite Hs, Hs' in *; rewrite ?SF64mul_100_zero, ?SFtrunc_mul100 by assumption;
    cbv beta iota delta [SFtrunc]; intros [= <-] [= <-].
  - lia.
  - apply scale100_nonneg; assumption.
  - discriminate Hle.
  - apply scale100_mono; try assumption.
    cbv beta iota delta [SFleb SFcompare] in Hle.
    destruct (Z.compare_spec e1 e2) as [->|Hlt|Hgt]; [|left; lia|discriminate].
    right. split; [reflexivity|].
    change (Pos.compare_cont Eq m1 m2) with (m1 ?= m2)%positive in Hle.
    destruct (Pos.compare_spec m1 m2); [lia | lia | discriminate].
Qed.

(** The rounded product against the exact one. *)

Lemma Q100_M100 : (100 == inject_Z (Z.pos M100) * 2 ^ (-46))%Q.
Proof. reflexivity. Qed.

Lemma exact_product_scaled m e :
  (100 * (inject_Z (Z.pos m) * 2 ^ e)
   == inject_Z (Z.pos (M100 * m)) * 2 ^ (-46 + e))%Q.
Proof.
  rewrite Q100_M100, Pos2Z.inj_mul, inject_Z_mult.
  rewrite (Qpower_plus 2 (-46) e) by discriminate. ring.
Qed.

Lemma exact_floor100_finite p m e :
  Prim2SF p = S754_finite false m e -> e <= -52 ->
  exact_floor100 p = Some (Z.pos (M100 * m) / 2 ^ (46 - e)).
Proof.
  intros Hp He. unfold exact_floor100. rewrite Hp. cbn [SF2Q fmap option_fmap option_map cond_Zopp].
  f_equal. rewrite (Qfloor_comp _ _ (exact_product_scaled m e)).
  rewrite Qfloor_scaled.
  destruct (Z.leb_spec 0 (-46 + e)) as [?|_]; [lia|].
  do 2 f_equal. lia.
Qed.

Lemma scale100_exact m e :
  fexp64 (Z.pos (digits2_pos m) + e) = e -> e <= -52 ->
  Z.pos (M100 * m) / 2 ^ (46 - e) <= scale100 m e
  <= Z.pos (M100 * m) / 2 ^ (46 - e) + 1.
Proof.
  intros Hc He. pose proof (E100_bounds m e Hc He) as [[HE1 HE2] _].
  unfold scale100.
  set (M := Z.pos (M100 * m)). set (k := E100 m e - (-46 + e)).
  set (j := - E100 m e).
  assert (0 <= M) by (unfold M; lia).
  assert (0 <= k) by (unfold k; lia). assert (0 < j) by (unfold j; lia).
  replace (46 - e) with (k + j) by (unfold k, j; lia).
  rewrite Z.pow_add_r by lia.
  rewrite <- Z.div_div by (try apply Z.pow_nonzero; try apply Z.pow_pos_nonneg; lia).
  pose proof (rne_bounds M k ltac:(lia) ltac:(lia)) as [Hlo Hhi].
  assert (0 < 2 ^ j) by (apply Z.pow_pos_nonneg; lia).
  split.
  - apply Z.div_le_mono; lia.
  - transitivity ((M / 2 ^ k + 1) / 2 ^ j); [apply Z.div_le_mono; lia|].
    assert (1 <= 2 ^ j) by lia.
    apply Z.div_le_upper_bound; [lia|].
    pose proof (Z.mul_div_le (M / 2 ^ k) (2 ^ j) ltac:(lia)).
    pose proof (Z.mod_pos_bound (M / 2 ^ k) (2 ^ j) ltac:(lia)).
    pose proof (Z.div_mod (M / 2 ^ k) (2 ^ j) ltac:(lia)).
    nia.
Qed.

Lemma int_of_float_mul100_exact p n :
  is_probability p = true -> int_of_float (100 * p) = Ok n ->
  exists k, exact_floor100 p = Some k /\ k <= n <= k + 1.
Proof.
  intros Hp. unfold int_of_float.
  rewrite FloatAxioms.mul_spec, Prim2SF_100.
  destruct (is_probability_shape p Hp) as [[s Hs]|(m & e & Hs & Hc & He)].
  - rewrite Hs, SF64mul_100_zero. intros [= <-]. exists 0.
    unfold exact_floor100. rewrite Hs. split; [reflexivity|lia].
  - rewrite Hs, (SFtrunc_mul100 m e Hc He). intros [= <-].
    exists (Z.pos (M100 * m) / 2 ^ (46 - e)).
    split; [now apply exact_floor100_finite|now apply scale100_exact].
Qed.

Lemma SFcompare_antisym x y :
  SFcompare y x = CompOpp <$> SFcompare x y.
Proof.
  destruct x as [[]|[]| |[] m1 e1], y as [[]|[]| |[] m2 e2];
    try reflexivity;
    cbv beta iota delta [SFcompare fmap option_fmap option_map];
    f_equal;
    rewrite (Z.compare_antisym e1 e2);
    change (Pos.compare_cont Eq m2 m1) with (m2 ?= m1)%positive;
    change (Pos.compare_cont Eq m1 m2) with (m1 ?= m2)%positive;
    rewrite (Pos.compare_antisym m1 m2);
    destruct (e1 ?= e2), (m1 ?= m2)%positive; reflexivity.
Qed.

Lemma ltb_not_leb (x y : float) : (x <? y)%float = true -> (y <=? x)%float = false.
Proof.
  rewrite FloatAxioms.ltb_spec, FloatAxioms.leb_spec.
  unfold SFltb, SFleb. rewrite (SFcompare_antisym (Prim2SF x) (Prim2SF y)).
  destruct (SFcompare (Prim2SF x) (Prim2SF y)) as [[]|]; discriminate || reflexivity.
Qed.

(** * Generators *)

Lemma seq_run {A} (g1 g2 : Generator A) w :
  (g1 >> g2) w =
  match raised (g1 w) with
  | Some _ => g1 w
  | None =>
      {| yielded := yielded (g1 w) ++ yielded (g2 (world (g1 w)));
         raised := raised (g2 (world (g1 w)));
         world := world (g2 (world (g1 w))) |}
  end.
Proof. reflexivity. Qed.

Lemma elem_of_yielded_seq {A} (g1 g2 : Generator A) w (a : A) :
  a ∈ yielded ((g1 >> g2) w) ->
  a ∈ yielded (g1 w) \/ a ∈ yielded (g2 (world (g1 w))).
Proof.
  rewrite seq_run. destruct (raised (g1 w)); [now left|].
  cbn [yielded]. apply elem_of_app.
Qed.

Lemma elem_of_yielded_yield {A} (e : result A) w (a : A) :
  a ∈ yielded (yield e w) -> e = Ok a.
Proof.
  destruct e as [b|x]; cbn [yield yielded]; intros H.
  - apply list_elem_of_singleton in H. now subst.
  - now apply elem_of_nil in H.
Qed.

Lemma elem_of_yielded_for_in {A B} (f : B -> result A) l w (a : A) :
  a ∈ yielded (for_in l (fun x => yield (f x)) w) ->
  exists x, x ∈ l /\ f x = Ok a.
Proof.
  revert w. induction l as [|x l IH]; intros w; cbn [for_in].
  - intros H. now apply elem_of_nil in H.
  - intros H. apply elem_of_yielded_seq in H as [H|H].
    + exists x. split; [left | now apply elem_of_yielded_yield in H].
    + destruct (IH _ H) as (y & Hy & Hf). exists y. split; [now right | exact Hf].
Qed.

(** When no element makes the body raise, the loop yields one value per
    element, in order, and leaves the world as it found it. *)
Lemma for_in_yield_all {A B} (f : B -> result A) l w :
  Forall (fun x => exists a, f x = Ok a) l ->
  exists out,
    Forall2 (fun x a => f x = Ok a) l out
    /\ for_in l (fun x => yield (f x)) w
       = {| yielded := out; raised := None; world := w |}.
Proof.
  induction 1 as [|x l [a Ha] _ (out & Hout & IH)]; cbn [for_in].
  - exists []. split; [constructor | reflexivity].
  - exists (a :: out). split; [now constructor|].
    rewrite seq_run, Ha. cbn [yield raised yielded world]. now rewrite IH.
Qed.

(** Yielding does not touch the world, whether the loop ends or raises. *)
Lemma world_for_in_yield {A B} (f : B -> result A) l w :
  world (for_in l (fun x => yield (f x)) w) = w.
Proof.
  induction l as [|x l IH]; [reflexivity|]. cbn [for_in]. rewrite seq_run.
  destruct (f x) as [a|e]; cbn [yield raised yielded world];
    [exact IH|reflexivity].
Qed.

Lemma for_in_yield_raise {A B} (f : B -> result A) good bad rest e w out :
  Forall2 (fun x a => f x = Ok a) good out -> f bad = Raise e ->
  for_in (good ++ bad :: rest) (fun x => yield (f x)) w
  = {| yielded := out; raised := Some e; world := w |}.
Proof.
  intros Hgood Hbad. induction Hgood as [|x a good out Hx _ IH].
  - cbn [app for_in]. rewrite seq_run.
    assert (yield (f bad) w
            = {| yielded := []; raised := Some e; world := w |}) as ->
      by (unfold yield; now rewrite Hbad).
    reflexivity.
  - change ((x :: good) ++ bad :: rest) with (x :: (good ++ bad :: rest)).
    cbn [for_in]. rewrite seq_run.
    assert (yield (f x) w
            = {| yielded := [a]; raised := None; world := w |}) as ->
      by (unfold yield; now rewrite Hx).
    cbn [raised yielded world]. rewrite IH. reflexivity.
Qed.

(** * Lists *)

Lemma filter_none {A} (p : A -> bool) l :
  (forall x, x ∈ l -> p x = false) -> List.filter p l = [].
Proof.
  induction l as [|a l IH]; intros H; [reflexivity|].
  cbn [List.filter]. rewrite (H a) by left. apply IH.
  intros x Hx. apply H. now right.
Qed.

Lemma filter_all {A} (p : A -> bool) l :
  (forall x, x ∈ l -> p x = true) -> List.filter p l = l.
Proof.
  induction l as [|a l IH]; intros H; [reflexivity|].
  cbn [List.filter]. rewrite (H a) by left. f_equal. apply IH.
  intros x Hx. apply H. now right.
Qed.

Lemma Forall2_elem_of_r {A B} (R : A -> B -> Prop) l k y :
  Forall2 R l k -> y ∈ k -> exists x, x ∈ l /\ R x y.
Proof.
  induction 1 as [|a b l k Hab _ IH]; intros Hy.
  - now apply elem_of_nil in Hy.
  - apply elem_of_cons in Hy as [->|Hy].
    + exists a. split; [left | exact Hab].
    + destruct (IH Hy) as (x & Hx & HR). exists x.
      split; [now right | exact HR].
Qed.

(** * The priorities *)

Lemma navigation_priority_unfold request :
  get_parse_navigation_request_priority request =
  match get_probability request with
  | None => Ok 0
  | Some p => int_of_float (100 * p)
  end.
Proof.
  unfold get_parse_navigation_request_priority, get_probability.
  destruct (metadata request) as [[[p|]]|]; reflexivity.
Qed.

Lemma product_priority_unfold request :
  get_parse_product_request_priority request =
  match get_probability request with
  | None => Ok 100
  | Some p =>
      if float_truthy p
      then n ← int_of_float (100 * p); Ok (n + 100)
      else Ok 100
  end.
Proof.
  unfold get_parse_product_request_priority.
  destruct (get_probability request) as [p|]; [|reflexivity].
  destruct (float_truthy p); reflexivity.
Qed.

Lemma navigation_priority_well_formed request :
  well_formed request = true ->
  exists n, get_parse_navigation_request_priority request = Ok n /\ 0 <= n.
Proof.
  unfold well_formed. rewrite navigation_priority_unfold.
  destruct (get_probability request) as [p|]; intros Hp.
  - destruct (int_of_float_mul100 p Hp) as (n & Hn & _ & H0 & _). now exists n.
  - now exists 0.
Qed.

Lemma product_priority_well_formed request :
  well_formed request = true ->
  exists n, get_parse_product_request_priority request = Ok n /\ 100 <= n.
Proof.
  unfold well_formed. rewrite product_priority_unfold.
  destruct (get_probability request) as [p|]; intros Hp.
  - destruct (int_of_float_mul100 p Hp) as (n & Hn & _ & H0 & _).
    destruct (float_truthy p).
    + exists (n + 100). rewrite Hn. split; [reflexivity | lia].
    + now exists 100.
  - now exists 100.
Qed.

(** * The requests *)

Lemma scrapy_Request_inv url cb prio m r :
  scrapy_Request url cb prio m = Ok r ->
  request_url_for url = Ok (request_url r)
  /\ request_callback r = cb
  /\ request_priority r = prio
  /\ request_meta r = m.
Proof.
  unfold scrapy_Request. cbn [mbind result_bind mret result_ret].
  destruct (request_url_for url) as [u|]; [|discriminate].
  now intros [= <-].
Qed.

Lemma scrapy_Request_accepted url cb prio m :
  accepted url = true -> exists r, scrapy_Request url cb prio m = Ok r.
Proof.
  unfold accepted, scrapy_Request.
  destruct (request_url_for url) as [u|]; [|discriminate].
  intros _. eexists. reflexivity.
Qed.

Lemma scrapy_Request_refused url cb prio m e :
  request_url_for url = Raise e -> scrapy_Request url cb prio m = Raise e.
Proof. unfold scrapy_Request. now intros ->. Qed.

Lemma accepted_Ok url u : request_url_for url = Ok u -> accepted url = true.
Proof. unfold accepted. now intros ->. Qed.

Lemma get_parse_navigation_request_inv request cb pp prio pt r :
  get_parse_navigation_request request cb pp prio pt = Ok r ->
  request_url_for (url request) = Ok (request_url r)
  /\ request_callback r = default parse_navigation_callback cb
  /\ request_meta r
     = {| meta_page_params := Some (or_empty_dict pp);
          meta_crawling_logs :=
            LinkLogs (Some (or_empty_str (name request)))
                     (get_probability request) pt;
          meta_allow_offsite := None |}
  /\ match prio with
     | Some n =>
         if bool_decide (n = 0)
         then get_parse_navigation_request_priority request
              = Ok (request_priority r)
         else request_priority r = n
     | None =>
         get_parse_navigation_request_priority request = Ok (request_priority r)
     end.
Proof.
  unfold get_parse_navigation_request, to_scrapy.
  destruct prio as [n|]; [destruct (bool_decide (n = 0))|];
    cbn [mbind result_bind mret result_ret];
    try (destruct (get_parse_navigation_request_priority request) as [k|];
         [|discriminate]);
    intros (Hurl & Hcb & Hprio & Hmeta)%scrapy_Request_inv;
    rewrite ?Hprio; repeat split; assumption || reflexivity.
Qed.

Lemma get_nextpage_request_run request cb pp :
  get_nextpage_request request cb pp =
  to_scrapy request (default parse_navigation_callback cb) 100
    {| meta_page_params := Some (or_empty_dict pp);
       meta_crawling_logs :=
         LinkLogs (Some (or_empty_str (name request)))
                  (get_probability request) "nextPage";
       meta_allow_offsite := None |}.
Proof. reflexivity. Qed.

Lemma get_nextpage_request_accepted request cb pp :
  accepted (url request) = true ->
  exists r, get_nextpage_request request cb pp = Ok r.
Proof. rewrite get_nextpage_request_run. apply scrapy_Request_accepted. Qed.

Lemma get_parse_product_request_inv request cb r :
  get_parse_product_request request cb = Ok r ->
  request_url_for (url request) = Ok (request_url r)
  /\ request_callback r = default parse_product_callback cb
  /\ request_meta r
     = {| meta_page_params := None;
          meta_crawling_logs :=
            LinkLogs (name request) (get_probability request) "product";
          meta_allow_offsite := Some true |}
  /\ get_parse_product_request_priority request = Ok (request_priority r).
Proof.
  unfold get_parse_product_request, to_scrapy.
  cbn [mbind result_bind mret result_ret].
  destruct (get_parse_product_request_priority request) as [k|]; [|discriminate].
  cbn [mbind result_bind mret result_ret].
  destruct (scrapy_Request (url request) (default parse_product_callback cb) k
              _) as [r'|] eqn:Hr'; [|discriminate].
  apply scrapy_Request_inv in Hr' as (Hurl & Hcb & Hprio & Hmeta).
  intros [= <-]. cbn [set_allow_offsite request_url request_callback
    request_priority request_meta]. rewrite Hmeta, Hprio.
  repeat split; assumption || reflexivity.
Qed.

Lemma get_parse_product_request_well_formed request cb :
  followable request = true ->
  exists r, get_parse_product_request request cb = Ok r.
Proof.
  intros [Hwf Hurl]%andb_true_iff.
  destruct (product_priority_well_formed request Hwf) as (n & Hn & _).
  unfold get_parse_product_request, to_scrapy. rewrite Hn.
  cbn [mbind result_bind mret result_ret].
  destruct (scrapy_Request_accepted (url request)
              (default parse_product_callback cb) n
              {| meta_page_params := None;
                 meta_crawling_logs :=
                   LinkLogs (name request) (get_probability request) "product";
                 meta_allow_offsite := None |} Hurl) as [r ->].
  eexists. reflexivity.
Qed.

(** The candidate as [get_subcategory_request] leaves it. *)
Lemma get_subcategory_request_candidate request cb pp prio :
  (get_subcategory_request request cb pp prio).1 =
  if contains heuristics_marker (or_empty_str (name request))
  then {| url := url request;
          name := Some (strip (replace heuristics_marker []
                                 (or_empty_str (name request))));
          metadata := metadata request |}
  else request.
Proof.
  unfold get_subcategory_request.
  destruct (contains heuristics_marker (or_empty_str (name request)));
    reflexivity.
Qed.

Lemma get_subcategory_request_result request cb pp prio :
  (get_subcategory_request request cb pp prio).2 =
  if contains heuristics_marker (or_empty_str (name request))
  then get_parse_navigation_request
         (get_subcategory_request request cb pp prio).1 cb pp prio
         "productNavigation-heuristics"
  else get_parse_navigation_request request cb None prio "subCategories".
Proof.
  unfold get_subcategory_request.
  destruct (contains heuristics_marker (or_empty_str (name request)));
    reflexivity.
Qed.

Lemma get_subcategory_request_probability request cb pp prio :
  get_probability (get_subcategory_request request cb pp prio).1
  = get_probability request.
Proof.
  rewrite get_subcategory_request_candidate.
  destruct (contains _ _); reflexivity.
Qed.

Lemma get_subcategory_request_url request cb pp prio :
  url (get_subcategory_request request cb pp prio).1 = url request.
Proof.
  rewrite get_subcategory_request_candidate.
  destruct (contains _ _); reflexivity.
Qed.

Lemma subcategory_priority_unfold request cb pp prio :
  get_parse_navigation_request_priority
    (get_subcategory_request request cb pp prio).1
  = get_parse_navigation_request_priority request.
Proof.
  rewrite !navigation_priority_unfold.
  now rewrite get_subcategory_request_probability.
Qed.

Lemma get_parse_navigation_request_well_formed request cb pp prio pt :
  followable request = true ->
  exists r, get_parse_navigation_request request cb pp prio pt = Ok r.
Proof.
  intros [Hwf Hurl]%andb_true_iff.
  destruct (navigation_priority_well_formed request Hwf) as (n & Hn & _).
  unfold get_parse_navigation_request, to_scrapy.
  destruct prio as [k|]; [destruct (bool_decide (k = 0))|];
    rewrite ?Hn; cbn [mbind result_bind mret result_ret];
    now apply scrapy_Request_accepted.
Qed.

Lemma get_subcategory_request_well_formed request cb pp prio :
  followable request = true ->
  exists r, (get_subcategory_request request cb pp prio).2 = Ok r.
Proof.
  intros Hwf. rewrite get_subcategory_request_result.
  destruct (contains _ _); apply get_parse_navigation_request_well_formed;
    [|exact Hwf].
  unfold followable, well_formed in *.
  now rewrite get_subcategory_request_probability, get_subcategory_request_url.
Qed.

Lemma get_parse_product_request_built request cb n :
  get_parse_product_request_priority request = Ok n ->
  accepted (url request) = true ->
  exists r, get_parse_product_request request cb = Ok r
            /\ request_priority r = n.
Proof.
  intros Hn Hurl. unfold get_parse_product_request, to_scrapy. rewrite Hn.
  cbn [mbind result_bind mret result_ret].
  destruct (scrapy_Request (url request) (default parse_product_callback cb) n
              {| meta_page_params := None;
                 meta_crawling_logs :=
                   LinkLogs (name request) (get_probability request) "product";
                 meta_allow_offsite := None |}) as [r|] eqn:Hr.
  - apply scrapy_Request_inv in Hr as (_ & _ & Hprio & _).
    eexists. split; [reflexivity|exact Hprio].
  - destruct (scrapy_Request_accepted (url request)
                (default parse_product_callback cb) n
                {| meta_page_params := None;
                   meta_crawling_logs :=
                     LinkLogs (name request) (get_probability request)
                       "product";
                   meta_allow_offsite := None |} Hurl) as [r' Hr'].
    congruence.
Qed.

Lemma get_parse_navigation_request_built request cb pp prio pt n :
  match prio with
  | Some k =>
      if bool_decide (k = 0)
      then get_parse_navigation_request_priority request = Ok n
      else k = n
  | None => get_parse_navigation_request_priority request = Ok n
  end ->
  accepted (url request) = true ->
  exists r, get_parse_navigation_request request cb pp prio pt = Ok r
            /\ request_priority r = n.
Proof.
  intros Hn Hurl.
  assert (exists r, get_parse_navigation_request request cb pp prio pt = Ok r)
    as [r Hr].
  { unfold get_parse_navigation_request, to_scrapy.
    destruct prio as [k|]; [destruct (bool_decide (k = 0))|];
      rewrite ?Hn; cbn [mbind result_bind mret result_ret];
      now apply scrapy_Request_accepted. }
  exists r. split; [exact Hr|].
  apply get_parse_navigation_request_inv in Hr as (_ & _ & _ & Hprio).
  destruct prio as [k|]; [destruct (bool_decide (k = 0))|]; congruence.
Qed.

Lemma get_subcategory_request_built request cb pp prio n :
  match prio with
  | Some k =>
      if bool_decide (k = 0)
      then get_parse_navigation_request_priority request = Ok n
      else k = n
  | None => get_parse_navigation_request_priority request = Ok n
  end ->
  accepted (url request) = true ->
  exists r, (get_subcategory_request request cb pp prio).2 = Ok r
            /\ request_priority r = n.
Proof.
  intros Hn Hurl. rewrite get_subcategory_request_result.
  destruct (contains _ _);
    apply get_parse_navigation_request_built;
    rewrite ?subcategory_priority_unfold, ?get_subcategory_request_url;
    assumption.
Qed.

Lemma get_subcategory_request_inv request cb pp prio r :
  (get_subcategory_request request cb pp prio).2 = Ok r ->
  request_url_for (url request) = Ok (request_url r)
  /\ request_callback r = default parse_navigation_callback cb
  /\ match prio with
     | Some n =>
         if bool_decide (n = 0)
         then get_parse_navigation_request_priority request
              = Ok (request_priority r)
         else request_priority r = n
     | None =>
         get_parse_navigation_request_priority request = Ok (request_priority r)
     end.
Proof.
  rewrite get_subcategory_request_result.
  destruct (contains _ _);
    intros (Hurl & Hcb & _ & Hprio)%get_parse_navigation_request_inv;
    rewrite ?subcategory_priority_unfold, ?get_subcategory_request_url in *;
    repeat split; assumption.
Qed.

(** * [parse_navigation] *)

(** Where a yielded request comes from. *)
Lemma parse_navigation_yielded self response navigation w r :
  r ∈ yielded (parse_navigation self response navigation w) ->
  (exists c, c ∈ default [] (items navigation)
             /\ get_parse_product_request c None = Ok r)
  \/ (exists next c cs, nextPage navigation = Some next
             /\ default [] (items navigation) = c :: cs
             /\ get_nextpage_request next None None = Ok r)
  \/ (crawl_strategy self <> pagination_only
      /\ exists c, c ∈ default [] (subCategories navigation)
             /\ (get_subcategory_request c None
                   (meta_page_params (response_meta response)) None).2 = Ok r).
Proof.
  unfold parse_navigation. intros H.
  apply elem_of_yielded_seq in H as [H|H].
  { left. now apply elem_of_yielded_for_in in H. }
  apply elem_of_yielded_seq in H as [H|H].
  { right; left. destruct (nextPage navigation) as [next|].
    - destruct (default [] (items navigation)) as [|c cs].
      + now apply elem_of_nil in H.
      + apply elem_of_yielded_yield in H. now exists next, c, cs.
    - now apply elem_of_nil in H. }
  right; right. case_bool_decide as Hs.
  - split; [exact Hs|]. now apply elem_of_yielded_for_in in H.
  - now apply elem_of_nil in H.
Qed.

(** The run of [parse_navigation] on a navigation result whose links can be
    followed: nothing raises, and the product requests, the
    next-page request and the subcategory requests follow each other. *)
Lemma parse_navigation_run self response navigation w :
  Forall (fun c => followable c = true) (default [] (items navigation)) ->
  match nextPage navigation, default [] (items navigation) with
  | Some next, _ :: _ => accepted (url next) = true
  | _, _ => True
  end ->
  Forall (fun c => followable c = true)
         (default [] (subCategories navigation)) ->
  exists products_out next_out sub_out,
    Forall2 (fun c r => get_parse_product_request c None = Ok r)
            (default [] (items navigation)) products_out
    /\ Forall2 (fun c r => get_nextpage_request c None None = Ok r)
               (match nextPage navigation, default [] (items navigation) with
                | Some next, _ :: _ => [next]
                | _, _ => []
                end) next_out
    /\ Forall2 (fun c r =>
                  (get_subcategory_request c None
                     (meta_page_params (response_meta response)) None).2
                  = Ok r)
               (if bool_decide (crawl_strategy self <> pagination_only)
                then default [] (subCategories navigation) else [])
               sub_out
    /\ yielded (parse_navigation self response navigation w)
       = products_out ++ next_out ++ sub_out
    /\ raised (parse_navigation self response navigation w) = None.
Proof.
  intros Hitems Hnext Hsubs. unfold parse_navigation.
  set (pp := meta_page_params (response_meta response)).
  destruct (for_in_yield_all (fun c => get_parse_product_request c None)
              (default [] (items navigation)) w) as (out1 & Hout1 & Hrun1).
  { eapply Forall_impl; [exact Hitems|]. intros c Hc.
    now apply get_parse_product_request_well_formed. }
  set (subs := if bool_decide (crawl_strategy self <> pagination_only)
               then default [] (subCategories navigation) else []).
  assert (Hsubs' : Forall (fun c => followable c = true) subs).
  { unfold subs. case_bool_decide; [exact Hsubs | constructor]. }
  assert (Hlast : forall w',
    exists out3,
      Forall2 (fun c r => (get_subcategory_request c None pp None).2 = Ok r)
              subs out3
      /\ (if bool_decide (crawl_strategy self <> pagination_only)
          then for_in (default [] (subCategories navigation))
                 (fun request =>
                    yield (get_subcategory_request request None pp None).2)
          else pass) w'
         = {| yielded := out3; raised := None; world := w' |}).
  { intros w'.
    destruct (for_in_yield_all
                (fun c => (get_subcategory_request c None pp None).2) subs w')
      as (out3 & Hout3 & Hrun3).
    { eapply Forall_impl; [exact Hsubs'|]. intros c Hc.
      now apply get_subcategory_request_well_formed. }
    exists out3. split; [exact Hout3|].
    unfold subs in Hrun3. case_bool_decide; exact Hrun3. }
  rewrite seq_run, Hrun1. cbn [raised yielded world]. rewrite seq_run.
  destruct (nextPage navigation) as [next|].
  - destruct (default [] (items navigation)) as [|c cs].
    + cbn [exec raised yielded world].
      destruct (Hlast (info (IgnoringNextPage next (nav_url navigation)) w))
        as (out3 & Hout3 & ->).
      exists out1, [], out3. cbn [raised yielded world].
      repeat split; try assumption. constructor.
    + destruct (get_nextpage_request_accepted next None None Hnext)
        as [rn Hrn].
      rewrite Hrn. cbn [yield raised yielded world].
      destruct (Hlast w) as (out3 & Hout3 & ->).
      exists out1, [rn], out3. cbn [raised yielded world].
      repeat split; try assumption.
      constructor; [exact Hrn | constructor].
  - cbn [pass raised yielded world].
    destruct (Hlast w) as (out3 & Hout3 & ->).
    exists out1, [], out3. cbn [raised yielded world].
    repeat split; try assumption.
    destruct (default [] (items navigation)); constructor.
Qed.

(** * Strings *)

Lemma or_empty_str_Some s : or_empty_str (Some s) = s.
Proof. now destruct s. Qed.

Lemma replace_from_skip old new k s :
  replace_from old new k s = replace_from old new O (drop k s).
Proof.
  revert s. induction k as [|k IH]; intros s; [now rewrite drop_0|].
  destruct s as [|c s]; [reflexivity|]. cbn [replace_from drop]. apply IH.
Qed.

Lemma startswith_nonempty old s :
  old <> [] -> startswith old s = true -> s <> [].
Proof. destruct old, s; try discriminate; congruence. Qed.

(** [replace] with the empty string deletes the occurrences as [removed]
    describes. *)
Lemma replace_removed old s :
  old <> [] -> removed old s (replace old [] s).
Proof.
  intros Hold. unfold replace.
  remember (length s) as n eqn:Hn.
  assert (Hlen : (length s <= n)%nat) by lia. clear Hn.
  revert s Hlen. induction n as [|n IH]; intros [|c s] Hlen;
    try apply removed_end; cbn [length] in Hlen; [lia|].
  cbn [replace_from]. destruct (startswith old (c :: s)) eqn:Hsw.
  - cbn [app]. rewrite replace_from_skip.
    apply removed_occurrence; [discriminate | exact Hsw |].
    destruct old as [|a old]; [congruence|]. cbn [length pred drop].
    apply IH. rewrite length_drop. lia.
  - apply removed_keep; [exact Hsw|]. apply IH. lia.
Qed.

Lemma lstrip_no_leading_space s c s' :
  lstrip s = c :: s' -> isspace c = false.
Proof.
  induction s as [|a s IH]; cbn [lstrip]; [discriminate|].
  destruct (isspace a) eqn:Ha; [exact IH|]. now intros [= <- <-].
Qed.

Lemma lstrip_suffix s : exists ws, s = ws ++ lstrip s /\ forallb isspace ws = true.
Proof.
  induction s as [|a s (ws & Hs & Hws)]; cbn [lstrip].
  - now exists [].
  - destruct (isspace a) eqn:Ha.
    + exists (a :: ws). cbn [app forallb]. rewrite Ha, Hws. now rewrite <- Hs.
    + now exists [].
Qed.

(** [strip] removes whitespace only, and leaves none at either end. *)
Lemma strip_spec s :
  (exists l r, s = l ++ strip s ++ r
               /\ forallb isspace l = true /\ forallb isspace r = true)
  /\ (forall c t, strip s = c :: t -> isspace c = false)
  /\ (forall c t, strip s = t ++ [c] -> isspace c = false).
Proof.
  unfold strip, rstrip.
  destruct (lstrip_suffix s) as (l & Hl & Hwl).
  destruct (lstrip_suffix (reverse (lstrip s))) as (r & Hr & Hwr).
  assert (Hend : forall c t,
             reverse (lstrip (reverse (lstrip s))) = t ++ [c] ->
             isspace c = false).
  { intros c t H. apply (f_equal reverse) in H.
    rewrite reverse_involutive, reverse_app, reverse_singleton in H.
    now apply lstrip_no_leading_space in H. }
  split; [|split; [|exact Hend]].
  - exists l, (reverse r). split; [|split; [exact Hwl|]].
    + rewrite <- reverse_app, <- Hr, reverse_involutive. exact Hl.
    + rewrite forallb_forall in Hwr |- *. intros x Hx. apply Hwr.
      apply list_elem_of_In, elem_of_reverse, list_elem_of_In, Hx.
  - intros c t H.
    destruct (lstrip_suffix (reverse (lstrip s))) as (ws & Hws & Hall).
    set (u := lstrip (reverse (lstrip s))) in *.
    assert (Hs : lstrip s = reverse u ++ reverse ws).
    { rewrite <- reverse_app, <- Hws. now rewrite reverse_involutive. }
    rewrite H in Hs. cbn [app] in Hs.
    now apply lstrip_no_leading_space in Hs.
Qed.

(** * The tags and parameters of the requests *)

Lemma product_request_shape request cb r :
  get_parse_product_request request cb = Ok r ->
  page_type r = "product"%string /\ carried_params r = None
  /\ meta_allow_offsite (request_meta r) = Some true.
Proof.
  intros H. apply get_parse_product_request_inv in H as (_ & _ & Hmeta & _).
  unfold page_type, carried_params. rewrite Hmeta. repeat split.
Qed.

Lemma nextpage_request_shape request cb pp r :
  get_nextpage_request request cb pp = Ok r ->
  page_type r = "nextPage"%string
  /\ carried_params r = Some (or_empty_dict pp)
  /\ meta_allow_offsite (request_meta r) = None
  /\ request_priority r = 100.
Proof.
  rewrite get_nextpage_request_run. unfold to_scrapy.
  intros (_ & _ & Hprio & Hmeta)%scrapy_Request_inv.
  unfold page_type, carried_params. rewrite Hmeta, Hprio. repeat split.
Qed.

Lemma subcategory_request_shape request cb pp prio r :
  (get_subcategory_request request cb pp prio).2 = Ok r ->
  (if contains heuristics_marker (or_empty_str (name request))
   then page_type r = "productNavigation-heuristics"%string
        /\ carried_params r = Some (or_empty_dict pp)
   else page_type r = "subCategories"%string
        /\ carried_params r = Some ∅)
  /\ meta_allow_offsite (request_meta r) = None.
Proof.
  rewrite get_subcategory_request_result.
  destruct (contains _ _); intros H;
    apply get_parse_navigation_request_inv in H as (_ & _ & Hmeta & _);
    unfold page_type, carried_params; rewrite Hmeta; repeat split.
Qed.

Lemma subcategory_request_tagged request cb pp prio r :
  (get_subcategory_request request cb pp prio).2 = Ok r ->
  is_subcategory r = true /\ is_nextpage r = false.
Proof.
  intros H. apply subcategory_request_shape in H as [H _].
  unfold is_subcategory, is_nextpage.
  destruct (contains _ _); destruct H as [-> _]; split; reflexivity.
Qed.

Lemma or_empty_dict_no_params pp :
  pp = None \/ pp = Some ∅ -> or_empty_dict pp = ∅.
Proof. intros [->| ->]; reflexivity. Qed.

(** * The start requests *)

Lemma start_requests_run self w :
  start_requests self w =
  if bool_decide (crawl_strategy self = full)
  then match allowed_domains self with
       | domain :: _ =>
           for_in (start_urls self) (fun url =>
             yield (scrapy_Request url parse_navigation_callback 0
                      {| meta_page_params :=
                           Some {[ "full_domain"%string := domain ]};
                         meta_crawling_logs := StartLogs "productNavigation";
                         meta_allow_offsite := None |})) w
       | [] => {| yielded := []; raised := Some IndexError; world := w |}
       end
  else for_in (start_urls self) (fun url =>
         yield (scrapy_Request url parse_navigation_callback 0
                  {| meta_page_params := Some ∅;
                     meta_crawling_logs := StartLogs "productNavigation";
                     meta_allow_offsite := None |})) w.
Proof.
  unfold start_requests.
  destruct (bool_decide (crawl_strategy self = full)); [|reflexivity].
  now destruct (allowed_domains self).
Qed.

Lemma start_request_shape self w r :
  r ∈ yielded (start_requests self w) ->
  page_type r = "productNavigation"%string
  /\ request_callback r = parse_navigation_callback
  /\ request_priority r = 0
  /\ meta_allow_offsite (request_meta r) = None
  /\ (exists url, url ∈ start_urls self
                  /\ request_url_for url = Ok (request_url r))
  /\ (if bool_decide (crawl_strategy self = full)
      then exists domain,
             head (allowed_domains self) = Some domain
             /\ carried_params r = Some {[ "full_domain"%string := domain ]}
      else carried_params r = Some ∅).
Proof.
  rewrite start_requests_run. intros Hr.
  destruct (bool_decide (crawl_strategy self = full)).
  - destruct (allowed_domains self) as [|domain rest];
      [now apply elem_of_nil in Hr|].
    apply elem_of_yielded_for_in in Hr as (u & Hu & Hr).
    apply scrapy_Request_inv in Hr as (Hurl & Hcb & Hprio & Hmeta).
    unfold page_type, carried_params. rewrite Hmeta.
    repeat split; try assumption; [now exists u|now exists domain].
  - apply elem_of_yielded_for_in in Hr as (u & Hu & Hr).
    apply scrapy_Request_inv in Hr as (Hurl & Hcb & Hprio & Hmeta).
    unfold page_type, carried_params. rewrite Hmeta.
    repeat split; try assumption. now exists u.
Qed.

Lemma start_requests_all self w :
  (crawl_strategy self = full -> allowed_domains self <> []) ->
  Forall (fun url => accepted url = true) (start_urls self) ->
  raised (start_requests self w) = None
  /\ world (start_requests self w) = w
  /\ Forall2 (fun url r => request_url_for url = Ok (request_url r))
       (start_urls self) (yielded (start_requests self w)).
Proof.
  intros Hdomains Hurls. rewrite start_requests_run.
  assert (forall m,
            let run := for_in (start_urls self) (fun url =>
                         yield (scrapy_Request url parse_navigation_callback 0
                                  m)) w in
            raised run = None /\ world run = w
            /\ Forall2 (fun url r => request_url_for url = Ok (request_url r))
                 (start_urls self) (yielded run)) as Hrun.
  { intros m.
    destruct (for_in_yield_all
                (fun url => scrapy_Request url parse_navigation_callback 0 m)
                (start_urls self) w) as (out & Hout & Hrun).
    { eapply Forall_impl; [exact Hurls|]. intros url Hurl.
      now apply scrapy_Request_accepted. }
    cbv zeta. rewrite Hrun. cbn [raised world yielded].
    split; [reflexivity|]. split; [reflexivity|].
    eapply Forall2_impl; [exact Hout|]. intros url r Hr.
    now apply scrapy_Request_inv in Hr as (? & _). }
  destruct (bool_decide (crawl_strategy self = full)) eqn:Hfull;
    [|apply Hrun].
  apply bool_decide_eq_true in Hfull. specialize (Hdomains Hfull).
  destruct (allowed_domains self); [congruence|apply Hrun].
Qed.

Lemma start_requests_refused self w good bad rest e :
  (crawl_strategy self = full -> allowed_domains self <> []) ->
  start_urls self = good ++ bad :: rest ->
  Forall (fun url => accepted url = true) good ->
  request_url_for bad = Raise e ->
  raised (start_requests self w) = Some e
  /\ world (start_requests self w) = w
  /\ Forall2 (fun url r => request_url_for url = Ok (request_url r))
       good (yielded (start_requests self w)).
Proof.
  intros Hdomains Hurls Hgood Hbad. rewrite start_requests_run, Hurls.
  assert (forall m,
            let run := for_in (good ++ bad :: rest) (fun url =>
                         yield (scrapy_Request url parse_navigation_callback 0
                                  m)) w in
            raised run = Some e /\ world run = w
            /\ Forall2 (fun url r => request_url_for url = Ok (request_url r))
                 good (yielded run)) as Hrun.
  { intros m.
    destruct (for_in_yield_all
                (fun url => scrapy_Request url parse_navigation_callback 0 m)
                good w) as (out & Hout & _).
    { eapply Forall_impl; [exact Hgood|]. intros url Hurl.
      now apply scrapy_Request_accepted. }
    cbv zeta.
    rewrite (for_in_yield_raise
               (fun url => scrapy_Request url parse_navigation_callback 0 m)
               good bad rest e w out Hout
               (scrapy_Request_refused bad _ _ _ e Hbad)).
    cbn [raised world yielded].
    split; [reflexivity|]. split; [reflexivity|].
    eapply Forall2_impl; [exact Hout|]. intros url r Hr.
    now apply scrapy_Request_inv in Hr as (? & _). }
  destruct (bool_decide (crawl_strategy self = full)) eqn:Hfull;
    [|apply Hrun].
  apply bool_decide_eq_true in Hfull. specialize (Hdomains Hfull).
  destruct (allowed_domains self); [congruence|apply Hrun].
Qed.

Lemma crawled_no_params self r :
  crawl_strategy self <> full -> crawled self r -> no_params r.
Proof.
  intros Hs. induction 1 as [w r Hr
                            |parent response nav w r _ IH Hcb Hmeta Hr].
  - apply start_request_shape in Hr as (_ & _ & _ & _ & _ & Hr).
    rewrite bool_decide_eq_false_2 in Hr by exact Hs. now right.
  - apply parse_navigation_yielded in Hr
      as [(c & _ & Hc)|[(next & c & cs & _ & _ & Hc)|(_ & c & _ & Hc)]].
    + left. now apply product_request_shape in Hc.
    + right. now apply nextpage_request_shape in Hc.
    + right. apply subcategory_request_shape in Hc as [Hc _].
      destruct (contains _ _); destruct Hc as [_ ->]; [|reflexivity].
      f_equal. apply or_empty_dict_no_params. rewrite Hmeta. exact IH.
Qed.

(** * The claims *)

(** C1 (amended).  A request tagged [productNavigation-heuristics] carries
    the [PageParams] of the response it was found on, and a request tagged
    [subCategories] carries empty ones, whatever the strategy; under [full]
    the start requests carry the non-empty [full_domain] entry, and so do
    the heuristic requests found on the responses to them; under
    [navigation] and [pagination_only] every subcategory request of the
    crawl carries empty [PageParams]. *)
Theorem subcategory_page_params :
  (forall self response navigation w r,
      r ∈ yielded (parse_navigation self response navigation w) ->
      (page_type r = "productNavigation-heuristics"%string ->
       carried_params r
       = Some (or_empty_dict (meta_page_params (response_meta response))))
      /\ (page_type r = "subCategories"%string ->
          carried_params r = Some ∅))
  /\ (forall self w start,
        crawl_strategy self = full ->
        start ∈ yielded (start_requests self w) ->
        exists domain,
          head (allowed_domains self) = Some domain
          /\ ({[ "full_domain"%string := domain ]} : gmap string str) <> ∅
          /\ carried_params start = Some {[ "full_domain"%string := domain ]}
          /\ forall response navigation w r,
               response_meta response = request_meta start ->
               r ∈ yielded (parse_navigation self response navigation w) ->
               page_type r = "productNavigation-heuristics"%string ->
               carried_params r
               = Some {[ "full_domain"%string := domain ]})
  /\ (forall self r,
        crawl_strategy self <> full ->
        crawled self r -> is_subcategory r = true ->
        carried_params r = Some ∅).
Proof.
  assert (Hfound : forall self response navigation w r,
             r ∈ yielded (parse_navigation self response navigation w) ->
             (page_type r = "productNavigation-heuristics"%string ->
              carried_params r
              = Some (or_empty_dict
                        (meta_page_params (response_meta response))))
             /\ (page_type r = "subCategories"%string ->
                 carried_params r = Some ∅)).
  { intros self response navigation w r Hr.
    apply parse_navigation_yielded in Hr
      as [(c & _ & Hc)|[(next & c & cs & _ & _ & Hc)|(_ & c & _ & Hc)]].
    - apply product_request_shape in Hc as (-> & _). split; discriminate.
    - apply nextpage_request_shape in Hc as (-> & _). split; discriminate.
    - apply subcategory_request_shape in Hc as [Hc _].
      destruct (contains _ _); destruct Hc as [-> ->];
        split; (discriminate || reflexivity). }
  split; [exact Hfound|split].
  - intros self w0 start Hfull Hin.
    apply start_request_shape in Hin as (_ & _ & _ & _ & _ & Hin).
    rewrite bool_decide_eq_true_2 in Hin by exact Hfull.
    destruct Hin as (domain & Hhead & Hparams).
    exists domain.
    assert (Hne : ({[ "full_domain"%string := domain ]} : gmap string str) <> ∅)
      by apply insert_non_empty.
    split; [exact Hhead|]. split; [exact Hne|]. split; [exact Hparams|].
    intros response navigation w r Hmeta Hr Htag.
    rewrite (proj1 (Hfound self response navigation w r Hr) Htag), Hmeta.
    fold (carried_params start). rewrite Hparams.
    cbn [or_empty_dict]. now rewrite bool_decide_eq_false_2.
  - intros self r Hs Hr Hsub.
    destruct (crawled_no_params self r Hs Hr) as [Hnone|Hempty];
      [|exact Hempty].
    exfalso. destruct Hr as [w r Hr
                            |parent response nav w r _ _ _ Hr].
    + apply start_request_shape in Hr as (Ht & _).
      unfold is_subcategory in Hsub. rewrite Ht in Hsub. discriminate Hsub.
    + apply parse_navigation_yielded in Hr
        as [(c & _ & Hc)|[(next & c & cs & _ & _ & Hc)|(_ & c & _ & Hc)]].
      * apply product_request_shape in Hc as (Ht & _).
        unfold is_subcategory in Hsub. rewrite Ht in Hsub. discriminate.
      * apply nextpage_request_shape in Hc as (_ & Hc & _). congruence.
      * apply subcategory_request_shape in Hc as [Hc _].
        destruct (contains _ _); destruct Hc as [_ Hc]; congruence.
Qed.

(** C2.  [parse_product] yields the product when its probability is [None]
    or at least [0.1]; when it is below [0.1] it yields nothing, raises
    nothing, adds exactly 1 to [drop_item/product/low_probability] and
    leaves every other counter alone. *)
Theorem parse_product_threshold self response product w :
  (match product_get_probability product with
   | None => True
   | Some p => (threshold <=? p)%float = true
   end ->
   parse_product self response product w
   = {| yielded := [product]; raised := None; world := w |})
  /\ (forall p,
        product_get_probability product = Some p ->
        (p <? threshold)%float = true ->
        yielded (parse_product self response product w) = []
        /\ raised (parse_product self response product w) = None
        /\ stats (world (parse_product self response product w))
             !! "drop_item/product/low_probability"%string
           = Some (default 0 (stats w !! "drop_item/product/low_probability"%string)
                   + 1)
        /\ (forall key, key <> "drop_item/product/low_probability"%string ->
              stats (world (parse_product self response product w)) !! key
              = stats w !! key)
        /\ logged (world (parse_product self response product w))
           = logged w ++ [IgnoringItem (response_url response) product]).
Proof.
  unfold parse_product. split.
  - destruct (product_get_probability product) as [p|]; [intros ->|];
      reflexivity.
  - intros p -> Hlt. rewrite (ltb_not_leb _ _ Hlt).
    cbn [seq exec inc_value info yielded raised world stats logged app].
    repeat split.
    + apply lookup_insert_eq.
    + intros key Hkey. now apply lookup_insert_ne.
Qed.

(** A product of probability [0.1] is yielded; one of probability [0.0999]
    sets the counter of a fresh crawl to 1. *)
Lemma parse_product_threshold_witness :
  parse_product (shop navigation) (start_response navigation)
    {| product_url := shop_url;
       product_metadata := Some {| probability := Some threshold |} |}
    fresh_world
  = {| yielded := [{| product_url := shop_url;
                      product_metadata :=
                        Some {| probability := Some threshold |} |}];
       raised := None; world := fresh_world |}
  /\ stats (world (parse_product (shop navigation) (start_response navigation)
                     {| product_url := shop_url;
                        product_metadata :=
                          Some {| probability := Some prob_0_0999 |} |}
                     fresh_world))
       !! "drop_item/product/low_probability"%string = Some 1.
Proof.
  split.
  - apply (proj1 (parse_product_threshold _ _ _ _)). reflexivity.
  - apply (proj2 (parse_product_threshold (shop navigation)
                    (start_response navigation) _ fresh_world)
             prob_0_0999); reflexivity.
Defined.

(** C3.  Under [pagination_only] no yielded request is a subcategory
    request; under [full] and [navigation] the subcategory requests yielded
    are, in order, one per subcategory link, on a page whose links can be
    followed: the candidates are of the data model and Scrapy accepts the
    URLs. *)
Theorem strategy_gates_subcategories :
  (forall self response navigation w r,
      crawl_strategy self = pagination_only ->
      r ∈ yielded (parse_navigation self response navigation w) ->
      is_subcategory r = false)
  /\ (forall self response navigation w,
        crawl_strategy self <> pagination_only ->
        Forall (fun c => followable c = true) (default [] (items navigation)) ->
        match nextPage navigation, default [] (items navigation) with
        | Some next, _ :: _ => accepted (url next) = true
        | _, _ => True
        end ->
        Forall (fun c => followable c = true)
               (default [] (subCategories navigation)) ->
        Forall2 (fun c r =>
                   (get_subcategory_request c None
                      (meta_page_params (response_meta response)) None).2
                   = Ok r)
                (default [] (subCategories navigation))
                (List.filter is_subcategory
                   (yielded (parse_navigation self response navigation w)))).
Proof.
  split.
  - intros self response navigation w r Hs Hr.
    apply parse_navigation_yielded in Hr
      as [(c & _ & Hc)|[(next & c & cs & _ & _ & Hc)|(Hne & _)]].
    + apply product_request_shape in Hc as (Ht & _).
      unfold is_subcategory. now rewrite Ht.
    + apply nextpage_request_shape in Hc as (Ht & _).
      unfold is_subcategory. now rewrite Ht.
    + congruence.
  - intros self response navigation w Hs Hitems Hnext Hsubs.
    destruct (parse_navigation_run self response navigation w Hitems Hnext
                Hsubs)
      as (out1 & out2 & out3 & H1 & H2 & H3 & -> & _).
    rewrite bool_decide_eq_true_2 in H3 by exact Hs.
    rewrite !List.filter_app.
    rewrite (filter_none _ out1), (filter_none _ out2), (filter_all _ out3).
    + exact H3.
    + intros r Hr. destruct (Forall2_elem_of_r _ _ _ _ H3 Hr) as (c & _ & Hc).
      now apply subcategory_request_tagged in Hc.
    + intros r Hr. destruct (Forall2_elem_of_r _ _ _ _ H2 Hr) as (c & _ & Hc).
      apply nextpage_request_shape in Hc as (Ht & _).
      unfold is_subcategory. now rewrite Ht.
    + intros r Hr. destruct (Forall2_elem_of_r _ _ _ _ H1 Hr) as (c & _ & Hc).
      apply product_request_shape in Hc as (Ht & _).
      unfold is_subcategory. now rewrite Ht.
Qed.

(** C4.  With no product link and a next-page link, no [nextPage] request is
    yielded and the skip is logged; with product links and a next-page link
    that can be followed (candidates of the data model, URLs that Scrapy
    accepts), exactly one [nextPage] request is yielded, the one built for
    that link. *)
Theorem next_page_needs_products :
  (forall self response navigation w next,
      nextPage navigation = Some next ->
      default [] (items navigation) = [] ->
      (forall r, r ∈ yielded (parse_navigation self response navigation w) ->
                 is_nextpage r = false)
      /\ logged (world (parse_navigation self response navigation w))
         = logged w ++ [IgnoringNextPage next (nav_url navigation)]
      /\ (Forall (fun c => followable c = true)
                 (default [] (subCategories navigation)) ->
          raised (parse_navigation self response navigation w) = None))
  /\ (forall self response navigation w next c cs,
        nextPage navigation = Some next ->
        default [] (items navigation) = c :: cs ->
        Forall (fun c => followable c = true) (c :: cs) ->
        accepted (url next) = true ->
        exists r,
          get_nextpage_request next None None = Ok r
          /\ List.filter is_nextpage
               (yielded (parse_navigation self response navigation w)) = [r]).
Proof.
  split.
  - intros self response navigation w next Hnext Hitems. split; [|split].
    + intros r Hr.
      apply parse_navigation_yielded in Hr
        as [(c & Hin & _)|[(n & c & cs & _ & Hcs & _)|(_ & c & _ & Hc)]].
      * rewrite Hitems in Hin. now apply elem_of_nil in Hin.
      * congruence.
      * now apply subcategory_request_tagged in Hc.
    + unfold parse_navigation. rewrite Hnext, Hitems. cbn [for_in].
      rewrite !seq_run. cbn [pass exec raised yielded world].
      case_bool_decide; [now rewrite world_for_in_yield | reflexivity].
    + intros Hsubs.
      destruct (parse_navigation_run self response navigation w)
        as (_ & _ & _ & _ & _ & _ & _ & Hraised);
        [rewrite Hitems; constructor | now rewrite Hnext, Hitems
        | exact Hsubs | exact Hraised].
  - intros self response navigation w next c cs Hnext Hitems Hwf Hurl.
    destruct (get_nextpage_request_accepted next None None Hurl) as [rn Hrn].
    exists rn. split; [exact Hrn|].
    unfold parse_navigation. rewrite Hnext, Hitems.
    destruct (for_in_yield_all (fun c => get_parse_product_request c None)
                (c :: cs) w) as (out1 & Hout1 & Hrun1).
    { eapply Forall_impl; [exact Hwf|]. intros x Hx.
      now apply get_parse_product_request_well_formed. }
    rewrite seq_run, Hrun1. cbn [raised yielded world].
    rewrite seq_run, Hrn. cbn [yield raised yielded world].
    rewrite !List.filter_app. rewrite (filter_none _ out1).
    + assert (is_nextpage rn = true) as Htag.
      { apply nextpage_request_shape in Hrn as (Ht & _).
        unfold is_nextpage. now rewrite Ht. }
      cbn [List.filter app]. rewrite Htag.
      rewrite filter_none; [reflexivity|].
      intros r Hr. case_bool_decide.
      * apply elem_of_yielded_for_in in Hr as (x & _ & Hx).
        now apply subcategory_request_tagged in Hx.
      * now apply elem_of_nil in Hr.
    + intros r Hr. destruct (Forall2_elem_of_r _ _ _ _ Hout1 Hr) as (x & _ & Hx).
      apply product_request_shape in Hx as (Ht & _).
      unfold is_nextpage. now rewrite Ht.
Qed.

(** C5 (amended).  The priority of a product request is
    [floor(100 * p) + 100] for a probability [p] between 0 and 1, where the
    product is the binary64 one the code computes: it is the floor of the
    exact product plus 100, or one more where rounding the product reaches
    the next integer.  It does not decrease when [p] grows, and it is 100
    when the probability is unknown.  Every request built for the candidate
    has that priority, and one is built when Scrapy accepts the URL. *)
Theorem product_priority :
  (forall request p,
      get_probability request = Some p -> is_probability p = true ->
      exists n k,
        float_floor (100 * p) = Some n
        /\ exact_floor100 p = Some k /\ k <= n <= k + 1
        /\ get_parse_product_request_priority request = Ok (n + 100)
        /\ forall cb,
             (forall r, get_parse_product_request request cb = Ok r ->
                        request_priority r = n + 100)
             /\ (accepted (url request) = true ->
                 exists r, get_parse_product_request request cb = Ok r
                           /\ request_priority r = n + 100))
  /\ (forall request1 request2 p1 p2 n1 n2,
        get_probability request1 = Some p1 -> is_probability p1 = true ->
        get_probability request2 = Some p2 -> is_probability p2 = true ->
        (p1 <=? p2)%float = true ->
        get_parse_product_request_priority request1 = Ok n1 ->
        get_parse_product_request_priority request2 = Ok n2 ->
        n1 <= n2)
  /\ (forall request,
        get_probability request = None ->
        get_parse_product_request_priority request = Ok 100
        /\ forall cb,
             (forall r, get_parse_product_request request cb = Ok r ->
                        request_priority r = 100)
             /\ (accepted (url request) = true ->
                 exists r, get_parse_product_request request cb = Ok r
                           /\ request_priority r = 100)).
Proof.
  assert (Hbuild : forall request cb n,
             get_parse_product_request_priority request = Ok n ->
             (forall r, get_parse_product_request request cb = Ok r ->
                        request_priority r = n)
             /\ (accepted (url request) = true ->
                 exists r, get_parse_product_request request cb = Ok r
                           /\ request_priority r = n)).
  { intros request cb n Hn. split.
    - intros r (_ & _ & _ & Hr)%get_parse_product_request_inv. congruence.
    - now apply get_parse_product_request_built. }
  assert (Hprio : forall request p,
             get_probability request = Some p -> is_probability p = true ->
             exists n, float_floor (100 * p) = Some n
                       /\ int_of_float (100 * p) = Ok n
                       /\ get_parse_product_request_priority request
                          = Ok (n + 100)).
  { intros request p Hp Hprob.
    destruct (int_of_float_mul100 p Hprob) as (n & Hn & Hfloor & _ & Hzero).
    exists n. split; [exact Hfloor|]. split; [exact Hn|].
    rewrite product_priority_unfold, Hp.
    destruct (float_truthy p); [now rewrite Hn|].
    now rewrite (Hzero eq_refl). }
  split; [|split].
  - intros request p Hp Hprob.
    destruct (Hprio request p Hp Hprob) as (n & Hfloor & Hint & Hn).
    destruct (int_of_float_mul100_exact p n Hprob Hint) as (k & Hk & Hkn).
    exists n, k. split; [exact Hfloor|]. split; [exact Hk|].
    split; [exact Hkn|]. split; [exact Hn|].
    intros cb. now apply Hbuild.
  - intros request1 request2 p1 p2 n1 n2 Hp1 Hprob1 Hp2 Hprob2 Hle Hn1 Hn2.
    destruct (Hprio request1 p1 Hp1 Hprob1) as (k1 & _ & Hk1 & Hr1).
    destruct (Hprio request2 p2 Hp2 Hprob2) as (k2 & _ & Hk2 & Hr2).
    pose proof (int_of_float_mul100_mono p1 p2 k1 k2 Hprob1 Hprob2 Hle Hk1 Hk2).
    rewrite Hr1 in Hn1. rewrite Hr2 in Hn2.
    injection Hn1 as <-. injection Hn2 as <-. lia.
  - intros request Hnone.
    assert (Hn : get_parse_product_request_priority request = Ok 100)
      by now rewrite product_priority_unfold, Hnone.
    split; [exact Hn|]. intros cb. now apply Hbuild.
Qed.

(** C6.  A next-page request has priority 100, the pagination bias,
    whatever the candidate and the other arguments are, and it is built
    whenever Scrapy accepts the candidate's URL; so has every [nextPage]
    request [parse_navigation] yields. *)
Theorem nextpage_priority :
  NEXT_PAGE_PRIORITY = 100
  /\ (forall request callback page_params,
        (forall r,
           get_nextpage_request request callback page_params = Ok r ->
           page_type r = "nextPage"%string
           /\ request_priority r = NEXT_PAGE_PRIORITY)
        /\ (accepted (url request) = true ->
            exists r,
              get_nextpage_request request callback page_params = Ok r
              /\ page_type r = "nextPage"%string
              /\ request_priority r = NEXT_PAGE_PRIORITY))
  /\ (forall self response navigation w r,
        r ∈ yielded (parse_navigation self response navigation w) ->
        is_nextpage r = true ->
        request_priority r = NEXT_PAGE_PRIORITY).
Proof.
  split; [reflexivity|]. split.
  - intros request callback page_params.
    assert (forall r,
              get_nextpage_request request callback page_params = Ok r ->
              page_type r = "nextPage"%string
              /\ request_priority r = NEXT_PAGE_PRIORITY) as Hshape.
    { intros r Hr. now apply nextpage_request_shape in Hr as (? & _ & _ & ?). }
    split; [exact Hshape|]. intros Hurl.
    destruct (get_nextpage_request_accepted request callback page_params Hurl)
      as [r Hr].
    exists r. split; [exact Hr|]. now apply Hshape.
  - intros self response navigation w r Hr Hnext.
    apply parse_navigation_yielded in Hr
      as [(c & _ & Hc)|[(next & c & cs & _ & _ & Hc)|(_ & c & _ & Hc)]].
    + apply product_request_shape in Hc as (Ht & _).
      unfold is_nextpage in Hnext. now rewrite Ht in Hnext.
    + now apply nextpage_request_shape in Hc as (_ & _ & _ & ->).
    + apply subcategory_request_tagged in Hc as [_ Hc]. congruence.
Qed.

(** C7 (amended).  The request built for a subcategory candidate, plain or
    heuristic, has priority [floor(100 * p)] when the candidate has a
    probability [p] of the data model, where the product is the binary64
    one the code computes: it is the floor of the exact product, or one
    more where rounding the product reaches the next integer.  It has
    priority 0 when the candidate has no metadata or its probability is
    [None].  A request is built when Scrapy accepts the URL. *)
Theorem subcategory_priority request callback page_params :
  (forall p,
      get_probability request = Some p -> is_probability p = true ->
      exists n k,
        float_floor (100 * p) = Some n
        /\ exact_floor100 p = Some k /\ k <= n <= k + 1
        /\ get_parse_navigation_request_priority request = Ok n
        /\ (forall r,
              (get_subcategory_request request callback page_params None).2
              = Ok r ->
              request_priority r = n)
        /\ (accepted (url request) = true ->
            exists r,
              (get_subcategory_request request callback page_params None).2
              = Ok r
              /\ request_priority r = n))
  /\ (metadata request = None
      \/ (exists md, metadata request = Some md /\ probability md = None) ->
      get_parse_navigation_request_priority request = Ok 0
      /\ (forall r,
            (get_subcategory_request request callback page_params None).2
            = Ok r ->
            request_priority r = 0)
      /\ (accepted (url request) = true ->
          exists r,
            (get_subcategory_request request callback page_params None).2
            = Ok r
            /\ request_priority r = 0)).
Proof.
  assert (Hbuild : forall n,
             get_parse_navigation_request_priority request = Ok n ->
             (forall r,
                (get_subcategory_request request callback page_params None).2
                = Ok r ->
                request_priority r = n)
             /\ (accepted (url request) = true ->
                 exists r,
                   (get_subcategory_request request callback page_params
                      None).2 = Ok r
                   /\ request_priority r = n)).
  { intros n Hn. split.
    - intros r (_ & _ & Hr)%get_subcategory_request_inv. congruence.
    - now apply get_subcategory_request_built. }
  split.
  - intros p Hp Hprob.
    destruct (int_of_float_mul100 p Hprob) as (n & Hn & Hfloor & _).
    destruct (int_of_float_mul100_exact p n Hprob Hn) as (k & Hk & Hkn).
    assert (Hprio : get_parse_navigation_request_priority request = Ok n)
      by now rewrite navigation_priority_unfold, Hp.
    exists n, k. split; [exact Hfloor|]. split; [exact Hk|].
    split; [exact Hkn|]. split; [exact Hprio|]. now apply Hbuild.
  - intros Hnone.
    assert (Hprio : get_parse_navigation_request_priority request = Ok 0).
    { unfold get_parse_navigation_request_priority.
      destruct Hnone as [->|(md & -> & ->)]; reflexivity. }
    split; [exact Hprio | now apply Hbuild].
Qed.

(** C8.  A subcategory candidate whose name contains [[heuristics]] is
    tagged [productNavigation-heuristics]; its name becomes the old one with
    the marker's occurrences deleted and the whitespace at both ends
    stripped, and that is the name the request logs.  A candidate whose name
    lacks the marker is tagged [subCategories] and is left as it was.  In
    both cases the request is built for a candidate that can be followed:
    one of the data model whose URL Scrapy accepts.  The candidate named
    [[heuristics] Shoes] becomes [Shoes]. *)
Theorem heuristics_marker_retagged request callback page_params priority :
  let request_name := or_empty_str (name request) in
  let outcome :=
    get_subcategory_request request callback page_params priority in
  (contains heuristics_marker request_name = true ->
   (exists cleaned,
      removed heuristics_marker request_name cleaned
      /\ name outcome.1 = Some (strip cleaned)
      /\ (forall c t, strip cleaned = c :: t -> isspace c = false)
      /\ (forall c t, strip cleaned = t ++ [c] -> isspace c = false)
      /\ forall r, outcome.2 = Ok r ->
           page_type r = "productNavigation-heuristics"%string
           /\ meta_crawling_logs (request_meta r)
              = LinkLogs (Some (strip cleaned)) (get_probability request)
                  "productNavigation-heuristics")
   /\ (followable request = true -> exists r, outcome.2 = Ok r))
  /\ (contains heuristics_marker request_name = false ->
      outcome.1 = request
      /\ (forall r, outcome.2 = Ok r ->
            page_type r = "subCategories"%string
            /\ meta_crawling_logs (request_meta r)
               = LinkLogs (Some request_name) (get_probability request)
                   "subCategories")
      /\ (followable request = true -> exists r, outcome.2 = Ok r))
  /\ (name request = Some (lit "[heuristics] Shoes") ->
      name outcome.1 = Some (lit "Shoes")).
Proof.
  intros request_name outcome.
  assert (Hwf : followable request = true -> exists r, outcome.2 = Ok r)
    by apply get_subcategory_request_well_formed.
  pose proof (get_subcategory_request_candidate request callback page_params
                priority) as E1.
  pose proof (get_subcategory_request_result request callback page_params
                priority) as E2.
  fold outcome request_name in E1, E2. clearbody outcome.
  split; [|split].
  - intros Hc. rewrite Hc in E1, E2. split; [|exact Hwf].
    exists (replace heuristics_marker [] request_name).
    destruct (strip_spec (replace heuristics_marker [] request_name))
      as (_ & Hfirst & Hlast).
    split; [now apply replace_removed|]. split; [now rewrite E1|].
    split; [exact Hfirst|]. split; [exact Hlast|].
    intros r Hr. rewrite E2, E1 in Hr.
    apply get_parse_navigation_request_inv in Hr as (_ & _ & Hmeta & _).
    unfold page_type. rewrite Hmeta. split; [reflexivity|].
    cbn [meta_crawling_logs name]. now rewrite or_empty_str_Some.
  - intros Hc. rewrite Hc in E1, E2. split; [exact E1|]. split; [|exact Hwf].
    intros r Hr. rewrite E2 in Hr.
    apply get_parse_navigation_request_inv in Hr as (_ & _ & Hmeta & _).
    unfold page_type. rewrite Hmeta. split; reflexivity.
  - intros Hname. rewrite E1. unfold request_name. rewrite Hname. reflexivity.
Qed.

(** C9.  A product request carries [allow_offsite = True] in its [meta]; a
    next-page or subcategory request does not carry the key; among the
    requests [parse_navigation] yields, the marker is on the [product]
    requests and on no other. *)
Theorem allow_offsite_only_for_products :
  (forall request callback r,
      get_parse_product_request request callback = Ok r ->
      meta_allow_offsite (request_meta r) = Some true)
  /\ (forall request callback page_params r,
        get_nextpage_request request callback page_params = Ok r ->
        meta_allow_offsite (request_meta r) = None)
  /\ (forall request callback page_params priority r,
        (get_subcategory_request request callback page_params priority).2
        = Ok r ->
        meta_allow_offsite (request_meta r) = None)
  /\ (forall self response navigation w r,
        r ∈ yielded (parse_navigation self response navigation w) ->
        (meta_allow_offsite (request_meta r) = Some true
         <-> page_type r = "product"%string)).
Proof.
  split; [|split; [|split]].
  - intros request callback r Hr. now apply product_request_shape in Hr.
  - intros request callback page_params r Hr.
    now apply nextpage_request_shape in Hr.
  - intros request callback page_params priority r Hr.
    now apply subcategory_request_shape in Hr.
  - intros self response navigation w r Hr.
    apply parse_navigation_yielded in Hr
      as [(c & _ & Hc)|[(next & c & cs & _ & _ & Hc)|(_ & c & _ & Hc)]].
    + now apply product_request_shape in Hc as (-> & _ & ->).
    + apply nextpage_request_shape in Hc as (-> & _ & -> & _).
      split; discriminate.
    + apply subcategory_request_shape in Hc as [Hc ->].
      destruct (contains _ _); destruct Hc as [-> _]; split; discriminate.
Qed.

(** C10 (amended).  An explicit priority of 0 is not honoured: the request
    is the one built when no priority is given, its priority recomputed
    from the candidate's probability: [floor(100 * p)] for a probability of
    the data model, the product being the binary64 one the code computes
    (the floor of the exact product, or one more), and 0 without a
    probability.  Any other explicit priority is kept.  A request is built
    when Scrapy accepts the URL. *)
Theorem zero_priority_is_recomputed request callback page_params page_type :
  get_parse_navigation_request request callback page_params (Some 0) page_type
  = get_parse_navigation_request request callback page_params None page_type
  /\ get_subcategory_request request callback page_params (Some 0)
     = get_subcategory_request request callback page_params None
  /\ (forall r,
        get_parse_navigation_request request callback page_params (Some 0)
          page_type = Ok r ->
        get_parse_navigation_request_priority request
        = Ok (request_priority r))
  /\ (forall p,
        get_probability request = Some p -> is_probability p = true ->
        exists n k,
          float_floor (100 * p) = Some n
          /\ exact_floor100 p = Some k /\ k <= n <= k + 1
          /\ (forall r,
                get_parse_navigation_request request callback page_params
                  (Some 0) page_type = Ok r ->
                request_priority r = n)
          /\ (accepted (url request) = true ->
              exists r,
                get_parse_navigation_request request callback page_params
                  (Some 0) page_type = Ok r
                /\ request_priority r = n))
  /\ (get_probability request = None ->
      (forall r,
         get_parse_navigation_request request callback page_params (Some 0)
           page_type = Ok r ->
         request_priority r = 0)
      /\ (accepted (url request) = true ->
          exists r,
            get_parse_navigation_request request callback page_params (Some 0)
              page_type = Ok r
            /\ request_priority r = 0))
  /\ (forall n r,
        n <> 0 ->
        get_parse_navigation_request request callback page_params (Some n)
          page_type = Ok r ->
        request_priority r = n).
Proof.
  assert (Hbuild : forall n,
             get_parse_navigation_request_priority request = Ok n ->
             (forall r,
                get_parse_navigation_request request callback page_params
                  (Some 0) page_type = Ok r ->
                request_priority r = n)
             /\ (accepted (url request) = true ->
                 exists r,
                   get_parse_navigation_request request callback page_params
                     (Some 0) page_type = Ok r /\ request_priority r = n)).
  { intros n Hn. split.
    - intros r (_ & _ & _ & Hr)%get_parse_navigation_request_inv.
      rewrite bool_decide_eq_true_2 in Hr by reflexivity. congruence.
    - apply get_parse_navigation_request_built.
      now rewrite bool_decide_eq_true_2. }
  split; [reflexivity|]. split; [reflexivity|]. split; [|split; [|split]].
  - intros r Hr.
    now apply get_parse_navigation_request_inv in Hr as (_ & _ & _ & Hr).
  - intros p Hp Hprob.
    destruct (int_of_float_mul100 p Hprob) as (n & Hn & Hfloor & _).
    destruct (int_of_float_mul100_exact p n Hprob Hn) as (k & Hk & Hkn).
    exists n, k. split; [exact Hfloor|]. split; [exact Hk|].
    split; [exact Hkn|].
    apply Hbuild. now rewrite navigation_priority_unfold, Hp.
  - intros Hnone. apply Hbuild. now rewrite navigation_priority_unfold, Hnone.
  - intros n r Hn Hr.
    apply get_parse_navigation_request_inv in Hr as (_ & _ & _ & Hr).
    now rewrite bool_decide_eq_false_2 in Hr.
Qed.

(** * Further properties

    What the validators of the parameters, [from_crawler] and the callbacks
    do beyond the sentences of the specification: edge cases, errors,
    invariants of the crawl and how the functions compose. *)

(** ** The lines of a text *)

Lemma str_split_nonempty sep s : str_split sep s <> [].
Proof.
  destruct s as [|c s]; simpl; [done|].
  destruct (c =? sep)%N; [done|].
  destruct (str_split sep s); done.
Qed.

Lemma str_split_cons sep c s :
  str_split sep (c :: s) =
  if (c =? sep)%N then [] :: str_split sep s
  else match str_split sep s with
       | piece :: pieces => (c :: piece) :: pieces
       | [] => [[c]]
       end.
Proof. reflexivity. Qed.

Lemma str_join_cons sep piece rest :
  rest <> [] -> str_join sep (piece :: rest) = piece ++ sep ++ str_join sep rest.
Proof. destruct rest; [done|reflexivity]. Qed.

Lemma str_join_split sep s : str_join [sep] (str_split sep s) = s.
Proof.
  induction s as [|c s IH]; [reflexivity|].
  rewrite str_split_cons.
  destruct (N.eqb_spec c sep) as [->|Hne].
  - rewrite str_join_cons by apply str_split_nonempty.
    simpl. by rewrite IH.
  - pose proof (str_split_nonempty sep s) as Hs.
    destruct (str_split sep s) as [|piece pieces]; [done|].
    destruct pieces as [|p ps].
    + simpl in *. by rewrite IH.
    + rewrite str_join_cons by done. rewrite str_join_cons in IH by done.
      simpl. by rewrite <- IH.
Qed.

Lemma str_split_length sep s :
  length (str_split sep s) = S (str_count sep s).
Proof.
  unfold str_count.
  induction s as [|c s IH]; [reflexivity|].
  rewrite str_split_cons. simpl List.filter.
  destruct (c =? sep)%N.
  - simpl. by rewrite IH.
  - pose proof (str_split_nonempty sep s) as Hs.
    destruct (str_split sep s) as [|piece pieces]; [done|]. exact IH.
Qed.

Lemma str_split_pieces sep s :
  Forall (fun piece => sep ∉ piece) (str_split sep s).
Proof.
  induction s as [|c s IH].
  - constructor; [|constructor]. apply not_elem_of_nil.
  - rewrite str_split_cons.
    destruct (N.eqb_spec c sep) as [->|Hne].
    + constructor; [apply not_elem_of_nil|exact IH].
    + destruct (str_split sep s) as [|piece pieces].
      * constructor; [|constructor].
        intros [->%eq_sym|H]%elem_of_cons; [done|by apply not_elem_of_nil in H].
      * inversion IH as [|? ? Hp Hps]; subst. constructor; [|done].
        intros [->%eq_sym|H]%elem_of_cons; done.
Qed.

Lemma str_split_free sep piece :
  sep ∉ piece -> str_split sep piece = [piece].
Proof.
  induction piece as [|c p IH]; intros Hfree; [reflexivity|].
  rewrite str_split_cons.
  destruct (N.eqb_spec c sep) as [->|Hne].
  - exfalso. apply Hfree. left.
  - rewrite IH; [reflexivity|]. intros H. apply Hfree. by right.
Qed.

Lemma str_split_app sep piece s :
  sep ∉ piece ->
  str_split sep (piece ++ sep :: s) = piece :: str_split sep s.
Proof.
  induction piece as [|c p IH]; intros Hfree.
  - simpl. by rewrite N.eqb_refl.
  - change ((c :: p) ++ sep :: s) with (c :: (p ++ sep :: s)).
    rewrite str_split_cons.
    destruct (N.eqb_spec c sep) as [->|Hne].
    + exfalso. apply Hfree. left.
    + rewrite IH; [reflexivity|]. intros H. apply Hfree. by right.
Qed.

Lemma str_split_join sep pieces :
  pieces <> [] -> Forall (fun piece => sep ∉ piece) pieces ->
  str_split sep (str_join [sep] pieces) = pieces.
Proof.
  induction pieces as [|piece rest IH]; [done|].
  intros _ Hfree. inversion Hfree as [|? ? Hp Hrest]; subst.
  destruct rest as [|p ps].
  - simpl. by apply str_split_free.
  - rewrite str_join_cons by done.
    change (piece ++ [sep] ++ str_join [sep] (p :: ps))
      with (piece ++ sep :: str_join [sep] (p :: ps)).
    rewrite str_split_app by done. f_equal. by apply IH.
Qed.

(** X1.  [split_lines] loses nothing: joining the lines it makes of a text
    with newlines gives the text back. *)
Theorem split_lines_join text :
  str_join [newline] (split_lines (UrlsText text)) = text.
Proof. apply str_join_split. Qed.

(** X2.  A text is split into one line more than it has newlines; no line
    holds a newline, and lines are not stripped or dropped. *)
Theorem split_lines_count text :
  length (split_lines (UrlsText text)) = S (str_count newline text)
  /\ Forall (fun line => newline ∉ line) (split_lines (UrlsText text)).
Proof. split; [apply str_split_length|apply str_split_pieces]. Qed.

(** X3.  A non-empty list of lines without newlines and the text that joins
    them with newlines are the same value to [split_lines]. *)
Theorem split_lines_text_or_list lines :
  lines <> [] -> Forall (fun line => newline ∉ line) lines ->
  split_lines (UrlsText (str_join [newline] lines))
  = split_lines (UrlsList lines).
Proof. intros Hne Hfree. by apply str_split_join. Qed.

Lemma split_lines_text_or_list_witness :
  split_lines
    (UrlsText (lit "https://a.example" ++ [newline] ++ lit "https://b.example"))
  = [lit "https://a.example"; lit "https://b.example"].
Proof.
  apply (split_lines_text_or_list
           [lit "https://a.example"; lit "https://b.example"]).
  - done.
  - apply Forall_cons; split; [|apply Forall_cons; split; [|apply Forall_nil_2]];
      apply (bool_decide_unpack _); vm_compute; reflexivity.
Defined.

Lemma lstrip_id s :
  (forall c t, s = c :: t -> isspace c = false) -> lstrip s = s.
Proof.
  destruct s as [|c t]; [done|]. intros H. simpl. by rewrite (H c t).
Qed.

Lemma strip_idempotent s : strip (strip s) = strip s.
Proof.
  destruct (strip_spec s) as (_ & Hhead & Hlast).
  unfold strip at 1. rewrite (lstrip_id (strip s)) by exact Hhead.
  unfold rstrip. rewrite lstrip_id; [apply reverse_involutive|].
  intros c t Hrev. apply (Hlast c (reverse t)).
  rewrite <- (reverse_involutive (strip s)), Hrev.
  by rewrite reverse_cons.
Qed.

Section UrlList.
Variable matches_url_pattern : str -> bool.

Lemma validate_url_loop lines result warnings :
  fold_left (validate_url_step matches_url_pattern) lines (result, warnings)
  = (result
     ++ List.filter (fun u => bool_decide (u <> []) && matches_url_pattern u)
          (strip <$> lines),
     warnings
     ++ List.filter
          (fun u => bool_decide (u <> []) && negb (matches_url_pattern u))
          (strip <$> lines)).
Proof.
  revert result warnings.
  induction lines as [|v lines IH]; intros result warnings.
  - simpl. by rewrite !app_nil_r.
  - cbn [fold_left]. rewrite fmap_cons. cbn [List.filter].
    assert (validate_url_step matches_url_pattern (result, warnings) v
            = match strip v with
              | [] => (result, warnings)
              | _ :: _ =>
                  if negb (matches_url_pattern (strip v))
                  then (result, warnings ++ [strip v])
                  else (result ++ [strip v], warnings)
              end) as -> by reflexivity.
    destruct (strip v) as [|c u] eqn:Hv.
    + simpl. apply IH.
    + rewrite (bool_decide_eq_true_2 (c :: u <> [])) by done. simpl andb.
      destruct (matches_url_pattern (c :: u)); simpl negb; cbv iota;
        rewrite IH; by rewrite <- app_assoc.
Qed.

Lemma validate_url_list_unfold value :
  validate_url_list matches_url_pattern (Some value) =
  match split_lines value with
  | [] => (Ok (Some []), [])
  | _ :: _ =>
      (match List.filter
               (fun u => bool_decide (u <> []) && matches_url_pattern u)
               (strip <$> split_lines value) with
       | [] => Raise ValueError
       | u :: urls => Ok (Some (u :: urls))
       end,
       List.filter
         (fun u => bool_decide (u <> []) && negb (matches_url_pattern u))
         (strip <$> split_lines value))
  end.
Proof.
  unfold validate_url_list.
  change (match value with
          | UrlsText text => str_split newline text
          | UrlsList lines => lines
          end) with (split_lines value).
  destruct (split_lines value) as [|v lines]; [reflexivity|].
  rewrite validate_url_loop. rewrite !app_nil_l.
  generalize (List.filter
                (fun u => bool_decide (u <> []) && matches_url_pattern u)
                (strip <$> v :: lines)).
  by intros [|u urls].
Qed.

End UrlList.

Lemma validate_url_list_kept_ok matches_url_pattern (lines : list str) :
  Forall (fun u => u <> [] /\ strip u = u /\ matches_url_pattern u = true)
    (List.filter (fun u => bool_decide (u <> []) && matches_url_pattern u)
       (strip <$> lines)).
Proof.
  apply Forall_forall. intros u Hu.
  apply list_elem_of_In, filter_In in Hu as [Hin Hok].
  apply andb_true_iff in Hok as [Hne%bool_decide_eq_true Hm].
  apply list_elem_of_In, list_elem_of_fmap in Hin as (v & -> & _).
  split; [done|]. split; [apply strip_idempotent|done].
Qed.

(** X4.  What [validate_url_list] returns are the lines of its input,
    stripped, that are not blank and match the URL pattern, in the order of
    the input; what it warns about are the other lines that are not blank.
    So every URL returned is non-empty, has no white space around it and
    matches the pattern. *)
Theorem validate_url_list_keeps matches_url_pattern value urls warnings :
  validate_url_list matches_url_pattern (Some value)
  = (Ok (Some urls), warnings) ->
  urls = List.filter (fun u => bool_decide (u <> []) && matches_url_pattern u)
           (strip <$> split_lines value)
  /\ warnings
     = List.filter
         (fun u => bool_decide (u <> []) && negb (matches_url_pattern u))
         (strip <$> split_lines value)
  /\ Forall (fun u => u <> [] /\ strip u = u /\ matches_url_pattern u = true)
       urls.
Proof.
  rewrite validate_url_list_unfold.
  destruct (split_lines value) as [|v lines] eqn:Hlines.
  - intros [= <- <-]. done.
  - pose proof (validate_url_list_kept_ok matches_url_pattern (v :: lines))
      as Hok.
    destruct (List.filter _ _) as [|u us] eqn:Hf at 1; [done|].
    rewrite Hf in Hok. intros [= <- <-]. by rewrite Hf.
Qed.

Lemma validate_url_list_keeps_witness :
  [lit "https://a.example"; lit "http://b.example/c"]
  = List.filter (fun u => bool_decide (u <> []) && example_pattern u)
      (strip <$> split_lines example_urls)
  /\ [lit "ftp://d.example"]
     = List.filter
         (fun u => bool_decide (u <> []) && negb (example_pattern u))
         (strip <$> split_lines example_urls)
  /\ Forall (fun u => u <> [] /\ strip u = u /\ example_pattern u = true)
       [lit "https://a.example"; lit "http://b.example/c"].
Proof.
  apply (validate_url_list_keeps example_pattern example_urls
           [lit "https://a.example"; lit "http://b.example/c"]
           [lit "ftp://d.example"]).
  vm_compute. reflexivity.
Defined.

(** X5.  [validate_url_list] raises [ValueError] exactly when it is given at
    least one line and every line is blank or fails the URL pattern; so it
    raises on the empty text, whose only line is empty. *)
Theorem validate_url_list_raises matches_url_pattern value :
  (validate_url_list matches_url_pattern (Some value)).1 = Raise ValueError
  <-> split_lines value <> []
      /\ Forall (fun line => strip line = []
                             \/ matches_url_pattern (strip line) = false)
           (split_lines value).
Proof.
  rewrite validate_url_list_unfold.
  destruct (split_lines value) as [|v lines] eqn:Hlines.
  - cbn [fst]. split; [intros [=]|]. by intros [? _].
  - cbn [fst].
    pose (ok := fun u : str => bool_decide (u <> []) && matches_url_pattern u).
    change (List.filter _ (strip <$> v :: lines))
      with (List.filter ok (strip <$> v :: lines)).
    destruct (List.filter ok (strip <$> v :: lines)) as [|u us] eqn:Hf.
    + split; [intros _|done]. split; [done|].
      apply Forall_forall. intros line Hline.
      assert (ok (strip line) = false) as Hno.
      { destruct (ok (strip line)) eqn:Hok; [|done].
        assert (In (strip line) (List.filter ok (strip <$> v :: lines))) as Hin.
        { apply filter_In. split; [|done].
          apply list_elem_of_In, list_elem_of_fmap. eauto. }
        by rewrite Hf in Hin. }
      unfold ok in Hno. apply andb_false_iff in Hno as [Hb|Hm]; [|by right].
      left. apply bool_decide_eq_false in Hb.
      by destruct (strip line); [|exfalso; apply Hb].
    + split; [done|]. intros [_ Hall]. exfalso.
      assert (In u (List.filter ok (strip <$> v :: lines))) as Hin
        by (rewrite Hf; left; done).
      apply filter_In in Hin as [Hin Hok].
      apply list_elem_of_In, list_elem_of_fmap in Hin as (line & -> & Hline).
      rewrite Forall_forall in Hall. specialize (Hall line Hline).
      unfold ok in Hok. apply andb_true_iff in Hok as [Hne%bool_decide_eq_true Hm].
      destruct Hall as [H|H]; [done|congruence].
Qed.

(** X6.  A missing value is returned as [None] and the empty list as the
    empty list, both without a warning; every other value, a text or a list
    with a line in it, either raises [ValueError] or gives at least one
    URL.  So the empty list is the only value [validate_url_list] answers
    with an empty list. *)
Theorem validate_url_list_empty matches_url_pattern value :
  match value with
  | None => validate_url_list matches_url_pattern value = (Ok None, [])
  | Some (UrlsList []) =>
      validate_url_list matches_url_pattern value = (Ok (Some []), [])
  | Some _ =>
      (validate_url_list matches_url_pattern value).1 = Raise ValueError
      \/ exists url urls,
           (validate_url_list matches_url_pattern value).1
           = Ok (Some (url :: urls))
  end
  /\ ((validate_url_list matches_url_pattern value).1 = Ok (Some [])
      <-> value = Some (UrlsList [])).
Proof.
  destruct value as [value|]; [|done].
  assert (split_lines value <> [] ->
          ((validate_url_list matches_url_pattern (Some value)).1
           = Raise ValueError
           \/ exists url urls,
                (validate_url_list matches_url_pattern (Some value)).1
                = Ok (Some (url :: urls)))
          /\ (validate_url_list matches_url_pattern (Some value)).1
             <> Ok (Some [])) as Hlines.
  { rewrite validate_url_list_unfold.
    destruct (split_lines value) as [|v lines]; [done|]. intros _.
    cbn [fst]. destruct (List.filter _ _) as [|u us]; [by split; [left|]|].
    split; [right; by exists u, us|done]. }
  destruct value as [text|[|line lines]].
  - destruct Hlines as [Hcase Hne]; [apply str_split_nonempty|].
    split; [exact Hcase|]. split; [done|]. by intros [=].
  - done.
  - destruct Hlines as [Hcase Hne]; [done|].
    split; [exact Hcase|]. split; [done|]. by intros [=].
Qed.

(** X7.  [validate_url_list] accepts its own answers: the list of URLs it
    returns is returned as it is when validated again, with no warning. *)
Theorem validate_url_list_idempotent matches_url_pattern value urls warnings :
  validate_url_list matches_url_pattern (Some value)
  = (Ok (Some urls), warnings) ->
  validate_url_list matches_url_pattern (Some (UrlsList urls))
  = (Ok (Some urls), []).
Proof.
  intros Hrun.
  assert (Forall (fun u => u <> [] /\ strip u = u
                           /\ matches_url_pattern u = true) urls) as Hok.
  { revert Hrun. rewrite validate_url_list_unfold.
    destruct (split_lines value) as [|v lines] eqn:Hlines.
    - intros [= <- <-]. done.
    - pose proof (validate_url_list_kept_ok matches_url_pattern (v :: lines))
        as Hok.
      destruct (List.filter _ _) as [|u us] eqn:Hf at 1; [done|].
      rewrite Hf in Hok. by intros [= <- <-]. }
  rewrite validate_url_list_unfold. cbn [split_lines].
  rewrite Forall_forall in Hok.
  assert (strip <$> urls = urls) as ->.
  { clear Hrun. induction urls as [|u us IH]; [done|].
    rewrite fmap_cons. f_equal.
    - apply (Hok u). left.
    - apply IH. intros x Hx. apply Hok. by right. }
  rewrite filter_all, filter_none.
  - by destruct urls.
  - intros u Hu. destruct (Hok u Hu) as (_ & _ & ->).
    simpl. apply andb_false_r.
  - intros u Hu. destruct (Hok u Hu) as (Hne & _ & ->).
    by rewrite bool_decide_eq_true_2.
Qed.

Lemma validate_url_list_idempotent_witness :
  validate_url_list example_pattern
    (Some (UrlsList [lit "https://a.example"; lit "http://b.example/c"]))
  = (Ok (Some [lit "https://a.example"; lit "http://b.example/c"]), []).
Proof.
  apply (validate_url_list_idempotent example_pattern example_urls
           [lit "https://a.example"; lit "http://b.example/c"]
           [lit "ftp://d.example"]).
  vm_compute. reflexivity.
Defined.

(** X8.  [validate_input_group] returns the model, unchanged, when exactly one
    of [url], [urls] and [urls_file] is given, and raises [ValueError]
    otherwise; a parameter that is missing, [None], the empty string or the
    empty list is not given. *)
Theorem validate_input_group_exactly_one model :
  validate_input_group model =
  if bool_decide
       (Nat.b2n (bool_decide (default [] (model_url model) <> []))
        + Nat.b2n (bool_decide (default [] (model_urls model) <> []))
        + Nat.b2n (bool_decide (default [] (model_urls_file model) <> []))
        = 1)%nat
  then Ok model else Raise ValueError.
Proof.
  destruct model as [[[|? ?]|] [[|? ?]|] [[|? ?]|]]; vm_compute; reflexivity.
Qed.

(** X9.  For the spider [from_crawler] builds, the allowed domains are
    the domains of the start URLs.  Without a start URL [start_requests]
    yields nothing, and raises [IndexError] under [full] only.  With start
    URLs, every start request carries the domain of the first start URL
    under [full] and empty parameters otherwise, and its URL is Scrapy's
    for one of the start URLs; there is one request per start URL, in
    order, when Scrapy accepts them all, and at the first URL it refuses
    the generator ends with Scrapy's exception, the requests for the URLs
    before it yielded. *)
Theorem from_crawler_start_requests get_domain ARG_SETTING_PRIORITY args
    provider_params w :
  let self := (from_crawler get_domain ARG_SETTING_PRIORITY args
                 provider_params).1 in
  crawl_strategy self = args_crawl_strategy args
  /\ allowed_domains self = get_domain <$> start_urls self
  /\ (start_urls self = [] ->
      start_requests self w
      = {| yielded := [];
           raised := if bool_decide (args_crawl_strategy args = full)
                     then Some IndexError else None;
           world := w |})
  /\ (forall first rest,
        start_urls self = first :: rest ->
        (forall r,
           r ∈ yielded (start_requests self w) ->
           carried_params r
           = Some (if bool_decide (args_crawl_strategy args = full)
                   then {[ "full_domain"%string := get_domain first ]}
                   else ∅)
           /\ exists url, url ∈ start_urls self
                          /\ request_url_for url = Ok (request_url r))
        /\ (Forall (fun url => accepted url = true) (start_urls self) ->
            raised (start_requests self w) = None
            /\ Forall2 (fun url r => request_url_for url = Ok (request_url r))
                 (start_urls self) (yielded (start_requests self w)))
        /\ (forall good bad after e,
              start_urls self = good ++ bad :: after ->
              Forall (fun url => accepted url = true) good ->
              request_url_for bad = Raise e ->
              raised (start_requests self w) = Some e
              /\ Forall2 (fun url r =>
                            request_url_for url = Ok (request_url r))
                   good (yielded (start_requests self w)))).
Proof.
  intros self. split; [reflexivity|]. split; [reflexivity|].
  assert (allowed_domains self = get_domain <$> start_urls self) as Hdomains
    by reflexivity.
  assert (crawl_strategy self = args_crawl_strategy args) as Hstrategy
    by reflexivity.
  clearbody self. split.
  - intros Hnone. rewrite start_requests_run, Hdomains, Hnone, Hstrategy.
    now destruct (bool_decide (args_crawl_strategy args = full)).
  - intros first rest Hurls.
    assert (crawl_strategy self = full -> allowed_domains self <> []) as Hne
      by (intros _; now rewrite Hdomains, Hurls).
    split; [|split].
    + intros r Hr.
      apply start_request_shape in Hr as (_ & _ & _ & _ & Hurl & Hparams).
      split; [|exact Hurl]. rewrite Hstrategy in Hparams.
      destruct (bool_decide (args_crawl_strategy args = full));
        [|exact Hparams].
      destruct Hparams as (domain & Hhead & ->).
      rewrite Hdomains, Hurls in Hhead. now injection Hhead as <-.
    + intros Hall.
      now destruct (start_requests_all self w Hne Hall) as (? & _ & ?).
    + intros good bad after e Hsplit Hgood Hbad.
      now destruct (start_requests_refused self w good bad after e Hne Hsplit
                      Hgood Hbad) as (? & _ & ?).
Qed.

(** X10.  When [extract_from] is given, [from_crawler] writes
    [ZYTE_API_PROVIDER_PARAMS] at the priority of arguments: every entry the
    setting had is kept as it was, [productOptions] and
    [productNavigationOptions] are set to [extract_from] only where the
    setting had no such entry, and no other entry is added.  When it is not
    given, no setting is written. *)
Theorem from_crawler_provider_params get_domain ARG_SETTING_PRIORITY args
    provider_params :
  match args_extract_from args with
  | None =>
      (from_crawler get_domain ARG_SETTING_PRIORITY args provider_params).2
      = None
  | Some extract_from =>
      exists update,
        (from_crawler get_domain ARG_SETTING_PRIORITY args provider_params).2
        = Some update
        /\ setting_name update = "ZYTE_API_PROVIDER_PARAMS"%string
        /\ setting_priority update = ARG_SETTING_PRIORITY
        /\ forall key,
             setting_value update !! key =
             match default ∅ provider_params !! key with
             | Some v => Some v
             | None =>
                 if bool_decide (key = "productOptions"%string
                                 \/ key = "productNavigationOptions"%string)
                 then Some (ExtractFromOptions extract_from)
                 else None
             end
  end.
Proof.
  unfold from_crawler. cbn [snd].
  destruct (args_extract_from args) as [e|]; [|reflexivity].
  eexists. split; [reflexivity|]. split; [reflexivity|]. split; [reflexivity|].
  intros key. cbn [setting_value].
  destruct (default ∅ provider_params !! key) as [v|] eqn:Hkey.
  - by apply lookup_union_Some_l.
  - rewrite lookup_union_r by done.
    destruct (decide (key = "productOptions"%string)) as [->|H1].
    { rewrite lookup_insert_eq. by rewrite bool_decide_eq_true_2 by by left. }
    rewrite lookup_insert_ne by done.
    destruct (decide (key = "productNavigationOptions"%string)) as [->|H2].
    { rewrite lookup_singleton_eq.
      by rewrite bool_decide_eq_true_2 by by right. }
    rewrite lookup_singleton_ne by done.
    rewrite bool_decide_eq_false_2; [done|]. by intros [?|?].
Qed.

(** X11.  The experimental spider, given its URLs as a text, takes every
    line as a start URL, blank lines included and nothing stripped: one
    more than the text has newlines.  [start_requests] yields one request
    per line when Scrapy accepts every line; at the first line Scrapy
    refuses, as it does a URL without a scheme, the generator ends with
    Scrapy's exception, the requests for the lines before it yielded. *)
Theorem experimental_start_requests get_domain ARG_SETTING_PRIORITY text
    strategy extract_from provider_params w :
  let self :=
    (from_crawler get_domain ARG_SETTING_PRIORITY
       {| args_url := None;
          args_urls := split_lines (UrlsText text);
          args_crawl_strategy := strategy;
          args_extract_from := extract_from |} provider_params).1 in
  start_urls self = split_lines (UrlsText text)
  /\ length (start_urls self) = S (str_count newline text)
  /\ (Forall (fun url => accepted url = true) (start_urls self) ->
      raised (start_requests self w) = None
      /\ Forall2 (fun url r => request_url_for url = Ok (request_url r))
           (start_urls self) (yielded (start_requests self w)))
  /\ (forall good bad after e,
        split_lines (UrlsText text) = good ++ bad :: after ->
        Forall (fun url => accepted url = true) good ->
        request_url_for bad = Raise e ->
        raised (start_requests self w) = Some e
        /\ Forall2 (fun url r => request_url_for url = Ok (request_url r))
             good (yielded (start_requests self w))).
Proof.
  intros self.
  assert (start_urls self = split_lines (UrlsText text)) as Hurls
    by reflexivity.
  assert (allowed_domains self = get_domain <$> start_urls self) as Hdomains
    by reflexivity.
  clearbody self.
  assert (crawl_strategy self = full -> allowed_domains self <> []) as Hne.
  { intros _. rewrite Hdomains, Hurls. cbn [split_lines].
    pose proof (str_split_nonempty newline text).
    now destruct (str_split newline text). }
  split; [exact Hurls|]. split; [|split].
  - rewrite Hurls. apply str_split_length.
  - intros Hall.
    now destruct (start_requests_all self w Hne Hall) as (? & _ & ?).
  - intros good bad after e Hsplit Hgood Hbad. rewrite <- Hurls in Hsplit.
    now destruct (start_requests_refused self w good bad after e Hne Hsplit
                    Hgood Hbad) as (? & _ & ?).
Qed.

(** X12.  A model that has [urls] only, once [validate_url_list] has accepted
    the value: [validate_input_group] rejects it when [urls] was missing or
    the empty list, and accepts it in every other case, a text included. *)
Theorem urls_only_model matches_url_pattern value urls warnings :
  validate_url_list matches_url_pattern value = (Ok urls, warnings) ->
  validate_input_group
    {| model_url := None; model_urls := urls; model_urls_file := None |}
  = match value with
    | None | Some (UrlsList []) => Raise ValueError
    | Some _ =>
        Ok {| model_url := None; model_urls := urls; model_urls_file := None |}
    end.
Proof.
  destruct value as [value|]; [|by intros [= <- <-]].
  rewrite validate_url_list_unfold.
  destruct (split_lines value) as [|v lines] eqn:Hlines.
  - destruct value as [text|[|? ?]]; simpl in Hlines; try done.
    + by apply str_split_nonempty in Hlines.
    + by intros [= <- <-].
  - generalize (List.filter
                  (fun u => bool_decide (u <> []) && matches_url_pattern u)
                  (strip <$> v :: lines)).
    intros [|u us]; [done|]. intros [= <- <-].
    destruct value as [text|[|? ?]]; simpl in Hlines; try done.
Qed.

Lemma urls_only_model_witness :
  validate_input_group
    {| model_url := None;
       model_urls := Some [lit "https://a.example"; lit "http://b.example/c"];
       model_urls_file := None |}
  = Ok {| model_url := None;
          model_urls := Some [lit "https://a.example"; lit "http://b.example/c"];
          model_urls_file := None |}.
Proof.
  apply (urls_only_model example_pattern (Some example_urls)
           (Some [lit "https://a.example"; lit "http://b.example/c"])
           [lit "ftp://d.example"]).
  vm_compute. reflexivity.
Defined.

(** ** The bands of the priorities *)

Lemma SFcompare_refl x : x <> S754_nan -> SFcompare x x = Some Eq.
Proof.
  destruct x as [[]|[]| |[] m e]; try done; intros _;
    cbv beta iota delta [SFcompare]; rewrite Z.compare_refl;
    change (Pos.compare_cont Eq m m) with (m ?= m)%positive;
    by rewrite Pos.compare_refl.
Qed.

Lemma is_nan_Prim2SF p : is_nan p = true -> Prim2SF p = S754_nan.
Proof.
  unfold is_nan. rewrite FloatAxioms.eqb_spec. unfold SFeqb. intros H.
  destruct (Prim2SF p) as [s|s| |s m e]; [| |done|];
    by rewrite SFcompare_refl in H.
Qed.

Lemma is_infinity_Prim2SF p :
  is_infinity p = true -> exists s, Prim2SF p = S754_infinity s.
Proof.
  unfold is_infinity. rewrite FloatAxioms.eqb_spec, FloatAxioms.abs_spec.
  change (Prim2SF infinity) with (S754_infinity false).
  destruct (Prim2SF p) as [s|s| |s m e]; try discriminate; eauto.
Qed.

Lemma int_of_float_mul100_nan p :
  Prim2SF p = S754_nan -> int_of_float (100 * p) = Raise ValueError.
Proof.
  intros H. unfold int_of_float.
  by rewrite FloatAxioms.mul_spec, Prim2SF_100, H.
Qed.

Lemma int_of_float_mul100_infinity p s :
  Prim2SF p = S754_infinity s -> int_of_float (100 * p) = Raise OverflowError.
Proof.
  intros H. unfold int_of_float.
  by rewrite FloatAxioms.mul_spec, Prim2SF_100, H.
Qed.

Lemma float_truthy_not_finite p :
  Prim2SF p = S754_nan \/ (exists s, Prim2SF p = S754_infinity s) ->
  float_truthy p = true.
Proof.
  unfold float_truthy. rewrite FloatAxioms.eqb_spec, Prim2SF_0.
  intros [->|[[] ->]]; reflexivity.
Qed.

Lemma is_probability_one : is_probability 1 = true.
Proof. reflexivity. Qed.

Lemma int_of_float_100 : int_of_float (100 * 1) = Ok 100.
Proof. reflexivity. Qed.

Lemma int_of_float_mul100_le p n :
  is_probability p = true -> int_of_float (100 * p) = Ok n -> n <= 100.
Proof.
  intros Hp Hn.
  apply (int_of_float_mul100_mono p 1 n 100);
    [exact Hp|exact is_probability_one| |exact Hn|exact int_of_float_100].
  unfold is_probability in Hp. by apply andb_true_iff in Hp as [_ ?].
Qed.

(** X13.  For a candidate of the data model both priority functions return:
    the navigation priority lies between 0 and 100, and the product priority
    is the navigation priority plus 100, so between 100 and 200.  A product
    request is never ranked below a next-page request (100), and a
    subcategory request never above it. *)
Theorem priority_bands request :
  well_formed request = true ->
  exists n,
    get_parse_navigation_request_priority request = Ok n
    /\ get_parse_product_request_priority request = Ok (n + 100)
    /\ 0 <= n <= 100.
Proof.
  unfold well_formed.
  rewrite navigation_priority_unfold, product_priority_unfold.
  destruct (get_probability request) as [p|]; [|intros _; exists 0; by repeat split].
  intros Hp.
  destruct (int_of_float_mul100 p Hp) as (n & Hn & _ & Hpos & Hzero).
  exists n. split; [exact Hn|]. split.
  - destruct (float_truthy p).
    + by rewrite Hn.
    + by rewrite Hzero.
  - split; [exact Hpos|]. by apply (int_of_float_mul100_le p).
Qed.

Lemma priority_bands_witness :
  exists n,
    get_parse_navigation_request_priority
      (candidate "https://shop.example/p/1" "Boot" (Some prob_0_8)) = Ok n
    /\ get_parse_product_request_priority
         (candidate "https://shop.example/p/1" "Boot" (Some prob_0_8))
       = Ok (n + 100)
    /\ 0 <= n <= 100.
Proof.
  apply (priority_bands
           (candidate "https://shop.example/p/1" "Boot" (Some prob_0_8))).
  reflexivity.
Defined.

(** X14.  A probability that is no number makes both priority functions
    raise: [ValueError] for NaN, [OverflowError] for an infinity.  The
    next-page request is built all the same when Scrapy accepts the URL,
    with priority 100, since its priority is given. *)
Theorem priority_of_non_number request p :
  get_probability request = Some p ->
  is_nan p = true \/ is_infinity p = true ->
  get_parse_navigation_request_priority request
  = Raise (if is_nan p then ValueError else OverflowError)
  /\ get_parse_product_request_priority request
     = Raise (if is_nan p then ValueError else OverflowError)
  /\ (accepted (url request) = true ->
      exists r, get_nextpage_request request None None = Ok r
                /\ request_priority r = 100).
Proof.
  intros Hprob Hp.
  rewrite navigation_priority_unfold, product_priority_unfold, Hprob.
  assert (float_truthy p = true) as ->.
  { apply float_truthy_not_finite.
    destruct Hp as [?%is_nan_Prim2SF|?%is_infinity_Prim2SF]; eauto. }
  assert (int_of_float (100 * p)
          = Raise (if is_nan p then ValueError else OverflowError)) as ->.
  { destruct Hp as [Hnan|Hinf].
    - rewrite Hnan. by apply int_of_float_mul100_nan, is_nan_Prim2SF.
    - destruct (is_infinity_Prim2SF p Hinf) as [s Hs].
      assert (is_nan p = false) as ->.
      { unfold is_nan. rewrite FloatAxioms.eqb_spec, Hs. by destruct s. }
      by apply (int_of_float_mul100_infinity p s). }
  split; [done|]. split; [done|]. intros Hurl.
  destruct (get_nextpage_request_accepted request None None Hurl) as [r Hr].
  exists r. split; [exact Hr|].
  by apply nextpage_request_shape in Hr as (_ & _ & _ & ?).
Qed.

(** X15.  A higher probability never gives a lower priority: of two
    candidates of the data model, the one with the larger probability gets a
    navigation priority and a product priority at least as large. *)
Theorem priority_monotone c1 c2 p q :
  get_probability c1 = Some p -> get_probability c2 = Some q ->
  is_probability p = true -> is_probability q = true ->
  (p <=? q)%float = true ->
  exists n m,
    get_parse_navigation_request_priority c1 = Ok n
    /\ get_parse_navigation_request_priority c2 = Ok m
    /\ get_parse_product_request_priority c1 = Ok (n + 100)
    /\ get_parse_product_request_priority c2 = Ok (m + 100)
    /\ n <= m.
Proof.
  intros H1 H2 Hp Hq Hle.
  rewrite !navigation_priority_unfold, !product_priority_unfold, H1, H2.
  destruct (int_of_float_mul100 p Hp) as (n & Hn & _ & _ & Hn0).
  destruct (int_of_float_mul100 q Hq) as (m & Hm & _ & _ & Hm0).
  exists n, m. split; [exact Hn|]. split; [exact Hm|].
  split; [|split].
  - destruct (float_truthy p); [by rewrite Hn|by rewrite Hn0].
  - destruct (float_truthy q); [by rewrite Hm|by rewrite Hm0].
  - by apply (int_of_float_mul100_mono p q).
Qed.

Lemma priority_monotone_witness :
  exists n m,
    get_parse_navigation_request_priority
      (candidate "https://shop.example/p/2" "Lace" (Some prob_0_05)) = Ok n
    /\ get_parse_navigation_request_priority
         (candidate "https://shop.example/p/1" "Boot" (Some prob_0_8)) = Ok m
    /\ get_parse_product_request_priority
         (candidate "https://shop.example/p/2" "Lace" (Some prob_0_05))
       = Ok (n + 100)
    /\ get_parse_product_request_priority
         (candidate "https://shop.example/p/1" "Boot" (Some prob_0_8))
       = Ok (m + 100)
    /\ n <= m.
Proof.
  apply (priority_monotone
           (candidate "https://shop.example/p/2" "Lace" (Some prob_0_05))
           (candidate "https://shop.example/p/1" "Boot" (Some prob_0_8))
           prob_0_05 prob_0_8); reflexivity.
Defined.

(** ** The callbacks, link by link *)

Lemma product_request_route request r :
  get_parse_product_request request None = Ok r ->
  request_url_for (url request) = Ok (request_url r)
  /\ request_callback r = parse_product_callback.
Proof.
  by intros (? & ? & _)%get_parse_product_request_inv.
Qed.

Lemma nextpage_request_route request r :
  get_nextpage_request request None None = Ok r ->
  request_url_for (url request) = Ok (request_url r)
  /\ request_callback r = parse_navigation_callback.
Proof.
  rewrite get_nextpage_request_run. unfold to_scrapy.
  by intros (? & ? & _)%scrapy_Request_inv.
Qed.

Lemma subcategory_request_route request pp r :
  (get_subcategory_request request None pp None).2 = Ok r ->
  request_url_for (url request) = Ok (request_url r)
  /\ request_callback r = parse_navigation_callback
  /\ page_type r = subcategory_tag request.
Proof.
  intros Hr.
  pose proof (subcategory_request_shape _ _ _ _ _ Hr) as [Hshape _].
  apply get_subcategory_request_inv in Hr as (Hurl & Hcb & _).
  split; [exact Hurl|]. split; [exact Hcb|].
  unfold subcategory_tag.
  by destruct (contains heuristics_marker (or_empty_str (name request)));
    destruct Hshape as [-> _].
Qed.

Lemma Forall2_fmap_eq {A B C} (P : A -> B -> Prop) (f : B -> C) (g : A -> C)
    l out :
  Forall2 P l out -> (forall a b, P a b -> f b = g a) ->
  f <$> out = g <$> l.
Proof.
  intros H Hfg. induction H as [|a b l out Hab _ IH]; [done|].
  rewrite !fmap_cons. f_equal; [by apply Hfg|exact IH].
Qed.

(** X16.  On a page whose links can be followed (product and subcategory
    candidates of the data model, URLs that Scrapy accepts),
    [parse_navigation] raises nothing and yields one request per link it
    follows, in this order: the product links, the next-page link, the
    subcategory links, each in the order of the page; the request has
    Scrapy's URL for the URL of its link, and the page type of its link. *)
Theorem parse_navigation_follows self response navigation w :
  Forall (fun c => followable c = true) (default [] (items navigation)) ->
  match nextPage navigation, default [] (items navigation) with
  | Some next, _ :: _ => accepted (url next) = true
  | _, _ => True
  end ->
  Forall (fun c => followable c = true)
         (default [] (subCategories navigation)) ->
  raised (parse_navigation self response navigation w) = None
  /\ Forall2 (fun c r => request_url_for (url c) = Ok (request_url r))
       (followed_links (crawl_strategy self) navigation)
       (yielded (parse_navigation self response navigation w))
  /\ page_type <$> yielded (parse_navigation self response navigation w)
     = followed_tags (crawl_strategy self) navigation.
Proof.
  intros Hitems Hnext Hsubs.
  destruct (parse_navigation_run self response navigation w Hitems Hnext Hsubs)
    as (pout & nout & sout & Hp & Hn & Hs & -> & ->).
  split; [done|]. unfold followed_links, followed_tags. split.
  - repeat apply Forall2_app.
    + eapply Forall2_impl; [exact Hp|].
      intros c r Hr. by apply product_request_route in Hr as [? _].
    + eapply Forall2_impl; [exact Hn|].
      intros c r Hr. by apply nextpage_request_route in Hr as [? _].
    + eapply Forall2_impl; [exact Hs|].
      intros c r Hr. by apply subcategory_request_route in Hr as [? _].
  - rewrite !fmap_app.
    rewrite (Forall2_fmap_eq _ page_type (fun _ => "product"%string) _ _ Hp)
      by (intros a b Hab; by apply product_request_shape in Hab as [? _]).
    rewrite (Forall2_fmap_eq _ page_type (fun _ => "nextPage"%string) _ _ Hn)
      by (intros a b Hab; by apply nextpage_request_shape in Hab as [? _]).
    rewrite (Forall2_fmap_eq _ page_type subcategory_tag _ _ Hs)
      by (intros a b Hab;
          by apply subcategory_request_route in Hab as (_ & _ & ?)).
    f_equal. f_equal.
    + by destruct (nextPage navigation), (default [] (items navigation)).
    + by destruct (bool_decide _).
Qed.

(** X17.  [parse_navigation] stops at the first product link whose request
    cannot be built, because of its probability or because Scrapy refuses
    its URL: it has yielded the requests for the links before it, which
    can be followed, the exception leaves the callback, and neither the
    next-page link nor a subcategory link is followed. *)
Theorem parse_navigation_stops self response navigation w good bad rest e :
  items navigation = Some (good ++ bad :: rest) ->
  Forall (fun c => followable c = true) good ->
  get_parse_product_request bad None = Raise e ->
  exists out,
    Forall2 (fun c r => get_parse_product_request c None = Ok r) good out
    /\ parse_navigation self response navigation w
       = {| yielded := out; raised := Some e; world := w |}.
Proof.
  intros Hitems Hgood Hbad.
  destruct (for_in_yield_all (fun c => get_parse_product_request c None)
              good w) as (out & Hout & _).
  { eapply Forall_impl; [exact Hgood|]. intros c Hc.
    by apply get_parse_product_request_well_formed. }
  exists out. split; [exact Hout|].
  unfold parse_navigation. cbv zeta. rewrite Hitems.
  change (default [] (Some (good ++ bad :: rest))) with (good ++ bad :: rest).
  rewrite seq_run.
  by rewrite (for_in_yield_raise _ good bad rest e w out Hout Hbad).
Qed.

Lemma world_seq {A} (g1 g2 : Generator A) w :
  world ((g1 >> g2) w) =
  match raised (g1 w) with
  | Some _ => world (g1 w)
  | None => world (g2 (world (g1 w)))
  end.
Proof. rewrite seq_run. by destruct (raised (g1 w)). Qed.

Lemma world_yield {A} (e : result A) w : world (yield e w) = w.
Proof. by destruct e. Qed.

(** X18.  [parse_navigation] never touches the stats, and the only record it
    logs is the one for a next-page link it ignores, on a page that has a
    next-page link and no product link; this holds also when it raises. *)
Theorem parse_navigation_effects self response navigation w :
  stats (world (parse_navigation self response navigation w)) = stats w
  /\ logged (world (parse_navigation self response navigation w))
     = logged w
       ++ match nextPage navigation, default [] (items navigation) with
          | Some next, [] => [IgnoringNextPage next (nav_url navigation)]
          | _, _ => []
          end.
Proof.
  unfold parse_navigation. cbv zeta.
  rewrite !world_seq, !world_for_in_yield.
  set (subs := if bool_decide (crawl_strategy self <> pagination_only)
               then for_in (default [] (subCategories navigation))
                      (fun request =>
                         yield (get_subcategory_request request None
                                  (meta_page_params (response_meta response))
                                  None).2)
               else pass).
  assert (forall w', world (subs w') = w') as Hsubs.
  { intros w'. unfold subs. destruct (bool_decide _); [|done].
    apply world_for_in_yield. }
  destruct (default [] (items navigation)) as [|c cs] eqn:Hitems.
  - cbn [for_in pass raised world].
    destruct (nextPage navigation) as [next|].
    + cbn [exec raised world]. by rewrite Hsubs.
    + cbn [pass raised world]. rewrite Hsubs. by rewrite app_nil_r.
  - assert (logged w ++ match nextPage navigation with
                        | Some _ | _ => []
                        end = logged w) as ->
      by (destruct (nextPage navigation); apply app_nil_r).
    destruct (raised (for_in (c :: cs) _ w)); [done|].
    destruct (nextPage navigation) as [next|].
    + rewrite world_yield, Hsubs. by destruct (raised _).
    + cbn [pass raised world]. by rewrite Hsubs.
Qed.

(** X19.  [parse_navigation] requests nothing but links of the page: the
    URL of every request it yields is Scrapy's URL for the URL of a link it
    follows under the strategy. *)
Theorem parse_navigation_urls self response navigation w r :
  r ∈ yielded (parse_navigation self response navigation w) ->
  exists c,
    c ∈ followed_links (crawl_strategy self) navigation
    /\ request_url_for (url c) = Ok (request_url r).
Proof.
  intros Hr. unfold followed_links.
  apply parse_navigation_yielded in Hr
    as [(c & Hc & Hr)|[(next & c & cs & Hnext & Hitems & Hr)|(Hs & c & Hc & Hr)]].
  - exists c. split; [|by apply product_request_route in Hr as [? _]].
    apply elem_of_app. by left.
  - exists next. split; [|by apply nextpage_request_route in Hr as [? _]].
    apply elem_of_app. right. apply elem_of_app. left.
    rewrite Hnext, Hitems. left.
  - exists c. split; [|by apply subcategory_request_route in Hr as [? _]].
    apply elem_of_app. right. apply elem_of_app. right.
    by rewrite bool_decide_eq_true_2.
Qed.

(** X20.  The page type of a request of the crawl decides its callback: a
    request tagged [product] goes to [parse_product], and every other
    request is tagged [productNavigation], [nextPage], [subCategories] or
    [productNavigation-heuristics] and goes to [parse_navigation]. *)
Theorem crawled_routing self r :
  crawled self r ->
  (page_type r = "product"%string
   /\ request_callback r = parse_product_callback)
  \/ (page_type r ∈ ["productNavigation"; "nextPage"; "subCategories";
                     "productNavigation-heuristics"]%string
      /\ request_callback r = parse_navigation_callback).
Proof.
  intros [w r' Hr|parent response navigation w r' _ _ _ Hr].
  - right. destruct (start_request_shape _ _ _ Hr) as (-> & -> & _).
    split; [left|done].
  - apply parse_navigation_yielded in Hr
      as [(c & Hc & Hr)|[(next & c & cs & Hnext & Hitems & Hr)|(Hs & c & Hc & Hr)]].
    + left. split.
      * by apply product_request_shape in Hr as [? _].
      * by apply product_request_route in Hr as [_ ?].
    + right. split.
      * apply nextpage_request_shape in Hr as [-> _]. right; left.
      * by apply nextpage_request_route in Hr as [_ ?].
    + right. apply subcategory_request_route in Hr as (_ & -> & ->).
      split; [|done]. unfold subcategory_tag.
      destruct (contains _ _); [do 3 right; left|do 2 right; left].
Qed.

(** X21.  The parameters a request of the crawl carries are none, the empty
    ones, or, under [full] only, the single entry [full_domain] with the
    first allowed domain: nothing else is ever put under [page_params]. *)
Theorem crawled_params self r :
  crawled self r ->
  carried_params r = None
  \/ carried_params r = Some ∅
  \/ (crawl_strategy self = full
      /\ exists domain,
           head (allowed_domains self) = Some domain
           /\ carried_params r = Some {[ "full_domain"%string := domain ]}).
Proof.
  induction 1 as [w r Hr
                 |parent response navigation w r _ IH _ Hmeta Hr].
  - destruct (start_request_shape _ _ _ Hr) as (_ & _ & _ & _ & _ & H).
    destruct (bool_decide (crawl_strategy self = full)) eqn:Hfull; [|auto].
    apply bool_decide_eq_true in Hfull. auto.
  - apply parse_navigation_yielded in Hr
      as [(c & Hc & Hr)|[(next & c & cs & Hnext & Hitems & Hr)|(Hs & c & Hc & Hr)]].
    + left. by apply product_request_shape in Hr as (_ & ? & _).
    + right; left. by apply nextpage_request_shape in Hr as (_ & ? & _).
    + apply subcategory_request_shape in Hr as [Hr _].
      destruct (contains _ _); destruct Hr as [_ ->]; [|by right; left].
      rewrite Hmeta. fold (carried_params parent).
      destruct IH as [->|[->|(Hfull & domain & Hd & ->)]].
      * by right; left.
      * by right; left.
      * right; right. split; [done|]. exists domain. split; [done|].
        unfold or_empty_dict. rewrite bool_decide_eq_false_2; [done|].
        apply insert_non_empty.
Qed.

(** X22.  Only a request tagged [productNavigation-heuristics] or a start
    request hands parameters on: every request found on the response to a
    product, next-page or plain subcategory request that [parse_navigation]
    yielded carries no parameter, also under [full]. *)
Theorem params_end_at_plain_links self response0 navigation0 w0 parent
    response navigation w r :
  parent ∈ yielded (parse_navigation self response0 navigation0 w0) ->
  page_type parent <> "productNavigation-heuristics"%string ->
  response_meta response = request_meta parent ->
  r ∈ yielded (parse_navigation self response navigation w) ->
  no_params r.
Proof.
  intros Hparent Htag Hmeta Hr.
  assert (or_empty_dict (meta_page_params (response_meta response)) = ∅)
    as Hempty.
  { rewrite Hmeta. fold (carried_params parent).
    apply or_empty_dict_no_params.
    apply parse_navigation_yielded in Hparent
      as [(c & Hc & Hp)|[(next & c & cs & Hnext & Hitems & Hp)|(Hs & c & Hc & Hp)]].
    - left. by apply product_request_shape in Hp as (_ & ? & _).
    - right. by apply nextpage_request_shape in Hp as (_ & ? & _).
    - right. apply subcategory_request_shape in Hp as [Hp _].
      destruct (contains _ _); destruct Hp as [Hp ?]; [done|done]. }
  unfold no_params.
  apply parse_navigation_yielded in Hr
    as [(c & Hc & Hr)|[(next & c & cs & Hnext & Hitems & Hr)|(Hs & c & Hc & Hr)]].
  - left. by apply product_request_shape in Hr as (_ & ? & _).
  - right. by apply nextpage_request_shape in Hr as (_ & ? & _).
  - right. apply subcategory_request_shape in Hr as [Hr _].
    destruct (contains _ _); destruct Hr as [_ ->]; [|done].
    by rewrite Hempty.
Qed.

Lemma parse_product_run self response product w :
  parse_product self response product w =
  if match product_get_probability product with
     | None => true
     | Some p => (threshold <=? p)%float
     end
  then {| yielded := [product]; raised := None; world := w |}
  else {| yielded := []; raised := None;
          world := info (IgnoringItem (response_url response) product)
                     (inc_value "drop_item/product/low_probability" w) |}.
Proof.
  unfold parse_product. cbv zeta.
  by destruct (match product_get_probability product with
               | None => true
               | Some p => (threshold <=? p)%float
               end).
Qed.

Lemma dropped_inc_value w :
  dropped (inc_value "drop_item/product/low_probability" w) = dropped w + 1.
Proof. unfold dropped, inc_value. cbn [stats]. by rewrite lookup_insert_eq. Qed.

(** X23.  Over a batch of product responses [parse_product] loses nothing
    silently: it never raises, it yields the products whose probability is
    missing or at least [0.1], in order, and for each of the others it adds
    one to the counter of dropped products, logs one record and changes no
    other counter. *)
Theorem parse_products_conservation self batch w :
  raised (parse_products self batch w) = None
  /\ yielded (parse_products self batch w)
     = List.filter (fun product =>
                      match product_get_probability product with
                      | None => true
                      | Some p => (threshold <=? p)%float
                      end) (snd <$> batch)
  /\ dropped (world (parse_products self batch w))
     + Z.of_nat (length (yielded (parse_products self batch w)))
     = dropped w + Z.of_nat (length batch)
  /\ (length (logged (world (parse_products self batch w)))
      + length (yielded (parse_products self batch w))
      = length (logged w) + length batch)%nat
  /\ forall key, key <> "drop_item/product/low_probability"%string ->
       stats (world (parse_products self batch w)) !! key = stats w !! key.
Proof.
  unfold parse_products. revert w.
  induction batch as [|[response product] batch IH]; intros w.
  - cbn [for_in pass raised yielded world length fmap list_fmap List.filter].
    repeat split; lia.
  - destruct (IH w) as (Hr1 & Hy1 & Hd1 & Hl1 & Hs1).
    destruct (IH (info (IgnoringItem (response_url response) product)
                    (inc_value "drop_item/product/low_probability" w)))
      as (Hr2 & Hy2 & Hd2 & Hl2 & Hs2).
    cbn [for_in]. rewrite seq_run, parse_product_run.
    rewrite fmap_cons. cbn [snd List.filter].
    destruct (match product_get_probability product with
              | None => true
              | Some p => (threshold <=? p)%float
              end).
    + cbn [raised yielded world]. rewrite Hy1.
      split; [done|]. split; [done|].
      rewrite <- Hy1. cbn [app length]. rewrite Nat2Z.inj_succ.
      split; [lia|]. split; [lia|done].
    + cbn [raised yielded world app]. split; [done|]. split; [done|].
      split; [|split].
      * rewrite Hd2. unfold dropped at 1. cbn [info stats].
        fold (dropped (inc_value "drop_item/product/low_probability" w)).
        rewrite dropped_inc_value. cbn [length]. lia.
      * rewrite Hl2. cbn [info logged inc_value]. rewrite length_app.
        cbn [length]. lia.
      * intros key Hkey. rewrite Hs2 by done. cbn [info inc_value stats].
        by rewrite lookup_insert_ne.
Qed.

End Scrapy.

(** * The claims and the further properties at the shop of the examples

    The URLs of the examples have a scheme and need no escaping: Scrapy
    keeps them as they are, which is what [example_request_url] does. *)

(** C1, as stated, fails: in the crawl of a shop under [full], the request
    for a plain subcategory link found on the start page is tagged
    [subCategories] and carries empty parameters.  This holds of the run in
    which Scrapy keeps the URLs, and of every run in which it accepts the
    start URL and the URL of the link. *)
Lemma full_plain_subcategory_counterexample :
  (exists r,
     crawled example_request_url (shop full) r
     /\ r ∈ yielded (parse_navigation example_request_url (shop full)
                       (start_response full) plain_navigation fresh_world)
     /\ page_type r = "subCategories"%string
     /\ is_subcategory r = true
     /\ carried_params r = Some ∅)
  /\ (forall request_url_for,
        accepted request_url_for shop_url = true ->
        accepted request_url_for (lit "https://shop.example/shoes") = true ->
        exists r,
          crawled request_url_for (shop full) r
          /\ page_type r = "subCategories"%string
          /\ is_subcategory r = true
          /\ carried_params r = Some ∅).
Proof.
  assert (forall request_url_for,
            accepted request_url_for shop_url = true ->
            accepted request_url_for (lit "https://shop.example/shoes") = true ->
            exists start r,
              start ∈ yielded (start_requests request_url_for (shop full)
                                 fresh_world)
              /\ r ∈ yielded (parse_navigation request_url_for (shop full)
                                {| response_url := shop_url;
                                   response_meta := request_meta start |}
                                plain_navigation fresh_world)
              /\ page_type r = "subCategories"%string
              /\ is_subcategory r = true
              /\ carried_params r = Some ∅) as Hrun.
  { intros request_url_for Hstart Hlink.
    destruct (start_requests_all request_url_for (shop full) fresh_world)
      as (_ & _ & Hyielded); [discriminate|by repeat constructor|].
    cbn [shop start_urls] in Hyielded.
    destruct (yielded (start_requests request_url_for (shop full) fresh_world))
      as [|start others] eqn:Hstarts; [by apply Forall2_cons_nil_inv in Hyielded|].
    exists start.
    destruct (parse_navigation_run request_url_for (shop full)
                {| response_url := shop_url;
                   response_meta := request_meta start |}
                plain_navigation fresh_world)
      as (pout & nout & sout & Hp & Hn & Hs & Hout & _).
    { constructor. }
    { exact I. }
    { repeat constructor. apply andb_true_iff. split; [reflexivity|exact Hlink]. }
    cbn [plain_navigation items nextPage subCategories default shop
         crawl_strategy] in Hp, Hn, Hs.
    apply Forall2_nil_inv_l in Hp as ->. apply Forall2_nil_inv_l in Hn as ->.
    rewrite bool_decide_eq_true_2 in Hs by done.
    apply Forall2_cons_inv_l in Hs as (r & rest & Hr & _ & ->).
    exists r. split; [left|]. split; [rewrite Hout; left|].
    pose proof (subcategory_request_tagged _ _ _ _ _ _ Hr) as [Htag _].
    apply subcategory_request_shape in Hr as [[Htype Hparams] _].
    by rewrite Htype, Hparams. }
  split.
  - destruct (get_subcategory_request example_request_url
                (candidate "https://shop.example/shoes" "Shoes" None) None
                (meta_page_params (response_meta (start_response full)))
                None).2
      as [r|x] eqn:Hr; [|discriminate Hr].
    injection Hr as <-. eexists.
    assert (Hin : forall r : Request, r ∈ [r]) by (intros; left).
    split; [|split; [apply Hin|repeat split]].
    eapply (crawled_link example_request_url (shop full) _
              (start_response full) plain_navigation fresh_world).
    + eapply (crawled_start example_request_url (shop full) fresh_world).
      apply Hin.
    + reflexivity.
    + reflexivity.
    + apply Hin.
  - intros request_url_for Hstart Hlink.
    destruct (Hrun request_url_for Hstart Hlink)
      as (start & r & Hs & Hr & Htype & Htag & Hparams).
    exists r. split; [|by repeat split].
    eapply (crawled_link request_url_for (shop full) start
              {| response_url := shop_url;
                 response_meta := request_meta start |}
              plain_navigation fresh_world);
      [by eapply crawled_start| |reflexivity|exact Hr].
    by apply start_request_shape in Hs as (_ & ? & _).
Qed.

(** On the start page of the shop: under [full] the start request and the
    request for the heuristic link carry the [full_domain] entry; under
    [navigation] the request for the heuristic link carries nothing. *)
Lemma subcategory_page_params_witness :
  (exists r rs,
     yielded (parse_navigation example_request_url (shop full)
                (start_response full) heuristic_navigation fresh_world)
     = r :: rs
     /\ page_type r = "productNavigation-heuristics"%string
     /\ carried_params r = Some {[ "full_domain"%string := shop_domain ]})
  /\ (exists r domain,
        yielded (start_requests example_request_url (shop full) fresh_world)
        = [r]
        /\ carried_params r = Some {[ "full_domain"%string := domain ]})
  /\ (exists r rs,
        yielded (parse_navigation example_request_url (shop navigation)
                   (start_response navigation) heuristic_navigation
                   fresh_world) = r :: rs
        /\ is_subcategory r = true
        /\ carried_params r = Some ∅).
Proof.
  split; [|split].
  - eexists. eexists. split; [reflexivity|]. split; [reflexivity|].
    apply (proj1 (proj1 (subcategory_page_params example_request_url)
                    (shop full) (start_response full) heuristic_navigation
                    fresh_world _ ltac:(left))).
    reflexivity.
  - eexists. 
    destruct (proj1 (proj2 (subcategory_page_params example_request_url))
                (shop full) fresh_world _ eq_refl ltac:(left))
      as (domain & _ & _ & Hparams & _).
    exists domain. split; [reflexivity|exact Hparams].
  - eexists. eexists. split; [reflexivity|]. split; [reflexivity|].
    apply (proj2 (proj2 (subcategory_page_params example_request_url))
             (shop navigation));
      [discriminate | | reflexivity].
    eapply (crawled_link example_request_url (shop navigation) _
              (start_response navigation) heuristic_navigation fresh_world);
      [eapply (crawled_start example_request_url (shop navigation)
                 fresh_world); left
      | reflexivity | reflexivity | left].
Defined.

(** Under [pagination_only] the first request of the listing page, a
    product request, is no subcategory request; under [navigation] its two
    subcategory links yield a request each. *)
Lemma strategy_gates_subcategories_witness :
  (exists r rs,
     yielded (parse_navigation example_request_url (shop pagination_only)
                (start_response pagination_only) listing_navigation
                fresh_world) = r :: rs
     /\ is_subcategory r = false)
  /\ length (List.filter is_subcategory
               (yielded (parse_navigation example_request_url
                           (shop navigation) (start_response navigation)
                           listing_navigation fresh_world))) = 2%nat.
Proof.
  split.
  - eexists. eexists. split; [reflexivity|].
    apply (proj1 (strategy_gates_subcategories example_request_url)
             (shop pagination_only) (start_response pagination_only)
             listing_navigation fresh_world);
      [reflexivity | left].
  - assert (Hwf : forall l,
               forallb (followable example_request_url) l = true ->
               Forall (fun c => followable example_request_url c = true) l).
    { intros l H. apply Forall_forall. intros c Hc.
      apply list_elem_of_In in Hc.
      exact (proj1 (forallb_forall (followable example_request_url) l) H c
               Hc). }
    rewrite <- (Forall2_length _ _ _
                  (proj2 (strategy_gates_subcategories example_request_url)
                     (shop navigation) (start_response navigation)
                     listing_navigation fresh_world ltac:(discriminate)
                     (Hwf (default [] (items listing_navigation)) eq_refl)
                     eq_refl
                     (Hwf (default [] (subCategories listing_navigation))
                        eq_refl))).
    reflexivity.
Defined.

(** The page without products logs the skipped next-page link and yields
    no next-page request; the listing page yields exactly one. *)
Lemma next_page_needs_products_witness :
  logged (world (parse_navigation example_request_url (shop navigation)
                   (start_response navigation) empty_listing_navigation
                   fresh_world))
  = [IgnoringNextPage (candidate "https://shop.example/?page=9" "Next" None)
       shop_url]
  /\ exists r,
       get_nextpage_request example_request_url
         (candidate "https://shop.example/?page=2" "Next" None) None None
       = Ok r
       /\ List.filter is_nextpage
            (yielded (parse_navigation example_request_url (shop navigation)
                        (start_response navigation) listing_navigation
                        fresh_world)) = [r].
Proof.
  split.
  - exact (proj1 (proj2 (proj1 (next_page_needs_products example_request_url)
                           (shop navigation) (start_response navigation)
                           empty_listing_navigation fresh_world _
                           eq_refl eq_refl))).
  - refine (proj2 (next_page_needs_products example_request_url)
              (shop navigation) (start_response navigation)
              listing_navigation fresh_world _ _ _ eq_refl eq_refl _
              eq_refl).
    repeat constructor.
Defined.

(** C5, as stated, fails: for the probability nearest to [0.35], which lies
    below [0.35], the floor of the exact product with 100 is 34, and the
    priority of the product request is 135, not 134: the binary64 product
    is rounded to 35 before the integer part is taken. *)
Lemma product_priority_counterexample :
  exists request p,
    get_probability request = Some p
    /\ is_probability p = true
    /\ exact_floor100 p = Some 34
    /\ get_parse_product_request_priority request = Ok 135
    /\ (forall request_url_for callback r,
          get_parse_product_request request_url_for request callback = Ok r ->
          request_priority r = 135)
    /\ exists r,
         get_parse_product_request example_request_url request None = Ok r
         /\ request_priority r = 135.
Proof.
  exists (candidate "https://shop.example/p/4" "Belt" (Some prob_0_35)),
         prob_0_35.
  split; [reflexivity|]. split; [reflexivity|].
  split; [vm_compute; reflexivity|]. split; [reflexivity|]. split.
  - intros request_url_for callback r
      (_ & _ & _ & Hr)%get_parse_product_request_inv.
    now injection Hr as <-.
  - eexists. split; reflexivity.
Qed.

(** The two product links of the listing page: priorities 180 and 105. *)
Lemma product_priority_witness :
  (exists n k,
     float_floor (100 * prob_0_8) = Some n
     /\ exact_floor100 prob_0_8 = Some k
     /\ k <= n <= k + 1
     /\ get_parse_product_request_priority
          (candidate "https://shop.example/p/1" "Boot" (Some prob_0_8))
        = Ok (n + 100)
     /\ n = 80)
  /\ (forall n1 n2,
        get_parse_product_request_priority
          (candidate "https://shop.example/p/2" "Lace" (Some prob_0_05))
        = Ok n1 ->
        get_parse_product_request_priority
          (candidate "https://shop.example/p/1" "Boot" (Some prob_0_8))
        = Ok n2 ->
        n1 <= n2).
Proof.
  split.
  - destruct (proj1 (product_priority example_request_url)
                (candidate "https://shop.example/p/1" "Boot" (Some prob_0_8))
                prob_0_8 eq_refl eq_refl)
      as (n & k & Hfloor & Hk & Hkn & Hprio & _).
    exists n, k. split; [exact Hfloor|]. split; [exact Hk|].
    split; [exact Hkn|]. split; [exact Hprio|].
    injection Hfloor as <-. reflexivity.
  - intros n1 n2.
    exact (proj1 (proj2 (product_priority example_request_url))
             (candidate "https://shop.example/p/2" "Lace" (Some prob_0_05))
             (candidate "https://shop.example/p/1" "Boot" (Some prob_0_8))
             prob_0_05 prob_0_8 n1 n2 eq_refl eq_refl eq_refl eq_refl eq_refl).
Defined.

(** The one next-page request of the listing page has priority 100. *)
Lemma nextpage_priority_witness :
  exists r,
    List.filter is_nextpage
      (yielded (parse_navigation example_request_url (shop navigation)
                  (start_response navigation) listing_navigation
                  fresh_world)) = [r]
    /\ request_priority r = 100.
Proof.
  eexists. split; [reflexivity|].
  apply (proj2 (proj2 (nextpage_priority example_request_url))
           (shop navigation) (start_response navigation) listing_navigation
           fresh_world);
    [do 2 right; left | reflexivity].
Defined.

(** C7, as stated, fails: for the probability nearest to [0.35] the floor
    of the exact product with 100 is 34, and the priority of the
    subcategory request is 35. *)
Lemma subcategory_priority_counterexample :
  exists request p,
    get_probability request = Some p
    /\ is_probability p = true
    /\ exact_floor100 p = Some 34
    /\ get_parse_navigation_request_priority request = Ok 35
    /\ (forall request_url_for callback page_params r,
          (get_subcategory_request request_url_for request callback
             page_params None).2 = Ok r ->
          request_priority r = 35)
    /\ exists r,
         (get_subcategory_request example_request_url request None None
            None).2 = Ok r
         /\ page_type r = "subCategories"%string
         /\ request_priority r = 35.
Proof.
  exists (candidate "https://shop.example/belts" "Belts" (Some prob_0_35)),
         prob_0_35.
  split; [reflexivity|]. split; [reflexivity|].
  split; [vm_compute; reflexivity|]. split; [reflexivity|]. split.
  - intros request_url_for callback page_params r
      (_ & _ & Hr)%get_subcategory_request_inv.
    now injection Hr as <-.
  - eexists. repeat split.
Qed.

(** The heuristic subcategory link of the listing page, of probability
    one half, gets priority 50; the plain one, without probability, 0. *)
Lemma subcategory_priority_witness :
  (exists n k,
     float_floor (100 * 0.5) = Some n
     /\ exact_floor100 0.5 = Some k
     /\ k <= n <= k + 1
     /\ get_parse_navigation_request_priority
          (candidate "https://shop.example/hats" "[heuristics] Hats"
             (Some 0.5%float)) = Ok n
     /\ exists r,
          (get_subcategory_request example_request_url
             (candidate "https://shop.example/hats" "[heuristics] Hats"
                (Some 0.5%float)) None None None).2 = Ok r
          /\ request_priority r = n)
  /\ get_parse_navigation_request_priority
       (candidate "https://shop.example/shoes" "Shoes" None) = Ok 0.
Proof.
  split.
  - destruct (proj1 (subcategory_priority example_request_url
                       (candidate "https://shop.example/hats"
                          "[heuristics] Hats" (Some 0.5%float)) None None)
                0.5%float eq_refl eq_refl)
      as (n & k & Hfloor & Hk & Hkn & Hprio & _ & Hbuilt).
    exists n, k. split; [exact Hfloor|]. split; [exact Hk|].
    split; [exact Hkn|]. split; [exact Hprio|]. exact (Hbuilt eq_refl).
  - refine (proj1 (proj2 (subcategory_priority example_request_url
                            (candidate "https://shop.example/shoes" "Shoes"
                               None) None None) _)).
    right. eexists. split; reflexivity.
Defined.

(** The heuristic link of the listing page is renamed [Hats]; the plain
    one keeps its name. *)
Lemma heuristics_marker_retagged_witness :
  (exists cleaned,
     removed heuristics_marker (lit "[heuristics] Hats") cleaned
     /\ name (get_subcategory_request example_request_url
                (candidate "https://shop.example/hats" "[heuristics] Hats"
                   (Some 0.5%float)) None None None).1
        = Some (strip cleaned))
  /\ (get_subcategory_request example_request_url
        (candidate "https://shop.example/shoes" "Shoes" None)
        None None None).1
     = candidate "https://shop.example/shoes" "Shoes" None.
Proof.
  split.
  - destruct (proj1 (proj1 (heuristics_marker_retagged example_request_url
                              (candidate "https://shop.example/hats"
                                 "[heuristics] Hats" (Some 0.5%float))
                              None None None) eq_refl))
      as (cleaned & Hremoved & Hname & _).
    now exists cleaned.
  - exact (proj1 (proj1 (proj2 (heuristics_marker_retagged
                                  example_request_url
                                  (candidate "https://shop.example/shoes"
                                     "Shoes" None) None None None))
                    eq_refl)).
Defined.

(** On the listing page the first request, a product request, carries the
    marker, and the three that follow the product requests do not. *)
Lemma allow_offsite_only_for_products_witness :
  exists r rs,
    yielded (parse_navigation example_request_url (shop navigation)
               (start_response navigation) listing_navigation fresh_world)
    = r :: rs
    /\ (meta_allow_offsite (request_meta r) = Some true
        <-> page_type r = "product"%string)
    /\ Forall (fun r => meta_allow_offsite (request_meta r) = None
                        /\ page_type r <> "product"%string)
         (drop 1 rs).
Proof.
  eexists. eexists. split; [reflexivity|]. split.
  - apply (proj2 (proj2 (proj2
             (allow_offsite_only_for_products example_request_url)))
             (shop navigation) (start_response navigation) listing_navigation
             fresh_world). left.
  - repeat constructor; discriminate.
Defined.

(** C10, as stated, fails in its formula: with an explicit priority of 0
    and the probability nearest to [0.35], the floor of the exact product
    with 100 is 34 and the priority of the request is 35. *)
Lemma zero_priority_counterexample :
  exists request p,
    get_probability request = Some p
    /\ is_probability p = true
    /\ exact_floor100 p = Some 34
    /\ (forall request_url_for callback page_params page_type r,
          get_parse_navigation_request request_url_for request callback
            page_params (Some 0) page_type = Ok r ->
          request_priority r = 35)
    /\ exists r,
         get_parse_navigation_request example_request_url request None None
           (Some 0) "subCategories" = Ok r
         /\ request_priority r = 35.
Proof.
  exists (candidate "https://shop.example/belts" "Belts" (Some prob_0_35)),
         prob_0_35.
  split; [reflexivity|]. split; [reflexivity|].
  split; [vm_compute; reflexivity|]. split.
  - intros request_url_for callback page_params page_type r
      (_ & _ & _ & Hr)%get_parse_navigation_request_inv.
    rewrite bool_decide_eq_true_2 in Hr by reflexivity.
    now injection Hr as <-.
  - eexists. split; reflexivity.
Qed.

(** With an explicit priority of 0 the heuristic link still gets 50; with
    an explicit 7 it gets 7. *)
Lemma zero_priority_is_recomputed_witness :
  (exists n k,
     float_floor (100 * 0.5) = Some n
     /\ exact_floor100 0.5 = Some k
     /\ k <= n <= k + 1
     /\ exists r,
          get_parse_navigation_request example_request_url
            (candidate "https://shop.example/hats" "[heuristics] Hats"
               (Some 0.5%float)) None None (Some 0) "subCategories" = Ok r
          /\ request_priority r = n)
  /\ forall r,
       get_parse_navigation_request example_request_url
         (candidate "https://shop.example/hats" "[heuristics] Hats"
            (Some 0.5%float)) None None (Some 7) "subCategories" = Ok r ->
       request_priority r = 7.
Proof.
  split.
  - destruct (proj1 (proj2 (proj2 (proj2
                (zero_priority_is_recomputed example_request_url
                   (candidate "https://shop.example/hats" "[heuristics] Hats"
                      (Some 0.5%float)) None None "subCategories"))))
                0.5%float eq_refl eq_refl)
      as (n & k & Hfloor & Hk & Hkn & _ & Hbuilt).
    exists n, k. split; [exact Hfloor|]. split; [exact Hk|].
    split; [exact Hkn|]. exact (Hbuilt eq_refl).
  - intros r.
    refine (proj2 (proj2 (proj2 (proj2 (proj2
              (zero_priority_is_recomputed example_request_url
                 (candidate "https://shop.example/hats" "[heuristics] Hats"
                    (Some 0.5%float)) None None "subCategories")))))
              7 r _).
    discriminate.
Defined.

(** A next-page candidate whose probability is NaN. *)
Lemma priority_of_non_number_witness :
  get_parse_navigation_request_priority
    (candidate "https://shop.example/p/3" "Sock" (Some nan))
  = Raise ValueError
  /\ get_parse_product_request_priority
       (candidate "https://shop.example/p/3" "Sock" (Some nan))
     = Raise ValueError
  /\ exists r,
       get_nextpage_request example_request_url
         (candidate "https://shop.example/p/3" "Sock" (Some nan)) None None
       = Ok r
       /\ request_priority r = 100.
Proof.
  destruct (priority_of_non_number example_request_url
              (candidate "https://shop.example/p/3" "Sock" (Some nan)) nan
              eq_refl (or_introl eq_refl)) as (Hnav & Hproduct & Hnext).
  split; [exact Hnav|]. split; [exact Hproduct|]. exact (Hnext eq_refl).
Defined.

(** The listing page under [full]: five requests, none refused. *)
Lemma parse_navigation_follows_witness :
  raised (parse_navigation example_request_url (shop full)
            (start_response full) listing_navigation fresh_world) = None
  /\ Forall2 (fun c r => example_request_url (url c) = Ok (request_url r))
       (followed_links (crawl_strategy (shop full)) listing_navigation)
       (yielded (parse_navigation example_request_url (shop full)
                   (start_response full) listing_navigation fresh_world))
  /\ page_type <$> yielded (parse_navigation example_request_url (shop full)
                              (start_response full) listing_navigation
                              fresh_world)
     = followed_tags (crawl_strategy (shop full)) listing_navigation.
Proof.
  apply (parse_navigation_follows example_request_url (shop full)
           (start_response full) listing_navigation fresh_world).
  - repeat constructor.
  - reflexivity.
  - repeat constructor.
Defined.

(** The page whose second product link has probability NaN: the request
    for the first link is yielded, then [ValueError] is raised. *)
Lemma parse_navigation_stops_witness :
  exists out,
    Forall2 (fun c r =>
               get_parse_product_request example_request_url c None = Ok r)
      [candidate "https://shop.example/p/1" "Boot" (Some prob_0_8)] out
    /\ parse_navigation example_request_url (shop full) (start_response full)
         broken_navigation fresh_world
       = {| yielded := out; raised := Some ValueError; world := fresh_world |}.
Proof.
  apply (parse_navigation_stops example_request_url (shop full)
           (start_response full) broken_navigation fresh_world
           [candidate "https://shop.example/p/1" "Boot" (Some prob_0_8)]
           (candidate "https://shop.example/p/3" "Sock" (Some nan))
           [candidate "https://shop.example/p/2" "Lace" (Some prob_0_05)]
           ValueError).
  - reflexivity.
  - repeat constructor.
  - reflexivity.
Defined.

(** The request for the plain subcategory link of the start page. *)
Lemma parse_navigation_urls_witness :
  exists c,
    c ∈ followed_links (crawl_strategy (shop full)) plain_navigation
    /\ example_request_url (url c) = Ok (request_url shoes_request).
Proof.
  apply (parse_navigation_urls example_request_url (shop full)
           (start_response full) plain_navigation fresh_world shoes_request).
  left.
Defined.

Lemma crawled_routing_witness :
  (page_type shoes_request = "product"%string
   /\ request_callback shoes_request = parse_product_callback)
  \/ (page_type shoes_request
      ∈ ["productNavigation"; "nextPage"; "subCategories";
         "productNavigation-heuristics"]%string
      /\ request_callback shoes_request = parse_navigation_callback).
Proof.
  apply (crawled_routing example_request_url (shop full) shoes_request).
  eapply (crawled_link example_request_url (shop full) _
            (start_response full) plain_navigation fresh_world);
    [eapply (crawled_start example_request_url (shop full) fresh_world); left
    | reflexivity | reflexivity | left].
Defined.

Lemma crawled_params_witness :
  carried_params shoes_request = None
  \/ carried_params shoes_request = Some ∅
  \/ (crawl_strategy (shop full) = full
      /\ exists domain,
           head (allowed_domains (shop full)) = Some domain
           /\ carried_params shoes_request
              = Some {[ "full_domain"%string := domain ]}).
Proof.
  apply (crawled_params example_request_url (shop full) shoes_request).
  eapply (crawled_link example_request_url (shop full) _
            (start_response full) plain_navigation fresh_world);
    [eapply (crawled_start example_request_url (shop full) fresh_world); left
    | reflexivity | reflexivity | left].
Defined.

(** Under [full], the heuristic link found behind the plain subcategory
    link of the start page carries no parameter. *)
Lemma params_end_at_plain_links_witness :
  exists r rs,
    yielded (parse_navigation example_request_url (shop full) shoes_response
               heuristic_navigation fresh_world) = r :: rs
    /\ page_type r = "productNavigation-heuristics"%string
    /\ no_params r.
Proof.
  eexists. eexists. split; [reflexivity|]. split; [reflexivity|].
  apply (params_end_at_plain_links example_request_url (shop full)
           (start_response full) plain_navigation fresh_world shoes_request
           shoes_response heuristic_navigation fresh_world).
  - left.
  - discriminate.
  - reflexivity.
  - left.
Defined.

(** * The scenarios of the specification *)

(** [start_response] is the response to the one start request of the shop. *)
Example start_response_answers_start_request strategy :
  exists r,
    yielded (start_requests example_request_url (shop strategy) fresh_world)
    = [r]
    /\ request_callback r = parse_navigation_callback
    /\ response_meta (start_response strategy) = request_meta r.
Proof. destruct strategy; eexists; repeat split. Qed.

(** The listing page under [navigation]: product requests of priorities
    180 and 105, the next-page request of priority 100, the plain
    subcategory request of priority 0 and the heuristic one of priority 50.
    The product of probability 0.05 is requested all the same: products are
    filtered when their own page is parsed. *)
Example listing_page_requests :
  (fun r => (page_type r, request_priority r))
    <$> yielded (parse_navigation example_request_url (shop navigation)
                   (start_response navigation) listing_navigation fresh_world)
  = [("product", 180); ("product", 105); ("nextPage", 100);
     ("subCategories", 0); ("productNavigation-heuristics", 50)]%string.
Proof. reflexivity. Qed.

(** A product of probability exactly [0.1] is accepted; one of probability
    [0.0999] is dropped and counted once. *)
Example threshold_scenario :
  let product p :=
    {| product_url := shop_url;
       product_metadata := Some {| probability := Some p |} |} in
  let run p :=
    parse_product (shop navigation) (start_response navigation) (product p)
      fresh_world in
  yielded (run threshold) = [product threshold]
  /\ stats (world (run threshold)) = ∅
  /\ yielded (run prob_0_0999) = []
  /\ raised (run prob_0_0999) = None
  /\ stats (world (run prob_0_0999))
     = {[ "drop_item/product/low_probability"%string := 1 ]}.
Proof. repeat split. Qed.

(** The candidate labelled [[heuristics] Shoes]. *)
Example heuristic_shoes :
  let outcome :=
    get_subcategory_request example_request_url
      (candidate "https://shop.example/shoes" "[heuristics] Shoes" None)
      None None None in
  name outcome.1 = Some (lit "Shoes")
  /\ (page_type <$> (match outcome.2 with Ok r => Some r | Raise _ => None end))
     = Some "productNavigation-heuristics"%string.
Proof. split; reflexivity. Qed.

(** The integer part is taken of the binary64 product, which is rounded:
    the float nearest to [0.29] gives 28, its product with [100.0] being
    the float just below 29; the float nearest to [0.35], which is less
    than [0.35], gives 35, its product with [100.0] being 35 exactly, while
    the floor of the exact product is 34. *)
Example product_is_rounded_before_the_floor :
  int_of_float (100 * 0x1.28f5c28f5c28fp-2) = Ok 28
  /\ float_floor (100 * 0x1.28f5c28f5c28fp-2) = Some 28
  /\ exact_floor100 0x1.28f5c28f5c28fp-2 = Some 28
  /\ int_of_float (100 * prob_0_35) = Ok 35
  /\ float_floor (100 * prob_0_35) = Some 35
  /\ exact_floor100 prob_0_35 = Some 34.
Proof. repeat split; vm_compute; reflexivity. Qed.

(** A start URL without a scheme ends [start_requests]: the request for the
    URL before it is yielded, then the exception is raised. *)
Example schemeless_start_url :
  start_requests example_request_url
    {| crawl_strategy := navigation;
       start_urls := [shop_url; lit "shop.example/sale"; shop_url];
       allowed_domains := [shop_domain; shop_domain; shop_domain] |}
    fresh_world
  = {| yielded :=
         [{| request_url := shop_url;
             request_callback := parse_navigation_callback;
             request_priority := 0;
             request_meta :=
               {| meta_page_params := Some ∅;
                  meta_crawling_logs := StartLogs "productNavigation";
                  meta_allow_offsite := None |} |}];
       raised := Some ValueError;
       world := fresh_world |}.
Proof. reflexivity. Qed.

(** [replace] deletes the occurrences it meets; what is left may spell the
    marker again. *)
Example replace_is_one_pass :
  replace heuristics_marker [] (lit "[heu[heuristics]ristics] Shoes")
  = lit "[heuristics] Shoes".
Proof. reflexivity. Qed.
